(** * LifeVault geolocation service

    A shallow embedding of [backEnd/src/services/geolocationService.js]:
    the Haversine distance, the radius test, the compass mapping, the
    coordinate validator, the nearby-location helper, the location verifier
    and the spoofing heuristic, followed by the properties the design
    document states about them.  The bounding box, the bearing and the
    distance text of the same service, and the Move module
    [memory_vault::memory_vault] that records the ownership of memories, are
    embedded too, with properties read off their code.

    JavaScript numbers are IEEE 754 binary64 values, modelled by Rocq's
    primitive floats.  The values the service receives are the data a request
    body or a stored document holds: [undefined], [null], booleans, numbers,
    strings, arrays and plain objects. *)

From Stdlib Require Import ZArith Floats List String Ascii Bool Lia.
From Stdlib Require Import Permutation Sorted DecimalString.
Import ListNotations.

Set Warnings "-inexact-float,-register-all".

Local Open Scope string_scope.
Local Open Scope float_scope.

(** ** Numbers *)

Module Num.

(** The number with the integer value [n] (exact for [|n| <= 2^53]). *)
Definition of_Z (n : Z) : float :=
  SF2Prim (binary_normalize prec emax n 0%Z false).

(** The integer a number denotes, when it is finite and integral
    (both zeros denote 0). *)
Definition to_Z (x : float) : option Z :=
  match Prim2SF x with
  | S754_zero _ => Some 0%Z
  | S754_finite s m e =>
      if (0 <=? e)%Z then Some (cond_Zopp s (Zpos m * 2 ^ e))
      else if (Zpos m mod 2 ^ (- e) =? 0)%Z
           then Some (cond_Zopp s (Zpos m / 2 ^ (- e)))
           else None
  | _ => None
  end.

Definition is_neg_zero (x : float) : bool :=
  match Prim2SF x with
  | S754_zero true => true
  | _ => false
  end.

(** [Math.max(x, y)]: NaN if either is NaN, and [+0] is larger than [-0]. *)
Definition Math_max (x y : float) : float :=
  if is_nan x || is_nan y then nan
  else if x <? y then y
  else if y <? x then x
  else if is_neg_zero x then y else x.

(** [Math.min(x, y)]: NaN if either is NaN, and [-0] is smaller than [+0]. *)
Definition Math_min (x y : float) : float :=
  if is_nan x || is_nan y then nan
  else if x <? y then x
  else if y <? x then y
  else if is_neg_zero x then x else y.

(** [Math.round(x)]: the integer nearest to [x], ties towards +infinity;
    an integral [x], an infinity and NaN are returned as they are, and a
    result of zero keeps the sign of [x].  For [x = (+/-) m * 2^e] with
    [e < 0] the result is [floor (x + 1/2)], computed on integers. *)
Definition Math_round (x : float) : float :=
  match Prim2SF x with
  | S754_finite s m e =>
      if (0 <=? e)%Z then x
      else
        let n := ((2 * cond_Zopp s (Zpos m) + 2 ^ (- e)) / 2 ^ (- e + 1))%Z in
        if (n =? 0)%Z then (if s then (-0) else 0) else of_Z n
  | _ => x
  end.

(** The remainder [n % d] of two numbers: exact, with the sign of the
    dividend. *)
Definition remainder (n d : float) : float :=
  match Prim2SF n, Prim2SF d with
  | S754_nan, _ | _, S754_nan => nan
  | S754_infinity _, _ => nan
  | _, S754_zero _ => nan
  | _, S754_infinity _ => n
  | S754_zero _, _ => n
  | S754_finite sn mn en, S754_finite _ md ed =>
      let ez := Z.min en ed in
      let N := (Zpos mn * 2 ^ (en - ez))%Z in
      let D := (Zpos md * 2 ^ (ed - ez))%Z in
      SF2Prim (binary_normalize prec emax (cond_Zopp sn (N mod D)) ez sn)
  end.

Definition PI : float := 0x1.921fb54442d18p+1.

End Num.

(** ** Values and completions *)

Inductive value : Type :=
| VUndefined
| VNull
| VBool (b : bool)
| VNumber (x : float)
| VString (s : string)
| VArray (elems : list value)
| VObject (props : list (string * value)).

(** The outcome of evaluating a piece of code: a value, or a thrown one. *)
Inductive completion (A : Type) : Type :=
| Normal (a : A)
| Throw (e : value).

Arguments Normal {A} a.
Arguments Throw {A} e.

Definition bind {A B : Type} (c : completion A) (k : A -> completion B)
  : completion B :=
  match c with
  | Normal a => k a
  | Throw e => Throw e
  end.

(** [try { body } catch (e) { handler e }] *)
Definition try_catch {A : Type} (body : completion A)
  (handler : value -> completion A) : completion A :=
  match body with
  | Normal a => Normal a
  | Throw e => handler e
  end.

Notation "x <- c ;; k" := (bind c (fun x => k))
  (at level 61, c at next level, right associativity).

(** What the platform supplies and the language leaves to the implementation:
    the approximated functions of [Math], and the conversions between numbers
    and their decimal text.  The arithmetic operators and [Math.sqrt] are
    those of IEEE 754, correctly rounded to nearest. *)
Class Host : Type := {
  Math_sin : float -> float;
  Math_cos : float -> float;
  Math_atan2 : float -> float -> float;
  StringToNumber : string -> float;
  NumberToString : float -> string
}.

Module JS.

Definition typeof (v : value) : string :=
  match v with
  | VUndefined => "undefined"
  | VNull => "object"
  | VBool _ => "boolean"
  | VNumber _ => "number"
  | VString _ => "string"
  | VArray _ => "object"
  | VObject _ => "object"
  end.

Definition ToBoolean (v : value) : bool :=
  match v with
  | VUndefined | VNull => false
  | VBool b => b
  | VNumber x => negb (is_zero x || is_nan x)
  | VString s => negb (String.eqb s "")
  | VArray _ | VObject _ => true
  end.

(** [a || b] *)
Definition or_else (a b : value) : value :=
  if ToBoolean a then a else b.

Definition Array_isArray (v : value) : bool :=
  match v with
  | VArray _ => true
  | _ => false
  end.

Definition nullish (v : value) : bool :=
  match v with
  | VUndefined | VNull => true
  | _ => false
  end.

Fixpoint lookup (k : string) (props : list (string * value)) : option value :=
  match props with
  | [] => None
  | (k', v) :: rest => if String.eqb k k' then Some v else lookup k rest
  end.

Definition digit_of (c : ascii) : option nat :=
  let n := nat_of_ascii c in
  if ((48 <=? n) && (n <=? 57))%nat then Some (n - 48)%nat else None.

Fixpoint digits_value (s : string) (acc : nat) : option nat :=
  match s with
  | EmptyString => Some acc
  | String c rest =>
      match digit_of c with
      | Some d => digits_value rest (10 * acc + d)%nat
      | None => None
      end
  end.

(** The array index a property name denotes: a decimal numeral without a
    leading zero. *)
Definition index_of_key (k : string) : option nat :=
  match k with
  | EmptyString => None
  | String "0"%char EmptyString => Some 0%nat
  | String "0"%char _ => None
  | _ => digits_value k 0
  end.

Definition length_of {A : Type} (l : list A) : value :=
  VNumber (Num.of_Z (Z.of_nat (List.length l))).

(** Reading property [k] of a value that is neither [undefined] nor
    [null].  Objects are plain data; an array has its elements and its
    [length], a string its characters and its [length]; nothing else the
    service reads is found on a prototype. *)
Definition GetV (o : value) (k : string) : value :=
  match o with
  | VObject props =>
      match lookup k props with
      | Some v => v
      | None => VUndefined
      end
  | VArray elems =>
      if String.eqb k "length" then length_of elems
      else match index_of_key k with
           | Some i => nth i elems VUndefined
           | None => VUndefined
           end
  | VString s =>
      if String.eqb k "length"
      then VNumber (Num.of_Z (Z.of_nat (String.length s)))
      else match index_of_key k with
           | Some i =>
               match String.get i s with
               | Some c => VString (String c EmptyString)
               | None => VUndefined
               end
           | None => VUndefined
           end
  | _ => VUndefined
  end.

Definition TypeError (msg : string) : value :=
  VObject [("message", VString msg)].

(** [v === n] for a number [n]: [v] is a number, and equal to [n]. *)
Definition strict_equals_number (v : value) (n : float) : bool :=
  match v with
  | VNumber x => x =? n
  | _ => false
  end.

(** Whether a plain object has a property [k] of its own. *)
Definition has_own (k : string) (props : list (string * value)) : bool :=
  match lookup k props with
  | Some _ => true
  | None => false
  end.

(** What a conversion throws on an object that has no method to convert it
    with. *)
Definition not_primitive : value :=
  TypeError "Cannot convert object to primitive value".

(** [o.k]: throws on [undefined] and [null]. *)
Definition Get (o : value) (k : string) : completion value :=
  match o with
  | VUndefined =>
      Throw (TypeError ("Cannot read properties of undefined (reading '" ++ k ++ "')"))
  | VNull =>
      Throw (TypeError ("Cannot read properties of null (reading '" ++ k ++ "')"))
  | _ => Normal (GetV o k)
  end.

(** [o?.k] *)
Definition OptGet (o : value) (k : string) : value :=
  if nullish o then VUndefined else GetV o k.

(** [a[i]] for an array [a] and a number [i]: the element at an index
    that is a non-negative integer below the length, [undefined]
    elsewhere. *)
Definition Array_at (elems : list value) (i : float) : value :=
  match Num.to_Z i with
  | Some z =>
      if ((0 <=? z) && (z <? Z.of_nat (List.length elems)))%Z
      then nth (Z.to_nat z) elems VUndefined
      else VUndefined
  | None => VUndefined
  end.

(** [Array.prototype.join] with the separator [","], given the text of
    an element: the elements are converted from left to right. *)
Section ArrayJoin.
Context (text : value -> completion string).

Fixpoint Array_join (l : list value) : completion string :=
  match l with
  | [] => Normal ""
  | x :: rest =>
      sx <- text x ;;
      match rest with
      | [] => Normal sx
      | _ => sr <- Array_join rest ;; Normal (sx ++ "," ++ sr)
      end
  end.

End ArrayJoin.

Section Conversions.
Context {H : Host}.

(** [String(v)].  An object is converted by its [toString] method: that of
    [Object.prototype] writes a plain object as ["[object Object]"], that
    of [Array.prototype] joins the texts of the elements, [undefined] and
    [null] written as nothing.  A property [toString] of the object's own
    hides the method; being data it cannot be called, [valueOf] returns the
    object itself, and the conversion throws a [TypeError]. *)
Fixpoint ToString (v : value) : completion string :=
  match v with
  | VUndefined => Normal "undefined"
  | VNull => Normal "null"
  | VBool b => Normal (if b then "true" else "false")
  | VNumber x => Normal (NumberToString x)
  | VString s => Normal s
  | VArray elems =>
      Array_join (fun x => match x with
                           | VUndefined | VNull => Normal ""
                           | _ => ToString x
                           end) elems
  | VObject props =>
      if has_own "toString" props then Throw not_primitive
      else Normal "[object Object]"
  end.

(** [Number(v)].  An object is first converted to a primitive value, its
    text, which throws where [String(v)] does; the text of a plain object,
    ["[object Object]"], is no numeral and gives NaN, the text of an array
    is read as a numeral. *)
Definition ToNumber (v : value) : completion float :=
  match v with
  | VUndefined => Normal nan
  | VNull => Normal 0
  | VBool b => Normal (if b then 1 else 0)
  | VNumber x => Normal x
  | VString s => Normal (StringToNumber s)
  | VArray _ => s <- ToString v ;; Normal (StringToNumber s)
  | VObject _ => s <- ToString v ;; Normal nan
  end.

End Conversions.

End JS.

Import JS.

(** ** The service *)

Record WithinRadius : Type := {
  wr_isWithin : bool;
  wr_distance : float;
  wr_radiusMeters : float
}.

(** A stored location, as [findNearby] reads it: the pair
    [location.coordinates.coordinates = [lon, lat]] and the plain object
    [location.toObject()]. *)
Record Location : Type := {
  loc_lon : float;
  loc_lat : float;
  loc_toObject : list (string * value)
}.

(** [{ ...location.toObject(), distance }] *)
Record Nearby : Type := {
  nb_object : list (string * value);
  nb_distance : float
}.

Record VerificationResult : Type := {
  vr_passed : bool;
  vr_withinRadius : bool;
  vr_distanceMeters : value;
  vr_allowedRadius : value;
  vr_message : value
}.

Record Check : Type := {
  ck_check : string;
  ck_passed : bool;
  ck_details : string
}.

Record SpoofAssessment : Type := {
  sa_passed : bool;
  sa_checks : list Check;
  sa_riskScore : float
}.

(** [Array.prototype.sort(comparefn)] is stable, and with a consistent
    comparator its result is determined; it is modelled by the stable
    insertion sort.  [x] moves behind [y] only where [comparefn(x, y) > 0]. *)
Section ArraySort.
Context {A : Type} (comparefn : A -> A -> float).

Fixpoint sort_insert (x : A) (l : list A) : list A :=
  match l with
  | [] => [x]
  | y :: rest =>
      if 0 <? comparefn x y then y :: sort_insert x rest else x :: l
  end.

Fixpoint Array_sort (l : list A) : list A :=
  match l with
  | [] => []
  | x :: rest => sort_insert x (Array_sort rest)
  end.
End ArraySort.

Section GeolocationService.
Context {H : Host}.

Definition toRadians (degrees : float) : float :=
  degrees * (Num.PI / 180).

Definition calculateDistance (lat1 lon1 lat2 lon2 : float) : float :=
  let R := 6371e3 in
  let phi1 := toRadians lat1 in
  let phi2 := toRadians lat2 in
  let dphi := toRadians (lat2 - lat1) in
  let dlambda := toRadians (lon2 - lon1) in
  let a := Math_sin (dphi / 2) * Math_sin (dphi / 2) +
           Math_cos phi1 * Math_cos phi2 *
           Math_sin (dlambda / 2) * Math_sin (dlambda / 2) in
  let c := 2 * Math_atan2 (sqrt a) (sqrt (1 - a)) in
  R * c.

Definition isWithinRadius
  (userLat userLon targetLat targetLon radiusMeters : float) : WithinRadius :=
  let distance := calculateDistance userLat userLon targetLat targetLon in
  {| wr_isWithin := distance <=? radiusMeters;
     wr_distance := Num.Math_round distance;
     wr_radiusMeters := radiusMeters |}.

Definition getDirection (bearing : float) : value :=
  let directions :=
    [VString "N"; VString "NE"; VString "E"; VString "SE";
     VString "S"; VString "SW"; VString "W"; VString "NW"] in
  let index := Num.remainder (Num.Math_round (bearing / 45)) 8 in
  Array_at directions index.

(** The comparisons follow the two [typeof] tests behind [&&]: they are
    made on numbers only. *)
Definition isValidCoordinates (lat lon : value) : bool :=
  String.eqb (typeof lat) "number" &&
  String.eqb (typeof lon) "number" &&
  match lat, lon with
  | VNumber lat, VNumber lon =>
      (-90 <=? lat) && (lat <=? 90) && (-180 <=? lon) && (lon <=? 180)
  | _, _ => false
  end.

Definition findNearby (userLat userLon : float) (locations : list Location)
  (maxDistanceMeters : float) : list Nearby :=
  Array_sort (fun a b => nb_distance a - nb_distance b)
    (filter (fun loc => nb_distance loc <=? maxDistanceMeters)
       (map (fun location =>
               let lon := loc_lon location in
               let lat := loc_lat location in
               let distance := calculateDistance userLat userLon lat lon in
               {| nb_object := loc_toObject location;
                  nb_distance := distance |})
          locations)).

(** The [catch] clause of [verifyLocation]. *)
Definition verifyLocation_catch (targetLocation e : value)
  : completion VerificationResult :=
  Normal
    {| vr_passed := false;
       vr_withinRadius := false;
       vr_distanceMeters := VNull;
       vr_allowedRadius := or_else (OptGet targetLocation "radiusMeters") VNull;
       vr_message :=
         or_else (OptGet e "message") (VString "Location verification failed") |}.

(** The [try] block of [verifyLocation].  [Number] may throw, at the
    radius and at either coordinate of the target; the arithmetic of
    [calculateDistance] takes the numbers of its arguments. *)
Definition verifyLocation_try (submittedLocation targetLocation : value)
  : completion VerificationResult :=
  let userLat := OptGet submittedLocation "latitude" in
  let userLon := OptGet submittedLocation "longitude" in
  if negb (String.eqb (typeof userLat) "number") ||
     negb (String.eqb (typeof userLon) "number")
  then
    Normal
      {| vr_passed := false;
         vr_withinRadius := false;
         vr_distanceMeters := VNull;
         vr_allowedRadius := or_else (OptGet targetLocation "radiusMeters") VNull;
         vr_message := VString "Location data not provided" |}
  else
    let coords := OptGet targetLocation "coordinates" in
    radius <-
      ToNumber (or_else (OptGet targetLocation "radiusMeters") (VNumber 50)) ;;
    let allowedRadius := Num.Math_max 10 radius in
    notPair <-
      (if negb (Array_isArray coords) then Normal true
       else len <- Get coords "length" ;;
            Normal (negb (strict_equals_number len 2))) ;;
    if notPair : bool
    then
      Normal
        {| vr_passed := false;
           vr_withinRadius := false;
           vr_distanceMeters := VNull;
           vr_allowedRadius := VNumber allowedRadius;
           vr_message := VString "Quest target location not configured" |}
    else
      c0 <- Get coords "0" ;;
      targetLon <- ToNumber c0 ;;
      c1 <- Get coords "1" ;;
      targetLat <- ToNumber c1 ;;
      if negb (isValidCoordinates userLat userLon) ||
         negb (isValidCoordinates (VNumber targetLat) (VNumber targetLon))
      then
        Normal
          {| vr_passed := false;
             vr_withinRadius := false;
             vr_distanceMeters := VNull;
             vr_allowedRadius := VNumber allowedRadius;
             vr_message := VString "Invalid coordinates" |}
      else
        lat <- ToNumber userLat ;;
        lon <- ToNumber userLon ;;
        let distanceMeters :=
          Num.Math_round (calculateDistance lat lon targetLat targetLon) in
        let withinRadius := distanceMeters <=? allowedRadius in
        Normal
          {| vr_passed := withinRadius;
             vr_withinRadius := withinRadius;
             vr_distanceMeters := VNumber distanceMeters;
             vr_allowedRadius := VNumber allowedRadius;
             vr_message :=
               VString
                 (if withinRadius
                  then "✅ Location verified (" ++
                       NumberToString distanceMeters ++ "m away)"
                  else "❌ Location mismatch (" ++
                       NumberToString distanceMeters ++ "m away, allowed " ++
                       NumberToString allowedRadius ++ "m)") |}.

Definition verifyLocation (submittedLocation targetLocation : value)
  : completion VerificationResult :=
  try_catch (verifyLocation_try submittedLocation targetLocation)
    (verifyLocation_catch targetLocation).

Definition detectSpoofing (deviceInfo : value) : completion SpoofAssessment :=
  let checks : list Check := [] in
  let riskScore := 0 in
  if negb (ToBoolean deviceInfo)
  then Normal {| sa_passed := true; sa_checks := checks; sa_riskScore := 0 |}
  else
    isEmulator <- Get deviceInfo "isEmulator" ;;
    let '(checks, riskScore) :=
      if ToBoolean isEmulator
      then ((checks ++ [{| ck_check := "isEmulator"; ck_passed := false;
                          ck_details := "Device reports emulator" |}])%list,
            riskScore + 0.6)
      else ((checks ++ [{| ck_check := "isEmulator"; ck_passed := true;
                          ck_details := "Not an emulator" |}])%list,
            riskScore) in
    isMockLocation <- Get deviceInfo "isMockLocation" ;;
    let '(checks, riskScore) :=
      if ToBoolean isMockLocation
      then ((checks ++ [{| ck_check := "mockLocation"; ck_passed := false;
                          ck_details := "Mock location enabled" |}])%list,
            riskScore + 0.6)
      else ((checks ++ [{| ck_check := "mockLocation"; ck_passed := true;
                          ck_details := "Mock location not detected" |}])%list,
            riskScore) in
    let riskScore := Num.Math_min 1 riskScore in
    Normal {| sa_passed := riskScore <=? 0.5;
              sa_checks := checks;
              sa_riskScore := riskScore |}.

End GeolocationService.

(** ** The design document's formulas *)

Section DesignFormulas.
Context {H : Host}.

(** The allowed radius in the design document's words:
    [max(10, numeric(target.radiusMeters) or 50)]; a radius that cannot be
    converted has no numeric value. *)
Definition allowedRadius_spec (targetLocation : value) : float :=
  let n := match ToNumber (OptGet targetLocation "radiusMeters") with
           | Normal n => n
           | Throw _ => nan
           end in
  Num.Math_max 10 (if ToBoolean (VNumber n) then n else 50).

End DesignFormulas.

(** The heuristics of an assessment that fired. *)
Definition fired (a : SpoofAssessment) : nat :=
  List.length (filter (fun c => negb (ck_passed c)) (sa_checks a)).

(** ** Binary64 representations

    A finite number is [(-1)^s * m * 2^e]; the definitions below read such a
    representation as integers. *)
Module SF.

(** The number of binary digits of a mantissa. *)
Definition digits (m : positive) : Z := Zpos (digits2_pos m).

(** The integer [x * 2^(-ez)] of a finite number [x]. *)
Definition SFscale (x : spec_float) (ez : Z) : Z :=
  match x with
  | S754_finite s m e => cond_Zopp s (Zpos m * 2 ^ (e - ez))
  | _ => 0%Z
  end.

(** [x] is finite and [|x| <= 2^a]. *)
Definition SFbounded (x : spec_float) (a : Z) : Prop :=
  match x with
  | S754_zero _ => True
  | S754_finite _ m e => (e <= a)%Z /\ (Zpos m <= 2 ^ (a - e))%Z
  | _ => False
  end.

End SF.

Import SF.

(** ** What the properties ask of the host

    ECMAScript fixes [Math.sin(+0) = +0] and [Math.atan2(+0, x) = +0] for
    [x > 0]; a cosine of a finite angle lies between -1 and 1, and the sine
    is an odd function, in the implementations the service runs on. *)
Section HostLaws.
Context (H : Host).

Definition sin_zero : Prop := Math_sin 0 = 0.

Definition sin_odd : Prop := forall x : float, Math_sin (- x) = - Math_sin x.

Definition cos_bounded : Prop :=
  forall x : float, is_finite x = true ->
    (-1 <=? Math_cos x) = true /\ (Math_cos x <=? 1) = true.

Definition atan2_zero : Prop := Math_atan2 0 1 = 0.

End HostLaws.

(** The eight compass points, clockwise from north. *)
Definition compass : list value :=
  [VString "N"; VString "NE"; VString "E"; VString "SE";
   VString "S"; VString "SW"; VString "W"; VString "NW"].

(** ** A small host

    A host to run the service on: the first-order approximations of the
    trigonometric functions at 0 ([sin x ~ x], [cos x ~ 1],
    [atan2 y x ~ y / x]), which measure short distances near the equator
    well, and the decimal texts of integers. *)
Module SmallAngle.

Definition sin (x : float) : float := x.
Definition cos (x : float) : float := 1.
Definition atan2 (y x : float) : float := y / x.

Definition number_of_string (s : string) : float :=
  match s with
  | EmptyString => 0
  | _ =>
      match DecimalString.NilZero.int_of_string s with
      | Some d => Num.of_Z (Z.of_int d)
      | None => nan
      end
  end.

Definition string_of_number (x : float) : string :=
  match Num.to_Z x with
  | Some z => DecimalString.NilZero.string_of_int (Z.to_int z)
  | None => if is_infinity x then (if x <? 0 then "-Infinity" else "Infinity")
            else "NaN"
  end.

Definition host : Host :=
  {| Math_sin := sin;
     Math_cos := cos;
     Math_atan2 := atan2;
     StringToNumber := number_of_string;
     NumberToString := string_of_number |}.

End SmallAngle.

(** ** The rest of the service *)

(** [{ minLat, maxLat, minLon, maxLon }] *)
Record BoundingBox : Type := {
  bb_minLat : float;
  bb_maxLat : float;
  bb_minLon : float;
  bb_maxLon : float
}.

(** The decimal digits of a non-negative integer. *)
Definition decimal (n : Z) : string :=
  NilZero.string_of_uint (N.to_uint (Z.to_N n)).

Fixpoint zeros (k : nat) : string :=
  match k with
  | O => ""
  | S k' => String "0"%char (zeros k')
  end.

(** The text of [n / 10^f] with [f] digits after the point, as
    [Number.prototype.toFixed] builds it from the integer [n]. *)
Definition fixed_text (n : Z) (f : nat) : string :=
  let m := decimal n in
  match f with
  | O => m
  | _ =>
      let k := String.length m in
      let m := if (k <=? f)%nat then zeros (f + 1 - k) ++ m else m in
      let k := if (k <=? f)%nat then (f + 1)%nat else k in
      substring 0 (k - f) m ++ "." ++ substring (k - f) f m
  end.

Section GeolocationFormats.
Context {H : Host}.

(** [x.toFixed(f)] for [0 <= f <= 100]: a number of magnitude below
    [10^21] is written with exactly [f] digits after the point, from the
    integer [n] nearest to [x * 10^f] (the larger one of two); the others
    are written as [String(x)] writes them. *)
Definition Number_toFixed (x : float) (f : nat) : string :=
  match Prim2SF x with
  | S754_nan | S754_infinity _ => NumberToString x
  | S754_zero _ => fixed_text 0 f
  | S754_finite s m e =>
      let sign := if s then "-" else "" in
      if 1e21 <=? abs x then sign ++ NumberToString (abs x)
      else
        let scaled := (Zpos m * 10 ^ Z.of_nat f)%Z in
        let n := if (0 <=? e)%Z then (scaled * 2 ^ e)%Z
                 else ((2 * scaled + 2 ^ (- e)) / 2 ^ (- e + 1))%Z in
        sign ++ fixed_text n f
  end.

Definition toDegrees (radians : float) : float :=
  radians * (180 / Num.PI).

Definition getBoundingBox (lat lon radiusMeters : float) : BoundingBox :=
  let latDelta := radiusMeters / 111320 in
  let lonDelta := radiusMeters / (111320 * Math_cos (toRadians lat)) in
  {| bb_minLat := lat - latDelta;
     bb_maxLat := lat + latDelta;
     bb_minLon := lon - lonDelta;
     bb_maxLon := lon + lonDelta |}.

Definition getBearing (lat1 lon1 lat2 lon2 : float) : float :=
  let phi1 := toRadians lat1 in
  let phi2 := toRadians lat2 in
  let dlambda := toRadians (lon2 - lon1) in
  let y := Math_sin dlambda * Math_cos phi2 in
  let x := Math_cos phi1 * Math_sin phi2 -
           Math_sin phi1 * Math_cos phi2 * Math_cos dlambda in
  let bearing := Math_atan2 y x in
  Num.remainder (toDegrees bearing + 360) 360.

Definition formatDistance (meters : float) : string :=
  if meters <? 1000 then NumberToString (Num.Math_round meters) ++ "m"
  else Number_toFixed (meters / 1000) 1 ++ "km".

End GeolocationFormats.

(** What the verifier answers when a check fails. *)
Definition failure (allowedRadius : value) (message : string) : VerificationResult :=
  {| vr_passed := false;
     vr_withinRadius := false;
     vr_distanceMeters := VNull;
     vr_allowedRadius := allowedRadius;
     vr_message := VString message |}.

(** ** The memory vault

    The Move module [memory_vault::memory_vault]: a store of memories held
    under the module's address, and the list of memory ids each user's
    account holds.  A transaction runs an entry function on the global
    storage; it ends with the new storage, or aborts and leaves the
    storage as it was.  The calls [exists], [borrow_global],
    [borrow_global_mut] and [move_to] are read at the resource type the
    surrounding code fixes: [MemoryStore] under the module's address and
    in [initialize], [UserMemories] under a user's address. *)
Module MemoryVault.

Local Open Scope Z_scope.

Definition address : Type := Z.

Definition u64_max : Z := 18446744073709551615.

Definition E_NOT_OWNER : Z := 1.
Definition E_MEMORY_NOT_FOUND : Z := 2.
Definition E_INVALID_ADDRESS : Z := 3.
Definition E_ALREADY_INITIALIZED : Z := 4.

Record Memory : Type := {
  id : Z;
  ipfs_hash : string;
  owner : address;
  timestamp : Z
}.

Record MemoryStore : Type := {
  memories : list Memory;
  total_count : Z
}.

Record UserMemories : Type := {
  memory_ids : list Z
}.

Inductive Event : Type :=
| MemoryStoredEvent (memory_id : Z) (owner : address) (ipfs_hash : string)
    (timestamp : Z)
| MemoryTransferredEvent (memory_id : Z) (from to : address).

(** The global storage: the resources of each kind by address, the events
    emitted so far, and the chain's clock. *)
Record Global : Type := {
  stores : address -> option MemoryStore;
  users : address -> option UserMemories;
  events : list Event;
  now_seconds : Z
}.

(** How the virtual machine stops a transaction other than by [abort]. *)
Inductive vm_error : Type :=
| MISSING_DATA
| ARITHMETIC_ERROR.

Inductive outcome (A : Type) : Type :=
| Done (a : A)
| Abort (code : Z)
| Failure (e : vm_error).

Arguments Done {A} a.
Arguments Abort {A} code.
Arguments Failure {A} e.

Definition and_then {A B : Type} (o : outcome A) (k : A -> outcome B) : outcome B :=
  match o with
  | Done a => k a
  | Abort code => Abort code
  | Failure e => Failure e
  end.

(** [move_to] and the write through [borrow_global_mut] *)
Definition publish {R : Type} (m : address -> option R) (a : address) (r : R)
  : address -> option R :=
  fun a' => if a' =? a then Some r else m a'.

(** [borrow_global] *)
Definition borrow_global {R : Type} (m : address -> option R) (a : address)
  : outcome R :=
  match m a with
  | Some r => Done r
  | None => Failure MISSING_DATA
  end.

(** [exists] *)
Definition exists_at {R : Type} (m : address -> option R) (a : address) : bool :=
  match m a with
  | Some _ => true
  | None => false
  end.

(** [x + 1] on [u64] *)
Definition add_one (x : Z) : outcome Z :=
  if x + 1 <=? u64_max then Done (x + 1) else Failure ARITHMETIC_ERROR.

Section Functions.
(** The address the module is published under, [@memory_vault]. *)
Variable memory_vault : address.

Definition initialize (account : address) (g : Global) : outcome Global :=
  let addr := account in
  if exists_at (stores g) addr then Abort E_ALREADY_INITIALIZED
  else
    Done {| stores := publish (stores g) account
                        {| memories := []; total_count := 0 |};
            users := users g;
            events := events g;
            now_seconds := now_seconds g |}.

Definition store_memory (account : address) (ipfs_hash : string) (g : Global)
  : outcome Global :=
  let owner := account in
  and_then (borrow_global (stores g) memory_vault) (fun store =>
  and_then (add_one (total_count store)) (fun memory_id =>
    let current_time := now_seconds g in
    let memory := {| id := memory_id; ipfs_hash := ipfs_hash;
                     owner := owner; timestamp := current_time |} in
    let store := {| memories := memories store ++ [memory];
                    total_count := memory_id |} in
    let users1 := if negb (exists_at (users g) owner)
                  then publish (users g) account {| memory_ids := [] |}
                  else users g in
    and_then (borrow_global users1 owner) (fun user_memories =>
      let user_memories :=
        {| memory_ids := memory_ids user_memories ++ [memory_id] |} in
      Done {| stores := publish (stores g) memory_vault store;
              users := publish users1 owner user_memories;
              events := events g ++
                        [MemoryStoredEvent memory_id owner ipfs_hash current_time];
              now_seconds := now_seconds g |}))).

(** The loop of [transfer_memory] over the memories from index [i] on: the
    first memory with the id is given its new owner, if the sender owns
    it. *)
Fixpoint transfer_loop (memories : list Memory) (memory_id : Z)
  (sender new_owner : address) : outcome (list Memory) :=
  match memories with
  | [] => Abort E_MEMORY_NOT_FOUND
  | memory :: rest =>
      if id memory =? memory_id then
        if owner memory =? sender
        then Done ({| id := id memory; ipfs_hash := ipfs_hash memory;
                      owner := new_owner; timestamp := timestamp memory |} :: rest)
        else Abort E_NOT_OWNER
      else
        and_then (transfer_loop rest memory_id sender new_owner) (fun rest' =>
          Done (memory :: rest'))
  end.

Definition transfer_memory (account : address) (memory_id : Z)
  (new_owner : address) (g : Global) : outcome Global :=
  let sender := account in
  and_then (borrow_global (stores g) memory_vault) (fun store =>
  and_then (transfer_loop (memories store) memory_id sender new_owner)
    (fun memories' =>
       Done {| stores := publish (stores g) memory_vault
                           {| memories := memories';
                              total_count := total_count store |};
               users := users g;
               events := events g ++
                         [MemoryTransferredEvent memory_id sender new_owner];
               now_seconds := now_seconds g |})).

(** The loop of the view functions: the first memory with the id. *)
Fixpoint find_memory (memories : list Memory) (memory_id : Z) : option Memory :=
  match memories with
  | [] => None
  | memory :: rest =>
      if id memory =? memory_id then Some memory else find_memory rest memory_id
  end.

Definition get_memory (memory_id : Z) (g : Global)
  : outcome (string * address * Z) :=
  and_then (borrow_global (stores g) memory_vault) (fun store =>
    match find_memory (memories store) memory_id with
    | Some memory => Done (ipfs_hash memory, owner memory, timestamp memory)
    | None => Abort E_MEMORY_NOT_FOUND
    end).

Definition get_total_memories (g : Global) : outcome Z :=
  and_then (borrow_global (stores g) memory_vault) (fun store =>
    Done (total_count store)).

Definition verify_ownership (memory_id : Z) (owner_ : address) (g : Global)
  : outcome bool :=
  and_then (borrow_global (stores g) memory_vault) (fun store =>
    match find_memory (memories store) memory_id with
    | Some memory => Done (owner memory =? owner_)
    | None => Done false
    end).

Definition get_user_memory_count (user : address) (g : Global) : outcome Z :=
  if negb (exists_at (users g) user) then Done 0
  else
    and_then (borrow_global (users g) user) (fun user_memories =>
      Done (Z.of_nat (List.length (memory_ids user_memories)))).

End Functions.

(** The storage in which the module's address holds the memories [ms],
    and no user holds a list yet. *)
Definition vault_with (memory_vault : address) (ms : list Memory) (now : Z)
  : Global :=
  {| stores := publish (fun _ => None) memory_vault
                 {| memories := ms; total_count := Z.of_nat (List.length ms) |};
     users := fun _ => None;
     events := [];
     now_seconds := now |}.

(** The ids of the stored memories are 1, 2, ..., [total_count], in the
    order the memories were stored. *)
Definition numbered (store : MemoryStore) : Prop :=
  map id (memories store) =
    map Z.of_nat (seq 1 (List.length (memories store))) /\
  total_count store = Z.of_nat (List.length (memories store)).

End MemoryVault.

(** ** Facts about binary64 representations *)

Module SpecFloatFacts.

Local Open Scope Z_scope.

(** *** Digits and powers of two *)

Lemma digits_pos (m : positive) : 0 < digits m.
Proof. unfold digits. lia. Qed.

Lemma digits_bounds (m : positive) :
  2 ^ (digits m - 1) <= Zpos m < 2 ^ digits m.
Proof.
  unfold digits. induction m as [m IH|m IH|]; simpl digits2_pos.
  - rewrite Pos2Z.inj_succ.
    replace (Z.succ (Zpos (digits2_pos m)) - 1) with (Z.succ (Zpos (digits2_pos m) - 1)) by lia.
    rewrite !Z.pow_succ_r by lia. lia.
  - rewrite Pos2Z.inj_succ.
    replace (Z.succ (Zpos (digits2_pos m)) - 1) with (Z.succ (Zpos (digits2_pos m) - 1)) by lia.
    rewrite !Z.pow_succ_r by lia. lia.
  - simpl. lia.
Qed.

Lemma digits_le (m : positive) (k : Z) : Zpos m < 2 ^ k -> digits m <= k.
Proof.
  intros Hm. destruct (digits_bounds m) as [Hlo _].
  destruct (Z_lt_le_dec k (digits m)) as [Hk|Hk]; [|exact Hk].
  exfalso. assert (2 ^ k <= 2 ^ (digits m - 1)).
  { destruct (Z_lt_le_dec k 0) as [Hn|Hn].
    - rewrite (Z.pow_neg_r 2 k Hn). apply Z.pow_nonneg. lia.
    - apply Z.pow_le_mono_r; lia. }
  lia.
Qed.

Lemma Zdigits2_pos (m : positive) : Zdigits2 (Zpos m) = digits m.
Proof. reflexivity. Qed.

Lemma Zdigits2_le (M k : Z) : 0 <= M -> 0 <= k -> M < 2 ^ k -> Zdigits2 M <= k.
Proof.
  intros HM Hk Hlt. destruct M as [|p|p]; simpl; try lia.
  apply (digits_le p k Hlt).
Qed.

Lemma Zdigits2_nonneg (M : Z) : 0 <= Zdigits2 M.
Proof. destruct M; simpl; lia. Qed.

Lemma pow2_xO (p : positive) : 2 ^ Zpos p~0 = 2 ^ Zpos p * 2 ^ Zpos p.
Proof.
  replace (Zpos p~0) with (Zpos p + Zpos p) by lia.
  apply Z.pow_add_r; lia.
Qed.

Lemma pow2_xI (p : positive) : 2 ^ Zpos p~1 = 2 * (2 ^ Zpos p * 2 ^ Zpos p).
Proof.
  replace (Zpos p~1) with (1 + (Zpos p + Zpos p)) by lia.
  rewrite !Z.pow_add_r by lia. reflexivity.
Qed.

Lemma pow2_pos (n : Z) : 0 <= n -> 0 < 2 ^ n.
Proof. intros Hn. apply Z.pow_pos_nonneg; lia. Qed.

Lemma pos_iter_xO (m d : positive) :
  Zpos (Pos.iter xO m d) = Zpos m * 2 ^ Zpos d.
Proof.
  induction d as [|d IH] using Pos.peano_ind.
  - simpl. lia.
  - rewrite Pos.iter_succ, Pos2Z.inj_succ, Z.pow_succ_r by lia.
    change (Zpos (Pos.iter xO m d)~0) with (2 * Zpos (Pos.iter xO m d)).
    rewrite IH. ring.
Qed.

Lemma fexp_eq (e : Z) : fexp prec emax e = Z.max (e - 53) (-1074).
Proof. reflexivity. Qed.

(** *** Shifting and rounding *)

Lemma shr_1_m (r : shr_record) : 0 <= shr_m r -> shr_m (shr_1 r) = shr_m r / 2.
Proof.
  destruct r as [m rb sb]. simpl. intros Hm.
  destruct m as [|[p|p|]|p]; simpl; try reflexivity; try lia.
  - apply Z.div_unique with 1; lia.
  - apply Z.div_unique with 0; lia.
Qed.

(** Shifting right by [p] bits divides the mantissa by [2^p]. *)
Lemma shr_iter_m (p : positive) (r : shr_record) :
  0 <= shr_m r ->
  shr_m (iter_pos shr_1 p r) = shr_m r / 2 ^ Zpos p.
Proof.
  revert r. induction p as [p IH|p IH|]; intros r Hr; simpl iter_pos.
  - assert (H1 : 0 <= shr_m (shr_1 r)).
    { rewrite shr_1_m by exact Hr. apply Z.div_pos; lia. }
    assert (H2 : 0 <= shr_m (iter_pos shr_1 p (shr_1 r))).
    { rewrite IH by exact H1. apply Z.div_pos; [exact H1|apply pow2_pos; lia]. }
    rewrite IH by exact H2. rewrite IH by exact H1. rewrite shr_1_m by exact Hr.
    assert (Hp := pow2_pos (Zpos p) ltac:(lia)).
    rewrite !Z.div_div by lia.
    rewrite pow2_xI. f_equal; try ring.
  - assert (H2 : 0 <= shr_m (iter_pos shr_1 p r)).
    { rewrite IH by exact Hr. apply Z.div_pos; [exact Hr|apply pow2_pos; lia]. }
    rewrite IH by exact H2. rewrite IH by exact Hr.
    assert (Hp := pow2_pos (Zpos p) ltac:(lia)).
    rewrite !Z.div_div by lia.
    rewrite pow2_xO. reflexivity.
  - rewrite shr_1_m by exact Hr. reflexivity.
Qed.

Lemma shr_record_of_loc_m (m : Z) (l : location) : shr_m (shr_record_of_loc m l) = m.
Proof. destruct l as [|[]]; reflexivity. Qed.

(** [shr_fexp] shifts to the exponent [max E (fexp (digits M + E))]. *)
Lemma shr_fexp_spec (M E : Z) (l : location) :
  0 <= M ->
  snd (shr_fexp prec emax M E l) = Z.max E (Z.max (Zdigits2 M + E - 53) (-1074)) /\
  shr_m (fst (shr_fexp prec emax M E l)) =
    M / 2 ^ (snd (shr_fexp prec emax M E l) - E).
Proof.
  intros HM. unfold shr_fexp, shr. rewrite fexp_eq.
  destruct (Z.max (Zdigits2 M + E - 53) (-1074) - E) as [|p|p] eqn:Hn;
    simpl fst; simpl snd.
  - rewrite Z.sub_diag, Z.div_1_r.
    split; [lia|apply shr_record_of_loc_m].
  - split; [lia|].
    rewrite shr_iter_m by (rewrite shr_record_of_loc_m; exact HM).
    rewrite shr_record_of_loc_m. f_equal. f_equal. lia.
  - rewrite Z.sub_diag, Z.div_1_r.
    split; [lia|apply shr_record_of_loc_m].
Qed.

Lemma round_nearest_even_bounds (m : Z) (l : location) :
  m <= round_nearest_even m l <= m + 1.
Proof.
  destruct l as [|[]]; simpl; try lia. destruct (Z.even m); lia.
Qed.

(** Rounding a value below [2^k] gives at most [2^k], and no infinity. *)
Lemma binary_round_aux_upper (s : bool) (M E : Z) (l : location) (k : Z) :
  0 <= M -> E <= k -> M < 2 ^ (k - E) -> -1074 <= k <= 971 ->
  binary_round_aux prec emax s M E l = S754_zero s \/
  exists m e,
    binary_round_aux prec emax s M E l = S754_finite s m e /\
    e <= k /\ Zpos m <= 2 ^ (k - e).
Proof.
  intros HM HE HMk Hk. unfold binary_round_aux.
  destruct (shr_fexp_spec M E l HM) as [He1 Hm1].
  destruct (shr_fexp prec emax M E l) as [r1 e1]. simpl fst in *. simpl snd in *.
  assert (Hd : Zdigits2 M <= k - E) by (apply Zdigits2_le; lia).
  assert (Hd0 := Zdigits2_nonneg M).
  assert (He1k : E <= e1 <= k) by lia.
  assert (Hp1 := pow2_pos (e1 - E) ltac:(lia)).
  assert (Hm1lo : 0 <= shr_m r1).
  { rewrite Hm1. apply Z.div_pos; lia. }
  assert (Hm1hi : shr_m r1 < 2 ^ (k - e1)).
  { rewrite Hm1. apply Z.div_lt_upper_bound; [lia|].
    rewrite <- Z.pow_add_r by lia. replace (e1 - E + (k - e1)) with (k - E) by lia.
    exact HMk. }
  pose proof (round_nearest_even_bounds (shr_m r1) (loc_of_shr_record r1)) as Hr.
  set (m' := round_nearest_even (shr_m r1) (loc_of_shr_record r1)) in *.
  assert (Hm' : 0 <= m') by lia.
  destruct (shr_fexp_spec m' e1 loc_Exact Hm') as [He2 Hm2].
  destruct (shr_fexp prec emax m' e1 loc_Exact) as [r2 e2]. simpl fst in *. simpl snd in *.
  assert (Hd' : Zdigits2 m' <= k - e1 + 1).
  { apply Zdigits2_le; try lia.
    rewrite Z.pow_add_r by lia. change (2 ^ 1) with 2. lia. }
  assert (Hd0' := Zdigits2_nonneg m').
  assert (He2k : e1 <= e2 <= k) by lia.
  assert (Hp2 := pow2_pos (e2 - e1) ltac:(lia)).
  assert (Hm2lo : 0 <= shr_m r2).
  { rewrite Hm2. apply Z.div_pos; lia. }
  assert (Hm2hi : shr_m r2 <= 2 ^ (k - e2)).
  { rewrite Hm2. apply Z.div_le_upper_bound; [lia|].
    rewrite <- Z.pow_add_r by lia. replace (e2 - e1 + (k - e2)) with (k - e1) by lia.
    lia. }
  destruct (shr_m r2) as [|p|p] eqn:Hr2.
  - left. reflexivity.
  - right. change (emax - prec) with 971.
    destruct (Z.leb_spec e2 971) as [_|Hbad]; [|lia].
    exists p, e2. repeat split; try reflexivity; lia.
  - lia.
Qed.

(** Rounding a positive value at an exponent of the format never gives
    zero. *)
Lemma shr_fexp_pos (M E : Z) (l : location) :
  0 < M -> -1074 <= E ->
  0 < shr_m (fst (shr_fexp prec emax M E l)) /\
  -1074 <= snd (shr_fexp prec emax M E l).
Proof.
  intros HM HE. destruct (shr_fexp_spec M E l ltac:(lia)) as [He1 Hm1].
  rewrite Hm1, He1. clear He1 Hm1.
  destruct M as [|p|p]; try lia. simpl Zdigits2. fold (digits p).
  assert (Hdp := digits_pos p). destruct (digits_bounds p) as [Hlo _].
  set (e1 := Z.max E (Z.max (digits p + E - 53) (-1074))).
  split; [|lia].
  assert (Hle : e1 - E <= digits p - 1) by lia.
  assert (Hge : 0 <= e1 - E) by lia.
  assert (Hp := pow2_pos (e1 - E) Hge).
  assert (Hpow : 2 ^ (e1 - E) <= 2 ^ (digits p - 1)) by (apply Z.pow_le_mono_r; lia).
  assert (1 <= Zpos p / 2 ^ (e1 - E)) by (apply Z.div_le_lower_bound; lia).
  lia.
Qed.

Lemma binary_round_aux_nonzero (s : bool) (M : positive) (E : Z) (l : location) :
  -1074 <= E ->
  (exists m e, binary_round_aux prec emax s (Zpos M) E l = S754_finite s m e) \/
  binary_round_aux prec emax s (Zpos M) E l = S754_infinity s.
Proof.
  intros HE. unfold binary_round_aux.
  destruct (shr_fexp_pos (Zpos M) E l ltac:(lia) HE) as [Hm1 He1].
  destruct (shr_fexp prec emax (Zpos M) E l) as [r1 e1]. simpl fst in *. simpl snd in *.
  pose proof (round_nearest_even_bounds (shr_m r1) (loc_of_shr_record r1)) as Hr.
  set (m' := round_nearest_even (shr_m r1) (loc_of_shr_record r1)) in *.
  destruct (shr_fexp_pos m' e1 loc_Exact ltac:(lia) He1) as [Hm2 He2].
  destruct (shr_fexp prec emax m' e1 loc_Exact) as [r2 e2]. simpl fst in *. simpl snd in *.
  destruct (shr_m r2) as [|p|p]; try lia.
  destruct (e2 <=? emax - prec); eauto.
Qed.

Lemma shl_align_fst (m : positive) (e ez : Z) :
  ez <= e -> Zpos (fst (shl_align m e ez)) = Zpos m * 2 ^ (e - ez).
Proof.
  intros Hle. unfold shl_align.
  destruct (ez - e) as [|d|d] eqn:Hd; simpl fst.
  - replace (e - ez) with 0 by lia. lia.
  - lia.
  - rewrite pos_iter_xO. f_equal. f_equal. lia.
Qed.

Lemma shl_align_snd (m : positive) (e ez : Z) :
  snd (shl_align m e ez) = Z.min e ez.
Proof.
  unfold shl_align. destruct (ez - e) as [|d|d] eqn:Hd; simpl snd; lia.
Qed.

Lemma binary_round_nonzero (s : bool) (m : positive) (e : Z) :
  -1074 <= e ->
  (exists m' e', binary_round prec emax s m e = S754_finite s m' e') \/
  binary_round prec emax s m e = S754_infinity s.
Proof.
  intros He. unfold binary_round.
  pose proof (shl_align_snd m e (fexp prec emax (Zpos (digits2_pos m) + e))) as Hs.
  rewrite fexp_eq in Hs.
  destruct (shl_align m e _) as [mz ez]. simpl snd in Hs.
  apply binary_round_aux_nonzero. lia.
Qed.

(** *** Signs *)

Lemma SFopp_involutive (x : spec_float) : SFopp (SFopp x) = x.
Proof. destruct x as [s|s| |s m e]; simpl; rewrite ?negb_involutive; reflexivity. Qed.

Lemma xorb_negb_l (a b : bool) : xorb (negb a) b = negb (xorb a b).
Proof. destruct a, b; reflexivity. Qed.

(** The sign of a rounded value is the one asked for. *)
Lemma binary_round_aux_opp (s : bool) (M E : Z) (l : location) :
  binary_round_aux prec emax (negb s) M E l =
  SFopp (binary_round_aux prec emax s M E l).
Proof.
  unfold binary_round_aux.
  destruct (shr_fexp prec emax M E l) as [r1 e1].
  destruct (shr_fexp prec emax _ e1 loc_Exact) as [r2 e2].
  destruct (shr_m r2); try reflexivity.
  destruct (e2 <=? emax - prec); reflexivity.
Qed.

Lemma binary_round_opp (s : bool) (m : positive) (e : Z) :
  binary_round prec emax (negb s) m e = SFopp (binary_round prec emax s m e).
Proof.
  unfold binary_round. destruct (shl_align m e _) as [mz ez].
  apply binary_round_aux_opp.
Qed.

Lemma binary_normalize_opp (m e : Z) :
  m <> 0 ->
  binary_normalize prec emax (- m) e false =
  SFopp (binary_normalize prec emax m e false).
Proof.
  destruct m as [|p|p]; intros Hm; simpl.
  - now elim Hm.
  - apply (binary_round_opp false p e).
  - pose proof (binary_round_opp false p e) as Ho. simpl negb in Ho.
    rewrite Ho, SFopp_involutive. reflexivity.
Qed.

Lemma SFmul_opp_l (x y : spec_float) :
  SFmul prec emax (SFopp x) y = SFopp (SFmul prec emax x y).
Proof.
  destruct x as [sx|sx| |sx mx ex], y as [sy|sy| |sy my ey]; simpl;
    rewrite ?xorb_negb_l; try reflexivity.
  apply binary_round_aux_opp.
Qed.

Lemma SFmul_comm (x y : spec_float) :
  SFmul prec emax x y = SFmul prec emax y x.
Proof.
  destruct x as [sx|sx| |sx mx ex], y as [sy|sy| |sy my ey]; simpl;
    rewrite ?(xorb_comm sx sy); try reflexivity.
  rewrite (Pos.mul_comm mx my), (Z.add_comm ex ey). reflexivity.
Qed.

Lemma SFdiv_opp_l (x y : spec_float) :
  SFdiv prec emax (SFopp x) y = SFopp (SFdiv prec emax x y).
Proof.
  destruct x as [sx|sx| |sx mx ex], y as [sy|sy| |sy my ey]; simpl;
    rewrite ?xorb_negb_l; try reflexivity.
  destruct (SFdiv_core_binary prec emax (Zpos mx) ex (Zpos my) ey) as [[mz ez] lz].
  apply binary_round_aux_opp.
Qed.

(** Swapping the operands of a subtraction negates the difference, except
    where the difference is the zero [+0] both ways. *)
Lemma SFsub_swap (x y : spec_float) :
  SFsub prec emax y x = SFopp (SFsub prec emax x y) \/
  (SFsub prec emax y x = S754_zero false /\ SFsub prec emax x y = S754_zero false).
Proof.
  destruct x as [sx|sx| |sx mx ex], y as [sy|sy| |sy my ey]; simpl;
    try (destruct sx, sy; simpl; auto; fail);
    try (left; rewrite ?negb_involutive; reflexivity).
  rewrite (Z.min_comm ey ex).
  set (a := cond_Zopp sx (Zpos (fst (shl_align mx ex (Z.min ex ey))))).
  set (b := cond_Zopp sy (Zpos (fst (shl_align my ey (Z.min ex ey))))).
  destruct (Z.eq_dec (a - b) 0) as [Hz|Hnz].
  - right. replace (b - a) with 0 by lia. rewrite Hz. auto.
  - left. replace (b - a) with (- (a - b)) by lia.
    apply binary_normalize_opp. exact Hnz.
Qed.

(** *** The order *)

Lemma SFcompare_antisym (x y : spec_float) :
  SFcompare y x = option_map CompOpp (SFcompare x y).
Proof.
  destruct x as [sx|sx| |sx mx ex], y as [sy|sy| |sy my ey]; simpl;
    try destruct sx; try destruct sy; try reflexivity;
    rewrite (Z.compare_antisym ex ey);
    destruct (ex ?= ey)%Z; simpl; try reflexivity;
    rewrite (Pos.compare_cont_antisym mx my Eq); simpl;
    try rewrite CompOpp_involutive; reflexivity.
Qed.

Lemma SFcompare_refl (x : spec_float) :
  x <> S754_nan -> SFcompare x x = Some Eq.
Proof.
  destruct x as [s|s| |s m e]; simpl; intros Hx;
    try destruct s; try reflexivity; try (now elim Hx);
    rewrite Z.compare_refl, Pos.compare_cont_refl; reflexivity.
Qed.

Lemma SFcompare_some (x y : spec_float) :
  x <> S754_nan -> y <> S754_nan -> exists c, SFcompare x y = Some c.
Proof.
  destruct x as [sx|sx| |sx mx ex], y as [sy|sy| |sy my ey]; simpl;
    intros Hx Hy; try (now elim Hx); try (now elim Hy); eauto.
Qed.

Lemma SFcompare_eq_compat (x d y : spec_float) :
  SFeqb x d = true -> SFcompare y x = SFcompare y d.
Proof.
  unfold SFeqb.
  destruct x as [sx|sx| |sx mx ex], d as [sd|sd| |sd md ed];
    try (destruct sx; simpl; discriminate); try (destruct sd; simpl; discriminate);
    try (destruct sx, sd; simpl; discriminate); try (simpl; discriminate).
  - intros _. destruct y as [sy|sy| |sy my ey]; reflexivity.
  - destruct sx, sd; simpl; try discriminate; intros _; reflexivity.
  - intros Hc.
    assert (Hsame : sx = sd /\ ex = ed /\ mx = md).
    { simpl in Hc.
      assert (Hem : (ex ?= ed)%Z = Eq /\ Pos.compare_cont Eq mx md = Eq /\ sx = sd).
      { destruct sx, sd; try discriminate;
          destruct (ex ?= ed)%Z; try discriminate;
          destruct (Pos.compare_cont Eq mx md); try discriminate; auto. }
      destruct Hem as (He & Hm & Hs).
      apply Z.compare_eq in He. apply Pos.compare_eq in Hm. auto. }
    destruct Hsame as (-> & -> & ->). reflexivity.
Qed.

(** The order of the numbers is transitive. *)
Lemma SFleb_trans (x y z : spec_float) :
  SFleb x y = true -> SFleb y z = true -> SFleb x z = true.
Proof.
  unfold SFleb.
  destruct x as [sx|sx| |sx mx ex], y as [sy|sy| |sy my ey], z as [sz|sz| |sz mz ez];
    simpl; try discriminate; try reflexivity;
    try (destruct sx; simpl; try discriminate; try reflexivity);
    try (destruct sy; simpl; try discriminate; try reflexivity);
    try (destruct sz; simpl; try discriminate; try reflexivity);
    try (intros; reflexivity); try (intros; discriminate).
  all: repeat match goal with
       | |- context [Pos.compare_cont Eq ?a ?b] =>
           change (Pos.compare_cont Eq a b) with (Pos.compare a b)
       end.
  all: destruct (Z.compare_spec ex ey); destruct (Z.compare_spec ey ez);
       destruct (Z.compare_spec ex ez); simpl; try discriminate; try reflexivity; try lia.
  all: destruct (Pos.compare_spec mx my);
       destruct (Pos.compare_spec my mz);
       destruct (Pos.compare_spec mx mz); simpl;
       try discriminate; try reflexivity; try lia.
Qed.

Lemma leb_zero_finite (s : bool) (m : positive) (e : Z) :
  SFleb (S754_zero false) (S754_finite s m e) = true -> s = false.
Proof. destruct s; simpl; intros Hs; [discriminate|reflexivity]. Qed.

(** A finite number of the format has an exponent between -1074 and 971
    and at most 53 digits, exactly 53 above the smallest exponent. *)
Lemma valid_finite_inv (s : bool) (m : positive) (e : Z) :
  valid_binary (S754_finite s m e) = true ->
  -1074 <= e <= 971 /\ digits m <= 53 /\ (-1074 < e -> digits m = 53).
Proof.
  unfold SpecFloat.valid_binary, bounded, canonical_mantissa.
  rewrite andb_true_iff, Z.eqb_eq, Z.leb_le, fexp_eq. fold (digits m).
  change (emax - prec) with 971. lia.
Qed.

Lemma valid_finite_bounds (s : bool) (m : positive) (e : Z) :
  valid_binary (S754_finite s m e) = true ->
  Zpos m < 2 ^ 53 /\ (-1074 < e -> 2 ^ 52 <= Zpos m).
Proof.
  intros Hv. destruct (valid_finite_inv s m e Hv) as (He & Hd & Hn).
  destruct (digits_bounds m) as [Hlo Hhi]. assert (Hdp := digits_pos m).
  split.
  - apply Z.lt_le_trans with (1 := Hhi). apply Z.pow_le_mono_r; lia.
  - intros Hne. rewrite (Hn Hne) in Hlo. exact Hlo.
Qed.

(** On positive numbers of the format the comparison, which reads the
    exponents first, is the comparison of the values. *)
Lemma SFcompare_finite_pos (mx : positive) (ex : Z) (my : positive) (ey : Z) :
  valid_binary (S754_finite false mx ex) = true ->
  valid_binary (S754_finite false my ey) = true ->
  SFcompare (S754_finite false mx ex) (S754_finite false my ey) =
  Some (Zpos mx * 2 ^ (ex - Z.min ex ey) ?= Zpos my * 2 ^ (ey - Z.min ex ey)).
Proof.
  intros Hx Hy. simpl SFcompare. f_equal.
  destruct (valid_finite_inv _ _ _ Hx) as (Hex & _ & _).
  destruct (valid_finite_inv _ _ _ Hy) as (Hey & _ & _).
  destruct (valid_finite_bounds _ _ _ Hx) as (Hxhi & Hxlo).
  destruct (valid_finite_bounds _ _ _ Hy) as (Hyhi & Hylo).
  change (2 ^ 53) with (2 * 2 ^ 52) in *.
  destruct (Z.compare_spec ex ey) as [Heq|Hlt|Hgt].
  - subst ey. rewrite Z.min_id, Z.sub_diag, Z.pow_0_r, !Z.mul_1_r. reflexivity.
  - rewrite Z.min_l by lia. rewrite Z.sub_diag, Z.pow_0_r, Z.mul_1_r.
    symmetry. apply Z.compare_lt_iff.
    assert (Hp : 2 ^ 1 <= 2 ^ (ey - ex)) by (apply Z.pow_le_mono_r; lia).
    change (2 ^ 1) with 2 in Hp. specialize (Hylo ltac:(lia)). nia.
  - rewrite Z.min_r by lia. rewrite Z.sub_diag, Z.pow_0_r, Z.mul_1_r.
    symmetry. apply Z.compare_gt_iff.
    assert (Hp : 2 ^ 1 <= 2 ^ (ex - ey)) by (apply Z.pow_le_mono_r; lia).
    change (2 ^ 1) with 2 in Hp. specialize (Hxlo ltac:(lia)). nia.
Qed.

Lemma SFcompare_finite_neg (mx : positive) (ex : Z) (my : positive) (ey : Z) :
  SFcompare (S754_finite true mx ex) (S754_finite true my ey) =
  SFcompare (S754_finite false my ey) (S754_finite false mx ex).
Proof.
  simpl. f_equal. rewrite (Z.compare_antisym ex ey).
  destruct (ex ?= ey); simpl; try reflexivity.
  rewrite (Pos.compare_cont_antisym mx my Eq). reflexivity.
Qed.

(** The comparison of two finite numbers of the format is the comparison
    of their values, scaled to the smaller exponent. *)
Lemma SFcompare_finite (sx : bool) (mx : positive) (ex : Z)
  (sy : bool) (my : positive) (ey : Z) :
  valid_binary (S754_finite sx mx ex) = true ->
  valid_binary (S754_finite sy my ey) = true ->
  SFcompare (S754_finite sx mx ex) (S754_finite sy my ey) =
  Some (SFscale (S754_finite sx mx ex) (Z.min ex ey) ?=
        SFscale (S754_finite sy my ey) (Z.min ex ey)).
Proof.
  intros Hx Hy.
  assert (Hpx : 0 < Zpos mx * 2 ^ (ex - Z.min ex ey)).
  { apply Z.mul_pos_pos; [lia|apply pow2_pos; lia]. }
  assert (Hpy : 0 < Zpos my * 2 ^ (ey - Z.min ex ey)).
  { apply Z.mul_pos_pos; [lia|apply pow2_pos; lia]. }
  destruct sx, sy.
  - rewrite SFcompare_finite_neg.
    rewrite (SFcompare_finite_pos my ey mx ex Hy Hx).
    rewrite (Z.min_comm ey ex). unfold SFscale, cond_Zopp.
    rewrite Z.compare_opp. reflexivity.
  - unfold SFscale, cond_Zopp. simpl SFcompare. f_equal.
    symmetry. apply Z.compare_lt_iff. lia.
  - unfold SFscale, cond_Zopp. simpl SFcompare. f_equal.
    symmetry. apply Z.compare_gt_iff. lia.
  - apply (SFcompare_finite_pos mx ex my ey Hx Hy).
Qed.

(** The difference [x - y] is positive exactly where [y < x]. *)
Lemma SFsub_positive (x y : spec_float) :
  valid_binary x = true -> valid_binary y = true ->
  SFltb (S754_zero false) (SFsub prec emax x y) = SFltb y x.
Proof.
  intros Hx Hy.
  destruct x as [sx|sx| |sx mx ex], y as [sy|sy| |sy my ey];
    try (destruct sx, sy; reflexivity); try (destruct sx; reflexivity);
    try (destruct sy; reflexivity); try reflexivity.
  unfold SFltb at 2. rewrite (SFcompare_finite sy my ey sx mx ex Hy Hx).
  rewrite (Z.min_comm ey ex). unfold SFsub, SFscale.
  rewrite !shl_align_fst by lia.
  set (X := cond_Zopp sx (Zpos mx * 2 ^ (ex - Z.min ex ey))).
  set (Y := cond_Zopp sy (Zpos my * 2 ^ (ey - Z.min ex ey))).
  destruct (valid_finite_inv _ _ _ Hx) as (Hex & _).
  destruct (valid_finite_inv _ _ _ Hy) as (Hey & _).
  destruct (X - Y) as [|d|d] eqn:HD; simpl binary_normalize.
  - replace (Y ?= X) with Eq by (symmetry; apply Z.compare_eq_iff; lia).
    reflexivity.
  - replace (Y ?= X) with Lt by (symmetry; apply Z.compare_lt_iff; lia).
    destruct (binary_round_nonzero false d (Z.min ex ey) ltac:(lia))
      as [(m' & e' & ->)| ->]; reflexivity.
  - replace (Y ?= X) with Gt by (symmetry; apply Z.compare_gt_iff; lia).
    destruct (binary_round_nonzero true d (Z.min ex ey) ltac:(lia))
      as [(m' & e' & ->)| ->]; reflexivity.
Qed.

(** *** Bounded numbers *)

(** The product of two bounded numbers is bounded, hence finite. *)
Lemma SFmul_bounded (x y : spec_float) (a b : Z) :
  SFbounded x a -> SFbounded y b -> (-1075 <= a + b <= 970)%Z ->
  SFbounded (SFmul prec emax x y) (a + b + 1).
Proof.
  intros Hx Hy Hab.
  destruct x as [sx|sx| |sx mx ex], y as [sy|sy| |sy my ey];
    simpl in Hx, Hy; try contradiction; try exact I.
  destruct Hx as [Hex Hmx]. destruct Hy as [Hey Hmy]. simpl SFmul.
  destruct (binary_round_aux_upper (xorb sx sy) (Zpos (mx * my)) (ex + ey)
              loc_Exact (a + b + 1)) as [Hz|(m & e & Hf & He & Hm)]; try lia.
  - rewrite Pos2Z.inj_mul.
    replace (a + b + 1 - (ex + ey))%Z with (1 + ((a - ex) + (b - ey)))%Z by lia.
    rewrite !Z.pow_add_r by lia. change (2 ^ 1)%Z with 2%Z.
    assert (0 < 2 ^ (a - ex))%Z by (apply pow2_pos; lia).
    assert (0 < 2 ^ (b - ey))%Z by (apply pow2_pos; lia).
    nia.
  - rewrite Hz. exact I.
  - rewrite Hf. simpl. auto.
Qed.

End SpecFloatFacts.

(** ** Facts about binary64 numbers *)

Module FloatFacts.

Import SpecFloatFacts.

(** *** Comparisons *)

Lemma is_nan_spec (x : float) :
  is_nan x = true <-> Prim2SF x = S754_nan.
Proof.
  unfold is_nan. rewrite FloatAxioms.eqb_spec. unfold SFeqb. split.
  - intros Hn. destruct (Prim2SF x) eqn:E; try reflexivity;
      rewrite SFcompare_refl in Hn by discriminate; discriminate.
  - intros ->. reflexivity.
Qed.

Lemma not_nan_spec (x : float) :
  is_nan x = false <-> Prim2SF x <> S754_nan.
Proof.
  rewrite <- is_nan_spec. destruct (is_nan x); split; congruence.
Qed.

(** [x < y] excludes [y <= x]. *)
Lemma ltb_not_leb (x y : float) :
  (x <? y) = true -> (y <=? x) = false.
Proof.
  rewrite FloatAxioms.ltb_spec, FloatAxioms.leb_spec. unfold SFltb, SFleb.
  rewrite (SFcompare_antisym (Prim2SF x) (Prim2SF y)).
  destruct (SFcompare (Prim2SF x) (Prim2SF y)) as [[]|]; simpl; congruence.
Qed.

(** Two numbers are comparable: where [x < y] fails, [y <= x] holds. *)
Lemma not_ltb_leb (x y : float) :
  is_nan x = false -> is_nan y = false ->
  (x <? y) = false -> (y <=? x) = true.
Proof.
  rewrite !not_nan_spec, FloatAxioms.ltb_spec, FloatAxioms.leb_spec. unfold SFltb, SFleb.
  intros Hx Hy. rewrite (SFcompare_antisym (Prim2SF x) (Prim2SF y)).
  destruct (SFcompare_some _ _ Hx Hy) as [c ->].
  destruct c; simpl; congruence.
Qed.

Lemma ltb_leb (x y : float) : (x <? y) = true -> (x <=? y) = true.
Proof.
  rewrite FloatAxioms.ltb_spec, FloatAxioms.leb_spec. unfold SFltb, SFleb.
  destruct (SFcompare (Prim2SF x) (Prim2SF y)) as [[]|]; congruence.
Qed.


Lemma eqb_refl (x : float) : is_nan x = false -> (x =? x) = true.
Proof.
  rewrite not_nan_spec, FloatAxioms.eqb_spec. unfold SFeqb. intros Hx.
  now rewrite SFcompare_refl.
Qed.

Lemma leb_not_nan (x y : float) :
  (x <=? y) = true -> is_nan x = false /\ is_nan y = false.
Proof.
  rewrite !not_nan_spec, FloatAxioms.leb_spec. unfold SFleb.
  destruct (Prim2SF x), (Prim2SF y); simpl; intros Hc;
    split; congruence.
Qed.


Lemma leb_trans (x y z : float) :
  (x <=? y) = true -> (y <=? z) = true -> (x <=? z) = true.
Proof. rewrite !FloatAxioms.leb_spec. apply SFleb_trans. Qed.

Lemma eqb_ltb_compat (x d y : float) :
  (x =? d) = true -> (y <? x) = (y <? d).
Proof.
  rewrite FloatAxioms.eqb_spec, !FloatAxioms.ltb_spec. unfold SFltb.
  intros Hxd. now rewrite (SFcompare_eq_compat _ _ _ Hxd).
Qed.


Lemma eqb_not_ltb (x y : float) : (x =? y) = true -> (x <? y) = false.
Proof.
  rewrite FloatAxioms.eqb_spec, FloatAxioms.ltb_spec. unfold SFeqb, SFltb.
  destruct (SFcompare (Prim2SF x) (Prim2SF y)) as [[]|]; congruence.
Qed.

(** A number is finite when it is neither NaN nor an infinity. *)
Lemma is_finite_spec (x : float) :
  is_finite x = true <->
  (exists s, Prim2SF x = S754_zero s) \/ (exists s m e, Prim2SF x = S754_finite s m e).
Proof.
  unfold is_finite, is_infinity, is_nan.
  rewrite !FloatAxioms.eqb_spec, abs_spec. unfold SFeqb.
  change (Prim2SF infinity) with (S754_infinity false).
  destruct (Prim2SF x) as [s|s| |s m e] eqn:E; simpl.
  - split; eauto.
  - destruct s; simpl;
      (split; [discriminate|]; intros [[s' H]|(s' & m & e & H)]; discriminate).
  - split; [discriminate|]. intros [[s' H]|(s' & m & e & H)]; discriminate.
  - destruct s; rewrite Z.compare_refl, Pos.compare_cont_refl; simpl;
      split; eauto 6.
Qed.

(** *** Arithmetic *)

Lemma Prim2SF_zero : Prim2SF 0 = S754_zero false.
Proof. reflexivity. Qed.

(** A difference [x - y] is positive exactly where [y < x]: the comparator
    [a - b] of a sort orders numbers as [<] does. *)
Lemma sub_positive (x y : float) : (0 <? x - y) = (y <? x).
Proof.
  rewrite !FloatAxioms.ltb_spec, sub_spec, Prim2SF_zero.
  apply SFsub_positive; apply Prim2SF_valid.
Qed.

(** A finite number minus itself is [+0]. *)
Lemma sub_diag (x : float) : is_finite x = true -> x - x = 0.
Proof.
  rewrite is_finite_spec. intros Hx. apply Prim2SF_inj.
  rewrite sub_spec, Prim2SF_zero.
  destruct Hx as [[s ->]|(s & m & e & ->)]; simpl.
  - destruct s; reflexivity.
  - rewrite Z.sub_diag. reflexivity.
Qed.

(** Swapping the operands of a subtraction negates the difference, except
    where it is [+0] both ways. *)
Lemma sub_swap (x y : float) :
  y - x = - (x - y) \/ (y - x = 0 /\ x - y = 0).
Proof.
  destruct (SFsub_swap (Prim2SF x) (Prim2SF y)) as [Hs|[Hs1 Hs2]].
  - left. apply Prim2SF_inj. rewrite opp_spec, !sub_spec. exact Hs.
  - right. split; apply Prim2SF_inj; rewrite sub_spec, Prim2SF_zero; assumption.
Qed.

Lemma opp_involutive (x : float) : - - x = x.
Proof. apply Prim2SF_inj. rewrite !opp_spec. apply SFopp_involutive. Qed.

Lemma mul_opp_l (x y : float) : (- x) * y = - (x * y).
Proof. apply Prim2SF_inj. rewrite opp_spec, !mul_spec, opp_spec. apply SFmul_opp_l. Qed.

Lemma mul_comm (x y : float) : x * y = y * x.
Proof. apply Prim2SF_inj. rewrite !mul_spec. apply SFmul_comm. Qed.

Lemma mul_opp_r (x y : float) : x * (- y) = - (x * y).
Proof. rewrite (mul_comm x (- y)), mul_opp_l, (mul_comm y x). reflexivity. Qed.

Lemma mul_opp_opp (x y : float) : (- x) * (- y) = x * y.
Proof. rewrite mul_opp_l, mul_opp_r. apply opp_involutive. Qed.

Lemma div_opp_l (x y : float) : (- x) / y = - (x / y).
Proof. apply Prim2SF_inj. rewrite opp_spec, !div_spec, opp_spec. apply SFdiv_opp_l. Qed.

(** *** Bounds *)

Lemma SFbounded_finite (x : float) (a : Z) :
  SFbounded (Prim2SF x) a -> is_finite x = true.
Proof.
  intros Hb. apply is_finite_spec.
  destruct (Prim2SF x) as [s|s| |s m e]; simpl in Hb; try contradiction; eauto 6.
Qed.

(** A number between [-c] and [c] is bounded by the power of two above
    [c]. *)
Lemma interval_bounded (x c : float) (mc : positive) (ec : Z) :
  Prim2SF c = S754_finite false mc ec ->
  (- c <=? x) = true -> (x <=? c) = true ->
  SFbounded (Prim2SF x) (ec + 53).
Proof.
  intros Hc. rewrite !FloatAxioms.leb_spec, opp_spec, Hc. unfold SFleb. simpl SFopp.
  pose proof (Prim2SF_valid x) as Hv. pose proof (Prim2SF_valid c) as Hvc.
  rewrite Hc in Hvc.
  destruct (Prim2SF x) as [s|s| |s m e] eqn:E.
  - intros _ _. exact I.
  - destruct s; simpl; discriminate.
  - simpl; discriminate.
  - intros Hlo Hhi.
    assert (Hcmp : SFcompare (S754_finite false m e) (S754_finite false mc ec)
                   <> Some Gt).
    { destruct s.
      - rewrite <- SFcompare_finite_neg.
        destruct (SFcompare (S754_finite true mc ec) (S754_finite true m e))
          as [[]|]; congruence.
      - destruct (SFcompare (S754_finite false m e) (S754_finite false mc ec))
          as [[]|]; congruence. }
    assert (Hvp : valid_binary (S754_finite false m e) = true) by exact Hv.
    rewrite (SFcompare_finite_pos m e mc ec Hvp Hvc) in Hcmp.
    assert (Hle : (Zpos m * 2 ^ (e - Z.min e ec) <= Zpos mc * 2 ^ (ec - Z.min e ec))%Z).
    { apply Z.compare_le_iff. congruence. }
    destruct (valid_finite_bounds _ _ _ Hvc) as (Hmc & _).
    clear Hcmp Hlo Hhi. simpl.
    destruct (Z_le_gt_dec e ec) as [He|He].
    + rewrite Z.min_l in Hle by lia.
      rewrite Z.sub_diag, Z.pow_0_r, Z.mul_1_r in Hle.
      split; [lia|].
      replace (ec + 53 - e)%Z with (53 + (ec - e))%Z by lia.
      rewrite Z.pow_add_r by lia.
      assert (0 < 2 ^ (ec - e))%Z by (apply pow2_pos; lia). nia.
    + rewrite Z.min_r in Hle by lia.
      rewrite Z.sub_diag, Z.pow_0_r, Z.mul_1_r in Hle.
      assert (Hp : (0 < 2 ^ (e - ec))%Z) by (apply pow2_pos; lia).
      assert (Hlt : (2 ^ (e - ec) < 2 ^ 53)%Z) by nia.
      assert (He53 : (e - ec < 53)%Z).
      { apply (Z.pow_lt_mono_r_iff 2); lia. }
      split; [lia|].
      assert (Hsplit : (2 ^ 53 = 2 ^ (ec + 53 - e) * 2 ^ (e - ec))%Z).
      { rewrite <- Z.pow_add_r by lia. f_equal. lia. }
      assert (0 < 2 ^ (ec + 53 - e))%Z by (apply pow2_pos; lia).
      nia.
Qed.

Lemma mul_bounded (x y : float) (a b : Z) :
  SFbounded (Prim2SF x) a -> SFbounded (Prim2SF y) b ->
  (-1075 <= a + b <= 970)%Z ->
  SFbounded (Prim2SF (x * y)) (a + b + 1).
Proof. intros Hx Hy Hab. rewrite mul_spec. now apply SFmul_bounded. Qed.

(** A finite number times [+0] is a zero. *)
Lemma mul_finite_zero (x : float) :
  is_finite x = true -> x * 0 = 0 \/ x * 0 = -0.
Proof.
  rewrite is_finite_spec.
  intros [[s Hx]|(s & m & e & Hx)]; destruct s;
    [right|left|right|left]; apply Prim2SF_inj; rewrite mul_spec, Hx; reflexivity.
Qed.

(** Dividing a bearing of at most 360 degrees by 45 gives at most 8. *)
Lemma div_45_bound (x : float) :
  (0 <=? x) = true -> (x <=? 360) = true ->
  (exists s, Prim2SF (x / 45) = S754_zero s) \/
  (exists m e, Prim2SF (x / 45) = S754_finite false m e /\
     (e <= 3)%Z /\ (Zpos m <= 2 ^ (3 - e))%Z).
Proof.
  rewrite !FloatAxioms.leb_spec, Prim2SF_zero. intros Hlo Hhi.
  pose proof (Prim2SF_valid x) as Hv.
  destruct (Prim2SF x) as [s|s| |s m e] eqn:E.
  - left. exists s. rewrite div_spec, E. destruct s; reflexivity.
  - destruct s; simpl in *; discriminate.
  - simpl in *; discriminate.
  - apply leb_zero_finite in Hlo. subst s.
    change (Prim2SF 360) with (S754_finite false 6333186975989760 (-44)) in Hhi.
    unfold SFleb in Hhi.
    rewrite (SFcompare_finite_pos m e 6333186975989760 (-44) Hv eq_refl) in Hhi.
    assert (Hle : (Zpos m * 2 ^ (e - Z.min e (-44)) <=
                   6333186975989760 * 2 ^ (-44 - Z.min e (-44)))%Z).
    { apply Z.compare_le_iff. intros Hgt. rewrite Hgt in Hhi. discriminate. }
    clear Hhi.
    destruct (valid_finite_bounds _ _ _ Hv) as (Hmhi & Hmlo).
    destruct (valid_finite_inv _ _ _ Hv) as (He & _).
    change (2 ^ 53)%Z with 9007199254740992%Z in Hmhi.
    change (2 ^ 52)%Z with 4503599627370496%Z in Hmlo.
    assert (He44 : (e <= -44)%Z).
    { destruct (Z_le_gt_dec e (-44)) as [Hok|Hbad]; [exact Hok|exfalso].
      rewrite Z.min_r in Hle by lia.
      rewrite Z.sub_diag, Z.pow_0_r, Z.mul_1_r in Hle.
      assert (Hp : (2 ^ 1 <= 2 ^ (e - -44))%Z) by (apply Z.pow_le_mono_r; lia).
      change (2 ^ 1)%Z with 2%Z in Hp. specialize (Hmlo ltac:(lia)). nia. }
    rewrite Z.min_l in Hle by lia.
    rewrite Z.sub_diag, Z.pow_0_r, Z.mul_1_r in Hle.
    destruct (Z.eq_dec (Zpos m) (6333186975989760 * 2 ^ (-44 - e))) as [Heq|Hne].
    + (* the bearing is 360 *)
      assert (He' : e = (-44)%Z).
      { destruct (Z.eq_dec e (-44)) as [Hok|Hbad]; [exact Hok|exfalso].
        assert (Hp : (2 ^ 1 <= 2 ^ (-44 - e))%Z) by (apply Z.pow_le_mono_r; lia).
        change (2 ^ 1)%Z with 2%Z in Hp. nia. }
      subst e. change (2 ^ (-44 - -44))%Z with 1%Z in Heq.
      assert (Hm : m = 6333186975989760%positive) by lia. subst m.
      assert (Hx : x = 360) by (apply Prim2SF_inj; exact E). subst x.
      right. exists 4503599627370496%positive, (-49)%Z.
      split; [reflexivity|]. split; [lia|]. vm_compute. discriminate.
    + rewrite div_spec, E.
      change (Prim2SF 45) with (S754_finite false 6333186975989760 (-47)).
      unfold SF64div, SFdiv, SFdiv_core_binary.
      change (Zdigits2 (Zpos 6333186975989760)) with 53%Z.
      set (e' := Z.min (fexp prec emax (Zdigits2 (Zpos m) + e - (53 + -47))) (e - -47)).
      assert (He' : (e' <= e + 47)%Z) by (unfold e'; lia).
      set (m' := match (e - -47 - e')%Z with
                 | Z0 => Zpos m
                 | Zpos _ => Z.shiftl (Zpos m) (e - -47 - e')
                 | Zneg _ => 0%Z
                 end).
      assert (Hm' : m' = (Zpos m * 2 ^ (e + 47 - e'))%Z).
      { unfold m'. replace (e - -47 - e')%Z with (e + 47 - e')%Z by lia.
        destruct (e + 47 - e')%Z as [|p|p] eqn:Hs; try lia.
        rewrite Z.shiftl_mul_pow2 by lia. reflexivity. }
      pose proof (Z_div_mod m' 6333186975989760 ltac:(lia)) as Hdm.
      destruct (Z.div_eucl m' 6333186975989760) as [q r].
      destruct Hdm as [Hq Hr].
      assert (Hps : (0 < 2 ^ (e + 47 - e'))%Z) by (apply pow2_pos; lia).
      assert (Hpe : (0 < 2 ^ (-44 - e))%Z) by (apply pow2_pos; lia).
      assert (Hq0 : (0 <= q)%Z) by nia.
      assert (Hqk : (q < 2 ^ (3 - e'))%Z).
      { replace (3 - e')%Z with ((e + 47 - e') + (-44 - e))%Z by lia.
        rewrite Z.pow_add_r by lia. nia. }
      destruct (binary_round_aux_upper (xorb false false) q e'
                  (new_location 6333186975989760 r) 3 Hq0 ltac:(lia) Hqk ltac:(lia))
        as [Hz|(mf & ef & Hf & Hef & Hmf)].
      * left. exists false. exact Hz.
      * right. exists mf, ef. split; [exact Hf|]. split; assumption.
Qed.

End FloatFacts.

(** ** The built-in functions on sample inputs *)

Example Math_round_samples :
  map Num.Math_round [0.5; -0.5; 1.5; 2.5; -1.5; -2.5; 0.49999999999999994; -3.7; 7.999] =
  [1; -0; 2; 3; -1; -2; 0; -4; 8].
Proof. reflexivity. Qed.

Example remainder_samples :
  map (fun p => Num.remainder (fst p) (snd p))
    [(8, 8); (7, 8); (-1, 8); (5.5, 2); (-0, 8); (3, 0)] =
  [0; 7; -1; 1.5; -0; nan].
Proof. reflexivity. Qed.

Example Math_max_min_samples :
  Num.Math_max 10 5 = 10 /\ Num.Math_max 10 50 = 50 /\
  Num.Math_max 10 nan = nan /\ Num.Math_max (-0) 0 = 0 /\
  Num.Math_min 1 1.2 = 1 /\ Num.Math_min 1 0.6 = 0.6 /\
  Num.Math_min 0 (-0) = -0.
Proof. repeat split; reflexivity. Qed.

Example getDirection_samples :
  map getDirection [22.4; 22.5; 45; 180; 337.4; 337.5; 359.9] =
  [VString "N"; VString "NE"; VString "NE"; VString "S";
   VString "NW"; VString "N"; VString "N"].
Proof. reflexivity. Qed.

Example ToNumber_samples :
  @ToNumber SmallAngle.host (VObject []) = Normal nan /\
  @ToNumber SmallAngle.host (VArray []) = Normal 0 /\
  @ToNumber SmallAngle.host (VArray [VNumber 5]) = Normal 5 /\
  @ToNumber SmallAngle.host (VArray [VNumber 5; VNumber 6]) = Normal nan /\
  @ToNumber SmallAngle.host (VObject [("toString", VNumber 1)]) =
    Throw not_primitive /\
  @ToNumber SmallAngle.host
    (VArray [VNumber 1; VObject [("toString", VNull)]]) = Throw not_primitive /\
  @ToString SmallAngle.host
    (VArray [VNumber 1; VNull; VArray [VNumber 2; VNumber 3]; VObject []]) =
    Normal "1,,2,3,[object Object]".
Proof. repeat split; reflexivity. Qed.

(** ** Reading properties *)

Lemma ToBoolean_not_nullish (v : value) :
  ToBoolean v = true -> nullish v = false.
Proof. destruct v; simpl; congruence. Qed.

Lemma Get_not_nullish (o : value) (k : string) :
  nullish o = false -> Get o k = Normal (GetV o k).
Proof. destruct o; simpl; congruence. Qed.

(** ** Conversions *)

Section ConversionFacts.
Context {H : Host}.

(** Induction on a value, through the elements of its arrays. *)
Lemma value_elements_ind (P : value -> Prop) :
  P VUndefined -> P VNull -> (forall b, P (VBool b)) ->
  (forall x, P (VNumber x)) -> (forall s, P (VString s)) ->
  (forall elems, Forall P elems -> P (VArray elems)) ->
  (forall props, P (VObject props)) ->
  forall v, P v.
Proof.
  intros Hundefined Hnull Hbool Hnumber Hstring Harray Hobject.
  refine (fix IH (v : value) : P v :=
            match v with
            | VUndefined => Hundefined
            | VNull => Hnull
            | VBool b => Hbool b
            | VNumber x => Hnumber x
            | VString s => Hstring s
            | VArray elems =>
                Harray elems
                  ((fix all (l : list value) : Forall P l :=
                      match l with
                      | [] => Forall_nil P
                      | x :: rest => Forall_cons x (IH x) (all rest)
                      end) elems)
            | VObject props => Hobject props
            end).
Qed.

(** The one value a conversion throws. *)
Lemma ToString_throws (v e : value) :
  ToString v = Throw e -> e = not_primitive.
Proof.
  induction v as [ | |b|x|str|elems IH|props] using value_elements_ind;
    simpl; try discriminate.
  - induction IH as [|x rest Hx _ IHrest]; [discriminate|].
    cbn [Array_join].
    destruct (match x with
              | VUndefined | VNull => Normal ""
              | _ => ToString x
              end) as [sx|ex] eqn:Ex; cbn [bind].
    + destruct rest as [|y rest']; [discriminate|].
      destruct (Array_join _ (y :: rest')) as [sr|er]; cbn [bind].
      * discriminate.
      * intros [= <-]. now apply IHrest.
    + intros [= <-].
      destruct x; try discriminate Ex; exact (Hx Ex).
  - destruct (has_own "toString" props); [|discriminate].
    now intros [= <-].
Qed.

Lemma ToNumber_throws (v e : value) :
  ToNumber v = Throw e -> e = not_primitive.
Proof.
  destruct v; unfold ToNumber; try discriminate.
  - destruct (ToString (VArray elems)) eqn:Hs; cbn [bind]; [discriminate|].
    intros [= <-]. exact (ToString_throws _ _ Hs).
  - destruct (ToString (VObject props)) eqn:Hs; cbn [bind]; [discriminate|].
    intros [= <-]. exact (ToString_throws _ _ Hs).
Qed.

(** Data, not methods: an object with a property [toString] of its own
    cannot be converted. *)
Lemma ToNumber_own_toString (props : list (string * value)) (v : value) :
  lookup "toString" props = Some v ->
  ToNumber (VObject props) = Throw not_primitive.
Proof.
  intros Hown. unfold ToNumber, ToString, has_own. rewrite Hown. reflexivity.
Qed.

(** Everything but an object or an array converts. *)
Lemma ToNumber_primitive (v : value) :
  (forall elems, v <> VArray elems) -> (forall props, v <> VObject props) ->
  exists x, ToNumber v = Normal x.
Proof.
  intros Harray Hobject. destruct v; simpl; eauto.
  - now elim (Harray elems).
  - now elim (Hobject props).
Qed.

End ConversionFacts.

(** ** The spoofing heuristic *)

Section DetectSpoofing.
Context {H : Host}.

(** The assessment of a supplied signal, by its two flags. *)
Lemma detectSpoofing_supplied (deviceInfo : value) :
  ToBoolean deviceInfo = true ->
  detectSpoofing deviceInfo =
    Normal
      (match ToBoolean (GetV deviceInfo "isEmulator"),
             ToBoolean (GetV deviceInfo "isMockLocation") with
       | true, true =>
           {| sa_passed := false;
              sa_checks :=
                [{| ck_check := "isEmulator"; ck_passed := false;
                    ck_details := "Device reports emulator" |};
                 {| ck_check := "mockLocation"; ck_passed := false;
                    ck_details := "Mock location enabled" |}];
              sa_riskScore := 1 |}
       | true, false =>
           {| sa_passed := false;
              sa_checks :=
                [{| ck_check := "isEmulator"; ck_passed := false;
                    ck_details := "Device reports emulator" |};
                 {| ck_check := "mockLocation"; ck_passed := true;
                    ck_details := "Mock location not detected" |}];
              sa_riskScore := 0.6 |}
       | false, true =>
           {| sa_passed := false;
              sa_checks :=
                [{| ck_check := "isEmulator"; ck_passed := true;
                    ck_details := "Not an emulator" |};
                 {| ck_check := "mockLocation"; ck_passed := false;
                    ck_details := "Mock location enabled" |}];
              sa_riskScore := 0.6 |}
       | false, false =>
           {| sa_passed := true;
              sa_checks :=
                [{| ck_check := "isEmulator"; ck_passed := true;
                    ck_details := "Not an emulator" |};
                 {| ck_check := "mockLocation"; ck_passed := true;
                    ck_details := "Mock location not detected" |}];
              sa_riskScore := 0 |}
       end).
Proof.
  intros Ht. unfold detectSpoofing. rewrite Ht. simpl negb. cbv iota.
  rewrite !Get_not_nullish by now apply ToBoolean_not_nullish.
  simpl bind.
  destruct (ToBoolean (GetV deviceInfo "isEmulator"));
    destruct (ToBoolean (GetV deviceInfo "isMockLocation"));
    vm_compute; reflexivity.
Qed.

(** C4 (amended): for every supplied device signal the assessment passes
    exactly when its risk score is at most 0.5.  A heuristic fires when its
    flag, [isEmulator] or [isMockLocation], is truthy, and each one that
    fires weighs 0.6: the assessment passes exactly when neither flag is
    set, and one flag alone gives a score of 0.6 and fails it. *)
Theorem detectSpoofing_passed (deviceInfo : value) :
  ToBoolean deviceInfo = true ->
  let emulator := ToBoolean (GetV deviceInfo "isEmulator") in
  let mockLocation := ToBoolean (GetV deviceInfo "isMockLocation") in
  let weight (flag : bool) := if flag then 0.6 else 0 in
  exists r, detectSpoofing deviceInfo = Normal r /\
    sa_passed r = (sa_riskScore r <=? 0.5) /\
    sa_riskScore r = Num.Math_min 1 (weight emulator + weight mockLocation) /\
    fired r = (Nat.b2n emulator + Nat.b2n mockLocation)%nat /\
    (sa_passed r = true <-> fired r = 0%nat) /\
    (sa_passed r = true <-> emulator = false /\ mockLocation = false) /\
    (xorb emulator mockLocation = true ->
     fired r = 1%nat /\ sa_riskScore r = 0.6 /\ sa_passed r = false).
Proof.
  intros Ht emulator mockLocation weight.
  rewrite (detectSpoofing_supplied _ Ht).
  eexists. split; [reflexivity|].
  unfold weight, emulator, mockLocation.
  destruct (ToBoolean (GetV deviceInfo "isEmulator"));
    destruct (ToBoolean (GetV deviceInfo "isMockLocation"));
    vm_compute; intuition congruence.
Qed.

(** C5: without a signal the assessment is exactly
    [{passed: true, checks: [], riskScore: 0}]; with one, the risk score
    is [min(1, 0.6 per triggered flag)], never above 1, and with both
    flags set it is 1 and the assessment fails. *)
Theorem detectSpoofing_riskScore (deviceInfo : value) :
  (ToBoolean deviceInfo = false ->
   detectSpoofing deviceInfo =
     Normal {| sa_passed := true; sa_checks := []; sa_riskScore := 0 |}) /\
  (ToBoolean deviceInfo = true ->
   exists r, detectSpoofing deviceInfo = Normal r /\
     let w (flag : string) :=
       if ToBoolean (GetV deviceInfo flag) then 0.6 else 0 in
     sa_riskScore r = Num.Math_min 1 (w "isEmulator" + w "isMockLocation") /\
     (sa_riskScore r <=? 1) = true /\
     (ToBoolean (GetV deviceInfo "isEmulator") = true ->
      ToBoolean (GetV deviceInfo "isMockLocation") = true ->
      sa_riskScore r = 1 /\ sa_passed r = false)).
Proof.
  split.
  - intros Hf. unfold detectSpoofing. rewrite Hf. reflexivity.
  - intros Ht. rewrite (detectSpoofing_supplied _ Ht).
    eexists. split; [reflexivity|]. cbv zeta beta.
    destruct (ToBoolean (GetV deviceInfo "isEmulator"));
      destruct (ToBoolean (GetV deviceInfo "isMockLocation"));
      vm_compute; intuition congruence.
Qed.

End DetectSpoofing.

(** ** The location verifier *)

Section VerifyLocation.
Context {H : Host}.

#[local] Arguments ToNumber : simpl never.
#[local] Arguments isValidCoordinates : simpl never.
#[local] Arguments calculateDistance : simpl never.
#[local] Arguments Num.Math_max : simpl never.
#[local] Arguments Num.Math_round : simpl never.
#[local] Arguments String.eqb : simpl never.
#[local] Arguments or_else : simpl never.
#[local] Arguments OptGet : simpl never.

(** The presence check of [verifyLocation]. *)
Lemma presence_check (submittedLocation : value) :
  negb (String.eqb (typeof (OptGet submittedLocation "latitude")) "number") ||
  negb (String.eqb (typeof (OptGet submittedLocation "longitude")) "number") = false <->
  typeof (OptGet submittedLocation "latitude") = "number" /\
  typeof (OptGet submittedLocation "longitude") = "number".
Proof.
  rewrite orb_false_iff, !negb_false_iff, !String.eqb_eq. reflexivity.
Qed.

(** The length of an array, as the configuration check reads it. *)
Lemma Get_length_array (elems : list value) :
  Get (VArray elems) "length" = Normal (length_of elems).
Proof. reflexivity. Qed.

(** C6: where the submitted latitude or longitude is not a number, the
    verifier answers [{passed: false, withinRadius: false,
    distanceMeters: null, allowedRadius: target.radiusMeters or null,
    message: "Location data not provided"}], whatever the target. *)
Theorem verifyLocation_not_provided (submittedLocation targetLocation : value) :
  typeof (OptGet submittedLocation "latitude") <> "number" \/
  typeof (OptGet submittedLocation "longitude") <> "number" ->
  verifyLocation submittedLocation targetLocation =
    Normal
      {| vr_passed := false;
         vr_withinRadius := false;
         vr_distanceMeters := VNull;
         vr_allowedRadius :=
           if ToBoolean (OptGet targetLocation "radiusMeters")
           then OptGet targetLocation "radiusMeters"
           else VNull;
         vr_message := VString "Location data not provided" |}.
Proof.
  intros Hmissing. unfold verifyLocation, verifyLocation_try.
  destruct (negb (String.eqb (typeof (OptGet submittedLocation "latitude")) "number") ||
            negb (String.eqb (typeof (OptGet submittedLocation "longitude")) "number"))
    eqn:Hp.
  - reflexivity.
  - apply presence_check in Hp. tauto.
Qed.

End VerifyLocation.

(** ** The compass mapping *)

Section GetDirection.

Import FloatFacts SpecFloatFacts.

(** [Math.round] of a number between 0 and 8 is one of the integers
    0, ..., 8 (or the zero [-0]). *)
Lemma Math_round_upto_8 (q : float) :
  (exists s, Prim2SF q = S754_zero s) \/
  (exists m e, Prim2SF q = S754_finite false m e /\
     (e <= 3)%Z /\ (Zpos m <= 2 ^ (3 - e))%Z) ->
  Num.Math_round q = -0 \/
  exists n : Z, (0 <= n <= 8)%Z /\ Num.Math_round q = Num.of_Z n.
Proof.
  intros [[s Hq]|(m & e & Hq & He & Hm)].
  - assert (Hr : Num.Math_round q = q) by (unfold Num.Math_round; now rewrite Hq).
    rewrite Hr. destruct s.
    + left. apply Prim2SF_inj. rewrite Hq. reflexivity.
    + right. exists 0%Z. split; [lia|]. apply Prim2SF_inj. rewrite Hq. reflexivity.
  - right. pose proof (Prim2SF_valid q) as Hv. rewrite Hq in Hv.
    destruct (valid_finite_bounds _ _ _ Hv) as (_ & Hlo).
    destruct (valid_finite_inv _ _ _ Hv) as (Hev & _).
    change (2 ^ 52)%Z with 4503599627370496%Z in Hlo.
    assert (Hneg : (e < 0)%Z).
    { destruct (Z_lt_ge_dec e 0) as [Hok|Hbad]; [exact Hok|exfalso].
      specialize (Hlo ltac:(lia)).
      assert (2 ^ (3 - e) <= 2 ^ 3)%Z by (apply Z.pow_le_mono_r; lia).
      change (2 ^ 3)%Z with 8%Z in *. lia. }
    unfold Num.Math_round. rewrite Hq.
    destruct (Z.leb_spec 0 e) as [Hbad|_]; [lia|].
    simpl cond_Zopp.
    set (n := ((2 * Zpos m + 2 ^ (- e)) / 2 ^ (- e + 1))%Z).
    assert (Hp : (0 < 2 ^ (- e))%Z) by (apply pow2_pos; lia).
    assert (Hp1 : (2 ^ (- e + 1) = 2 * 2 ^ (- e))%Z).
    { rewrite Z.pow_add_r by lia. change (2 ^ 1)%Z with 2%Z. ring. }
    assert (Hm8 : (Zpos m <= 8 * 2 ^ (- e))%Z).
    { replace (3 - e)%Z with (3 + - e)%Z in Hm by lia.
      rewrite Z.pow_add_r in Hm by lia. change (2 ^ 3)%Z with 8%Z in Hm. exact Hm. }
    assert (Hn : (0 <= n <= 8)%Z).
    { unfold n. rewrite Hp1. split.
      - apply Z.div_pos; lia.
      - apply Z.lt_succ_r. apply Z.div_lt_upper_bound; lia. }
    exists n. split; [exact Hn|]. clearbody n.
    destruct (Z.eqb_spec n 0) as [Hz|Hnz]; [subst n|]; reflexivity.
Qed.

(** C9: a bearing between 0 and 360 degrees is mapped to the compass point
    of index [round(bearing / 45) mod 8]: [round(bearing / 45)] is one of
    0, ..., 8, and the result is one of the eight strings N, NE, E, SE, S,
    SW, W, NW.  In particular the bearings 0 and 360 give "N" and 90 gives
    "E". *)
Theorem getDirection_compass :
  (forall bearing : float,
     (0 <=? bearing) = true -> (bearing <=? 360) = true ->
     exists n : Z,
       (0 <= n <= 8)%Z /\
       Num.to_Z (Num.Math_round (bearing / 45)) = Some n /\
       getDirection bearing = nth (Z.to_nat (n mod 8)) compass VUndefined /\
       In (getDirection bearing) compass) /\
  getDirection 0 = VString "N" /\
  getDirection 90 = VString "E" /\
  getDirection 360 = VString "N".
Proof.
  split; [|repeat split; reflexivity].
  intros bearing Hlo Hhi. unfold getDirection.
  destruct (Math_round_upto_8 _ (div_45_bound bearing Hlo Hhi))
    as [-> | (n & Hn & ->)].
  - exists 0%Z. split; [lia|]. split; [reflexivity|]. split; [reflexivity|].
    left. reflexivity.
  - exists n. split; [exact Hn|].
    assert (Hcases : (n = 0 \/ n = 1 \/ n = 2 \/ n = 3 \/ n = 4 \/ n = 5 \/
                      n = 6 \/ n = 7 \/ n = 8)%Z) by lia.
    destruct Hcases as [->|[->|[->|[->|[->|[->|[->|[->| ->]]]]]]]];
      (split; [reflexivity|]; split; [reflexivity|]);
      vm_compute; tauto.
Qed.

End GetDirection.

(** ** Sorting *)

Section ArraySortFacts.
Context {A : Type} (comparefn : A -> A -> float).

Lemma sort_insert_perm (x : A) (l : list A) :
  Permutation (sort_insert comparefn x l) (x :: l).
Proof.
  induction l as [|y rest IH]; simpl.
  - apply Permutation_refl.
  - destruct (0 <? comparefn x y).
    + apply perm_trans with (y :: x :: rest).
      * apply perm_skip. exact IH.
      * apply perm_swap.
    + apply Permutation_refl.
Qed.

Lemma Array_sort_perm (l : list A) : Permutation (Array_sort comparefn l) l.
Proof.
  induction l as [|x rest IH]; simpl.
  - apply perm_nil.
  - apply perm_trans with (x :: Array_sort comparefn rest).
    + apply sort_insert_perm.
    + apply perm_skip. exact IH.
Qed.

Section Sorted.
Variable R : A -> A -> Prop.
Variable P : A -> Prop.
Hypothesis after : forall x y, P x -> P y -> (0 <? comparefn x y) = true -> R y x.
Hypothesis before : forall x y, P x -> P y -> (0 <? comparefn x y) = false -> R x y.

Lemma sort_insert_sorted (x : A) (l : list A) :
  P x -> Forall P l -> Sorted R l -> Sorted R (sort_insert comparefn x l).
Proof.
  intros Hx Hl Hs. induction l as [|y rest IH]; simpl.
  - repeat constructor.
  - inversion Hl as [|y' rest' Hy Hrest]; subst.
    inversion Hs as [|y' rest' Hsr Hhd]; subst.
    destruct (0 <? comparefn x y) eqn:Hc.
    + constructor; [now apply IH|].
      destruct rest as [|z rest]; simpl.
      * constructor. now apply after.
      * destruct (0 <? comparefn x z).
        -- constructor. now inversion Hhd.
        -- constructor. now apply after.
    + constructor; [exact Hs|]. constructor. now apply before.
Qed.

Lemma Array_sort_sorted (l : list A) :
  Forall P l -> Sorted R (Array_sort comparefn l).
Proof.
  induction l as [|x rest IH]; simpl; intros Hl.
  - constructor.
  - inversion Hl as [|x' rest' Hx Hrest]; subst.
    apply sort_insert_sorted; [exact Hx| |now apply IH].
    apply (Permutation_Forall (Permutation_sym (Array_sort_perm rest))).
    exact Hrest.
Qed.

End Sorted.

(** The sort keeps the order of the elements of a class that the
    comparator does not separate. *)
Section Stable.
Variable p : A -> bool.
Hypothesis tie : forall x y, p x = true -> p y = true ->
  (0 <? comparefn x y) = false.

Lemma sort_insert_stable (x : A) (l : list A) :
  filter p (sort_insert comparefn x l) = filter p (x :: l).
Proof.
  induction l as [|y rest IH]; simpl.
  - reflexivity.
  - destruct (0 <? comparefn x y) eqn:Hc; [|reflexivity].
    simpl. rewrite IH. simpl.
    destruct (p x) eqn:Hpx; [|reflexivity].
    destruct (p y) eqn:Hpy; [|reflexivity].
    rewrite (tie x y Hpx Hpy) in Hc. discriminate.
Qed.

Lemma Array_sort_stable (l : list A) :
  filter p (Array_sort comparefn l) = filter p l.
Proof.
  induction l as [|x rest IH]; simpl.
  - reflexivity.
  - rewrite sort_insert_stable. simpl. rewrite IH. reflexivity.
Qed.

End Stable.

End ArraySortFacts.

(** ** The nearby-location helper *)

Section FindNearby.
Context {H : Host}.

Import FloatFacts.

(** The candidates of [findNearby], each with its distance from the user
    point. *)
Lemma findNearby_eq (userLat userLon : float) (locations : list Location)
  (maxDistanceMeters : float) :
  findNearby userLat userLon locations maxDistanceMeters =
  Array_sort (fun a b => nb_distance a - nb_distance b)
    (filter (fun loc => nb_distance loc <=? maxDistanceMeters)
       (map (fun location =>
               {| nb_object := loc_toObject location;
                  nb_distance :=
                    calculateDistance userLat userLon
                      (loc_lat location) (loc_lon location) |})
          locations)).
Proof. reflexivity. Qed.

(** C7: [findNearby] returns exactly the candidates whose distance from the
    user point is at most [maxDistanceMeters], each with that distance
    attached, in ascending order of distance (every element is at most as
    far as all the later ones), and candidates at equal distances keep the
    order they had in the input. *)
Theorem findNearby_sorted_stable (userLat userLon : float)
  (locations : list Location) (maxDistanceMeters : float) :
  let attach location :=
    {| nb_object := loc_toObject location;
       nb_distance :=
         calculateDistance userLat userLon (loc_lat location) (loc_lon location) |} in
  let within := filter (fun loc => nb_distance loc <=? maxDistanceMeters)
                  (map attach locations) in
  let result := findNearby userLat userLon locations maxDistanceMeters in
  Permutation result within /\
  (forall n, In n result <->
     exists location, In location locations /\ n = attach location /\
       (nb_distance n <=? maxDistanceMeters) = true) /\
  StronglySorted (fun a b => (nb_distance a <=? nb_distance b) = true) result /\
  (forall d : float,
     filter (fun n => nb_distance n =? d) result =
     filter (fun n => nb_distance n =? d) within).
Proof.
  intros attach within result.
  assert (Hperm : Permutation result within) by apply Array_sort_perm.
  split; [exact Hperm|]. split; [|split].
  - intros n. split.
    + intros Hin. apply (Permutation_in _ Hperm) in Hin.
      apply filter_In in Hin. destruct Hin as [Hin Hle].
      apply in_map_iff in Hin. destruct Hin as (location & <- & Hloc).
      exists location. auto.
    + intros (location & Hloc & -> & Hle).
      apply (Permutation_in _ (Permutation_sym Hperm)).
      apply filter_In. split; [|exact Hle].
      apply in_map. exact Hloc.
  - apply Sorted_StronglySorted.
    { intros a b c. apply leb_trans. }
    apply (Array_sort_sorted _ _
             (fun n => (nb_distance n <=? maxDistanceMeters) = true)).
    + intros x y _ _ Hc. rewrite sub_positive in Hc. now apply ltb_leb.
    + intros x y Hx Hy Hc. rewrite sub_positive in Hc.
      apply not_ltb_leb; [| |exact Hc].
      * apply (leb_not_nan _ _ Hy).
      * apply (leb_not_nan _ _ Hx).
    + apply Forall_forall. intros n Hin. apply filter_In in Hin. tauto.
  - intros d. apply Array_sort_stable.
    intros x y Hx Hy. rewrite sub_positive.
    rewrite (eqb_ltb_compat _ _ _ Hx). now apply eqb_not_ltb.
Qed.

End FindNearby.

(** ** The Haversine distance *)

Section CalculateDistance.
Context {H : Host}.

Import FloatFacts SpecFloatFacts.

Lemma toRadians_opp (degrees : float) :
  toRadians (- degrees) = - toRadians degrees.
Proof. unfold toRadians. apply mul_opp_l. Qed.

(** The squared sine of half the difference of two angles does not depend
    on the order of the two. *)
Lemma haversine_term_swap (c x y : float) :
  sin_odd H ->
  c * Math_sin (toRadians (y - x) / 2) * Math_sin (toRadians (y - x) / 2) =
  c * Math_sin (toRadians (x - y) / 2) * Math_sin (toRadians (x - y) / 2).
Proof.
  intros Hodd. destruct (sub_swap x y) as [Hs|[Hy Hx]].
  - rewrite Hs, toRadians_opp, div_opp_l, Hodd.
    rewrite !mul_opp_r, !mul_opp_l, opp_involutive. reflexivity.
  - rewrite Hy, Hx. reflexivity.
Qed.

Lemma haversine_square_swap (x y : float) :
  sin_odd H ->
  Math_sin (toRadians (y - x) / 2) * Math_sin (toRadians (y - x) / 2) =
  Math_sin (toRadians (x - y) / 2) * Math_sin (toRadians (x - y) / 2).
Proof.
  intros Hodd. destruct (sub_swap x y) as [Hs|[Hy Hx]].
  - rewrite Hs, toRadians_opp, div_opp_l, Hodd, mul_opp_opp. reflexivity.
  - rewrite Hy, Hx. reflexivity.
Qed.

Lemma calculateDistance_sym (lat1 lon1 lat2 lon2 : float) :
  sin_odd H ->
  calculateDistance lat1 lon1 lat2 lon2 = calculateDistance lat2 lon2 lat1 lon1.
Proof.
  intros Hodd. unfold calculateDistance. cbv zeta.
  rewrite (haversine_square_swap lat1 lat2 Hodd).
  rewrite (haversine_term_swap _ lon1 lon2 Hodd).
  rewrite (mul_comm (Math_cos (toRadians lat1)) (Math_cos (toRadians lat2))).
  reflexivity.
Qed.

(** The numbers the validator accepts. *)
Lemma isValidCoordinates_inv (lat lon : float) :
  isValidCoordinates (VNumber lat) (VNumber lon) = true ->
  ((-90 <=? lat) = true /\ (lat <=? 90) = true) /\
  ((-180 <=? lon) = true /\ (lon <=? 180) = true).
Proof.
  unfold isValidCoordinates. simpl.
  rewrite !andb_true_iff. tauto.
Qed.

Lemma latitude_bounded (lat : float) :
  (-90 <=? lat) = true -> (lat <=? 90) = true -> SFbounded (Prim2SF lat) 7.
Proof.
  intros Hlo Hhi.
  apply (interval_bounded lat 90 6333186975989760 (-46) eq_refl Hlo Hhi).
Qed.

Lemma longitude_bounded (lon : float) :
  (-180 <=? lon) = true -> (lon <=? 180) = true -> SFbounded (Prim2SF lon) 8.
Proof.
  intros Hlo Hhi.
  apply (interval_bounded lon 180 6333186975989760 (-45) eq_refl Hlo Hhi).
Qed.

Lemma toRadians_finite (degrees : float) (a : Z) :
  SFbounded (Prim2SF degrees) a -> (-1070 <= a <= 975)%Z ->
  is_finite (toRadians degrees) = true.
Proof.
  intros Hb Ha. unfold toRadians.
  apply (SFbounded_finite _ (a + -5 + 1)).
  apply mul_bounded; [exact Hb| |lia].
  vm_compute. split; discriminate.
Qed.

(** The distance from a valid point to itself is [+0]. *)
Lemma calculateDistance_same_point (lat lon : float) :
  sin_zero H -> cos_bounded H -> atan2_zero H ->
  isValidCoordinates (VNumber lat) (VNumber lon) = true ->
  calculateDistance lat lon lat lon = 0.
Proof.
  intros Hsin Hcos Hatan Hvalid.
  destruct (isValidCoordinates_inv lat lon Hvalid) as [[Hlat1 Hlat2] [Hlon1 Hlon2]].
  pose proof (latitude_bounded lat Hlat1 Hlat2) as Hblat.
  pose proof (longitude_bounded lon Hlon1 Hlon2) as Hblon.
  unfold calculateDistance. cbv zeta.
  rewrite (sub_diag lat) by (now apply (SFbounded_finite _ 7)).
  rewrite (sub_diag lon) by (now apply (SFbounded_finite _ 8)).
  change (toRadians 0 / 2) with 0. rewrite Hsin.
  destruct (Hcos (toRadians lat) (toRadians_finite lat 7 Hblat ltac:(lia)))
    as [Hc1 Hc2].
  set (C := Math_cos (toRadians lat)) in *.
  assert (HCC : is_finite (C * C) = true).
  { apply (SFbounded_finite _ (1 + 1 + 1)).
    apply mul_bounded; try lia;
      apply (interval_bounded C 1 4503599627370496 (-52) eq_refl Hc1 Hc2). }
  destruct (mul_finite_zero (C * C) HCC) as [Hz|Hz]; rewrite Hz.
  - change (sqrt (0 * 0 + 0 * 0)) with 0.
    change (sqrt (1 - (0 * 0 + 0 * 0))) with 1.
    rewrite Hatan. reflexivity.
  - change (sqrt (0 * 0 + -0 * 0)) with 0.
    change (sqrt (1 - (0 * 0 + -0 * 0))) with 1.
    rewrite Hatan. reflexivity.
Qed.

(** C8: the distance is symmetric, [distance(a, b, c, d)] and
    [distance(c, d, a, b)] being the same number (so that [==] holds of
    them whenever that number is not NaN), and it is 0 between a valid
    coordinate and itself. *)
Theorem calculateDistance_symmetric_zero :
  (sin_odd H ->
   forall a b c d : float,
     calculateDistance a b c d = calculateDistance c d a b /\
     (is_nan (calculateDistance a b c d) = false ->
      (calculateDistance a b c d =? calculateDistance c d a b) = true)) /\
  (sin_zero H -> cos_bounded H -> atan2_zero H ->
   forall x y : float,
     isValidCoordinates (VNumber x) (VNumber y) = true ->
     calculateDistance x y x y = 0 /\ (calculateDistance x y x y =? 0) = true).
Proof.
  split.
  - intros Hodd a b c d.
    rewrite <- (calculateDistance_sym a b c d Hodd).
    split; [reflexivity|apply eqb_refl].
  - intros Hsin Hcos Hatan x y Hvalid.
    rewrite (calculateDistance_same_point x y Hsin Hcos Hatan Hvalid).
    split; reflexivity.
Qed.

End CalculateDistance.

(** ** The verdict of the location verifier *)

Section VerifyDistance.
Context {H : Host}.

Import FloatFacts.

(** The allowed radius is at least 10, unless it is NaN. *)
Lemma Math_max_10_floor (x : float) :
  is_nan (Num.Math_max 10 x) = true \/ (10 <=? Num.Math_max 10 x) = true.
Proof.
  unfold Num.Math_max. change (is_nan 10) with false. simpl orb.
  destruct (is_nan x) eqn:Hnan; [left; reflexivity|right].
  destruct (10 <? x) eqn:Hlt; [now apply ltb_leb|].
  destruct (x <? 10); [reflexivity|]. reflexivity.
Qed.



(** The distance evaluation: what [verifyLocation] answers once the
    radius and the two coordinates of the target have been converted and
    the presence, configuration and range checks have passed. *)
Lemma verifyLocation_evaluates (submittedLocation targetLocation : value)
  (lat lon : float) (c0 c1 : value) (radius targetLon targetLat : float) :
  OptGet submittedLocation "latitude" = VNumber lat ->
  OptGet submittedLocation "longitude" = VNumber lon ->
  OptGet targetLocation "coordinates" = VArray [c0; c1] ->
  ToNumber (or_else (OptGet targetLocation "radiusMeters") (VNumber 50)) =
    Normal radius ->
  ToNumber c0 = Normal targetLon ->
  ToNumber c1 = Normal targetLat ->
  isValidCoordinates (VNumber lat) (VNumber lon) = true ->
  isValidCoordinates (VNumber targetLat) (VNumber targetLon) = true ->
  let allowedRadius := Num.Math_max 10 radius in
  let distanceMeters :=
    Num.Math_round (calculateDistance lat lon targetLat targetLon) in
  verifyLocation submittedLocation targetLocation =
    Normal
      {| vr_passed := distanceMeters <=? allowedRadius;
         vr_withinRadius := distanceMeters <=? allowedRadius;
         vr_distanceMeters := VNumber distanceMeters;
         vr_allowedRadius := VNumber allowedRadius;
         vr_message :=
           VString
             (if distanceMeters <=? allowedRadius
              then "✅ Location verified (" ++
                   NumberToString distanceMeters ++ "m away)"
              else "❌ Location mismatch (" ++
                   NumberToString distanceMeters ++ "m away, allowed " ++
                   NumberToString allowedRadius ++ "m)") |}.
Proof.
  intros Hlat Hlon Hcoords Hradius Hc0 Hc1 Hvu Hvt allowedRadius distanceMeters.
  unfold verifyLocation, verifyLocation_try.
  rewrite Hlat, Hlon, Hcoords, Hradius.
  change (typeof (VNumber lat)) with "number".
  change (typeof (VNumber lon)) with "number".
  change (String.eqb "number" "number") with true. simpl negb. simpl orb.
  cbv iota. cbn [bind]. simpl Array_isArray. simpl negb. cbv iota.
  change (Get (VArray [c0; c1]) "length") with (Normal (VNumber 2)).
  change (Get (VArray [c0; c1]) "0") with (Normal c0).
  change (Get (VArray [c0; c1]) "1") with (Normal c1).
  cbn [bind].
  change (strict_equals_number (VNumber 2) 2) with true. simpl negb. cbv iota.
  rewrite Hc0, Hc1. cbn [bind].
  rewrite Hvu, Hvt. simpl negb. simpl orb. cbv iota.
  reflexivity.
Qed.

(** C1 (amended): with a numeric submitted latitude and longitude, a target
    whose coordinates are a pair [[longitude, latitude]], both passing
    [isValidCoordinates], and a radius [Number(radiusMeters || 50)] that
    converts, the verifier reports the Haversine distance rounded to the
    nearest metre, [withinRadius] as that distance being at most the
    allowed radius, and [passed] equal to [withinRadius].  A point verified
    against itself with a radius of 50 passes at distance 0.  Where the
    conversion of the radius throws, the [catch] clause answers instead:
    [passed = false] and no distance. *)
Theorem verifyLocation_distance :
  (forall (submittedLocation targetLocation : value)
          (lat lon : float) (c0 c1 : value) (radius targetLon targetLat : float),
     OptGet submittedLocation "latitude" = VNumber lat ->
     OptGet submittedLocation "longitude" = VNumber lon ->
     OptGet targetLocation "coordinates" = VArray [c0; c1] ->
     ToNumber (or_else (OptGet targetLocation "radiusMeters") (VNumber 50)) =
       Normal radius ->
     ToNumber c0 = Normal targetLon ->
     ToNumber c1 = Normal targetLat ->
     isValidCoordinates (VNumber lat) (VNumber lon) = true ->
     isValidCoordinates (VNumber targetLat) (VNumber targetLon) = true ->
     exists r,
       verifyLocation submittedLocation targetLocation = Normal r /\
       vr_distanceMeters r =
         VNumber (Num.Math_round
                    (calculateDistance lat lon targetLat targetLon)) /\
       vr_allowedRadius r = VNumber (Num.Math_max 10 radius) /\
       vr_withinRadius r =
         (Num.Math_round (calculateDistance lat lon targetLat targetLon)
          <=? Num.Math_max 10 radius) /\
       vr_passed r = vr_withinRadius r) /\
  (sin_zero H -> cos_bounded H -> atan2_zero H ->
   exists r,
     verifyLocation
       (VObject [("latitude", VNumber 10); ("longitude", VNumber 10)])
       (VObject [("coordinates", VArray [VNumber 10; VNumber 10]);
                 ("radiusMeters", VNumber 50)]) = Normal r /\
     vr_passed r = true /\ vr_distanceMeters r = VNumber 0) /\
  (forall (submittedLocation targetLocation : value) (lat lon : float)
          (e : value),
     OptGet submittedLocation "latitude" = VNumber lat ->
     OptGet submittedLocation "longitude" = VNumber lon ->
     ToNumber (or_else (OptGet targetLocation "radiusMeters") (VNumber 50)) =
       Throw e ->
     exists r,
       verifyLocation submittedLocation targetLocation = Normal r /\
       vr_passed r = false /\ vr_withinRadius r = false /\
       vr_distanceMeters r = VNull).
Proof.
  split; [|split].
  - intros s t lat lon c0 c1 radius targetLon targetLat
      Hlat Hlon Hcoords Hradius Hc0 Hc1 Hvu Hvt.
    eexists. split.
    + apply (verifyLocation_evaluates s t lat lon c0 c1 radius targetLon targetLat);
        assumption.
    + simpl. repeat split; reflexivity.
  - intros Hsin Hcos Hatan.
    eexists. split.
    + apply (verifyLocation_evaluates _ _ 10 10 (VNumber 10) (VNumber 10) 50 10 10);
        reflexivity.
    + rewrite (calculateDistance_same_point 10 10 Hsin Hcos Hatan eq_refl).
      split; reflexivity.
  - intros s t lat lon e Hlat Hlon Hthrow.
    unfold verifyLocation, verifyLocation_try.
    rewrite Hlat, Hlon, Hthrow.
    change (typeof (VNumber lat)) with "number".
    change (typeof (VNumber lon)) with "number".
    change (String.eqb "number" "number") with true. simpl negb. simpl orb.
    cbv iota. cbn [bind try_catch]. unfold verifyLocation_catch.
    eexists. split; [reflexivity|]. repeat split; reflexivity.
Qed.


End VerifyDistance.

(** ** Exactly representable values *)

Module RoundingFacts.

Import SpecFloatFacts.

Local Open Scope Z_scope.

Lemma digits_unique (m : positive) (k : Z) :
  2 ^ (k - 1) <= Zpos m < 2 ^ k -> digits m = k.
Proof.
  intros [Hlo Hhi]. destruct (digits_bounds m) as [Hlo' Hhi'].
  assert (Hle : digits m <= k) by now apply digits_le.
  assert (Hdp := digits_pos m).
  destruct (Z_lt_le_dec (digits m) k) as [Hlt|Hge]; [exfalso|lia].
  assert (2 ^ digits m <= 2 ^ (k - 1)) by (apply Z.pow_le_mono_r; lia).
  lia.
Qed.

(** Appending [d] zero bits to a mantissa adds [d] digits. *)
Lemma digits_mul_pow2 (m mz : positive) (d : Z) :
  0 <= d -> Zpos mz = Zpos m * 2 ^ d -> digits mz = digits m + d.
Proof.
  intros Hd Hmz. destruct (digits_bounds m) as [Hlo Hhi].
  assert (Hdp := digits_pos m). assert (Hp := pow2_pos d Hd).
  apply digits_unique. rewrite Hmz.
  replace (digits m + d - 1) with ((digits m - 1) + d) by lia.
  rewrite !Z.pow_add_r by lia. nia.
Qed.

Lemma valid_binary_finite (s : bool) (m : positive) (e : Z) :
  valid_binary (S754_finite s m e) = true <->
  Z.max (digits m + e - 53) (-1074) = e /\ e <= 971.
Proof.
  unfold SpecFloat.valid_binary, bounded, canonical_mantissa.
  rewrite andb_true_iff, Z.eqb_eq, Z.leb_le, fexp_eq. fold (digits m).
  change (emax - prec) with 971. reflexivity.
Qed.

(** Rounding a number of the format gives the number. *)
Lemma binary_round_aux_exact (s : bool) (m : positive) (e : Z) :
  valid_binary (S754_finite s m e) = true ->
  binary_round_aux prec emax s (Zpos m) e loc_Exact = S754_finite s m e.
Proof.
  rewrite valid_binary_finite. intros [Hc He].
  assert (Hs : shr_fexp prec emax (Zpos m) e loc_Exact =
               ({| shr_m := Zpos m; shr_r := false; shr_s := false |}, e)).
  { unfold shr_fexp. rewrite fexp_eq. simpl Zdigits2. fold (digits m).
    rewrite Hc, Z.sub_diag. reflexivity. }
  unfold binary_round_aux. rewrite Hs. simpl shr_m. simpl loc_of_shr_record.
  simpl round_nearest_even. rewrite Hs. simpl shr_m.
  change (emax - prec) with 971.
  destruct (Z.leb_spec e 971); [reflexivity|lia].
Qed.

(** A value [m * 2^e] that fits the format is rounded to itself. *)
Lemma binary_round_exact (s : bool) (m : positive) (e : Z) :
  digits m <= 53 -> -1074 <= e -> digits m + e <= 1024 ->
  exists mz : positive,
    binary_round prec emax s m e =
      S754_finite s mz (Z.max (digits m + e - 53) (-1074)) /\
    Zpos mz = Zpos m * 2 ^ (e - Z.max (digits m + e - 53) (-1074)) /\
    valid_binary (S754_finite s mz (Z.max (digits m + e - 53) (-1074))) = true.
Proof.
  intros Hd He Hhi. unfold binary_round.
  rewrite fexp_eq. fold (digits m).
  set (e' := Z.max (digits m + e - 53) (-1074)).
  assert (He' : e' <= e) by (unfold e'; lia).
  pose proof (shl_align_fst m e e' He') as Hf.
  pose proof (shl_align_snd m e e') as Hsnd.
  destruct (shl_align m e e') as [mz ez]. simpl fst in Hf. simpl snd in Hsnd.
  rewrite Z.min_r in Hsnd by lia. subst ez.
  assert (Hv : valid_binary (S754_finite s mz e') = true).
  { apply valid_binary_finite.
    rewrite (digits_mul_pow2 m mz (e - e')) by (lia || exact Hf).
    replace (digits m + (e - e') + e') with (digits m + e) by lia.
    fold e'. split; [reflexivity|unfold e'; lia]. }
  exists mz. split; [|split; assumption].
  now apply binary_round_aux_exact.
Qed.

(** Rounding a value below [B * 2^k], for an integer [B] of at most 53
    digits, gives at most [B * 2^k], and no infinity. *)
Lemma binary_round_aux_below (s : bool) (M E : Z) (l : location) (B : positive) (k : Z) :
  0 <= M -> E <= k -> M < Zpos B * 2 ^ (k - E) -> digits B <= 53 ->
  -1074 <= k <= 971 ->
  binary_round_aux prec emax s M E l = S754_zero s \/
  exists m e,
    binary_round_aux prec emax s M E l = S754_finite s m e /\
    e <= k /\ Zpos m <= Zpos B * 2 ^ (k - e).
Proof.
  intros HM HE HMk HB Hk. unfold binary_round_aux.
  destruct (shr_fexp_spec M E l HM) as [He1 Hm1].
  destruct (shr_fexp prec emax M E l) as [r1 e1]. simpl fst in *. simpl snd in *.
  destruct (digits_bounds B) as [_ HBhi]. assert (HBp := digits_pos B).
  assert (Hd : Zdigits2 M <= digits B + (k - E)).
  { apply Zdigits2_le; try lia.
    rewrite Z.pow_add_r by lia.
    assert (0 < 2 ^ (k - E)) by (apply pow2_pos; lia). nia. }
  assert (Hd0 := Zdigits2_nonneg M).
  assert (He1k : E <= e1 <= k) by lia.
  assert (Hp1 := pow2_pos (e1 - E) ltac:(lia)).
  assert (Hm1lo : 0 <= shr_m r1).
  { rewrite Hm1. apply Z.div_pos; lia. }
  assert (Hsplit : 2 ^ (k - E) = 2 ^ (e1 - E) * 2 ^ (k - e1)).
  { rewrite <- Z.pow_add_r by lia. f_equal. lia. }
  assert (Hm1hi : shr_m r1 < Zpos B * 2 ^ (k - e1)).
  { rewrite Hm1. apply Z.div_lt_upper_bound; [lia|]. rewrite Hsplit in HMk. lia. }
  pose proof (round_nearest_even_bounds (shr_m r1) (loc_of_shr_record r1)) as Hr.
  set (m' := round_nearest_even (shr_m r1) (loc_of_shr_record r1)) in *.
  assert (Hm' : 0 <= m') by lia.
  destruct (shr_fexp_spec m' e1 loc_Exact Hm') as [He2 Hm2].
  destruct (shr_fexp prec emax m' e1 loc_Exact) as [r2 e2]. simpl fst in *. simpl snd in *.
  assert (Hd' : Zdigits2 m' <= digits B + (k - e1) + 1).
  { apply Zdigits2_le; try lia.
    rewrite !Z.pow_add_r by lia. change (2 ^ 1) with 2.
    assert (0 < 2 ^ (k - e1)) by (apply pow2_pos; lia). nia. }
  assert (Hd0' := Zdigits2_nonneg m').
  assert (Hd'' : m' < Zpos B * 2 ^ (k - e1) -> Zdigits2 m' <= digits B + (k - e1)).
  { intros Hlt. apply Zdigits2_le; try lia.
    rewrite !Z.pow_add_r by lia.
    assert (0 < 2 ^ (k - e1)) by (apply pow2_pos; lia). nia. }
  assert (He2k : e1 <= e2 <= k).
  { destruct (Z.eq_dec m' (Zpos B * 2 ^ (k - e1))) as [Heq|Hne].
    - assert (Hdm : Zdigits2 m' = digits B + (k - e1)).
      { destruct m' as [|p|p]; try lia.
        simpl. apply (digits_mul_pow2 B p (k - e1)); lia. }
      lia.
    - specialize (Hd'' ltac:(lia)). lia. }
  assert (Hp2 := pow2_pos (e2 - e1) ltac:(lia)).
  assert (Hm2lo : 0 <= shr_m r2).
  { rewrite Hm2. apply Z.div_pos; lia. }
  assert (Hsplit2 : 2 ^ (k - e1) = 2 ^ (e2 - e1) * 2 ^ (k - e2)).
  { rewrite <- Z.pow_add_r by lia. f_equal. lia. }
  assert (Hm2hi : shr_m r2 <= Zpos B * 2 ^ (k - e2)).
  { rewrite Hm2. apply Z.div_le_upper_bound; [lia|]. rewrite Hsplit2 in Hm1hi. nia. }
  destruct (shr_m r2) as [|p|p] eqn:Hr2.
  - left. reflexivity.
  - right. change (emax - prec) with 971.
    destruct (Z.leb_spec e2 971) as [_|Hbad]; [|lia].
    exists p, e2. repeat split; try reflexivity; lia.
  - lia.
Qed.

(** Two numbers of the format with the same value are the same. *)
Lemma valid_finite_unique (m1 : positive) (e1 : Z) (m2 : positive) (e2 : Z) :
  valid_binary (S754_finite false m1 e1) = true ->
  valid_binary (S754_finite false m2 e2) = true ->
  Zpos m1 * 2 ^ (e1 - Z.min e1 e2) = Zpos m2 * 2 ^ (e2 - Z.min e1 e2) ->
  m1 = m2 /\ e1 = e2.
Proof.
  intros H1 H2 Heq.
  pose proof (SFcompare_finite_pos m1 e1 m2 e2 H1 H2) as Hc.
  rewrite Heq, Z.compare_refl in Hc. simpl in Hc.
  destruct (Z.compare_spec e1 e2) as [He|He|He]; try discriminate.
  subst e2. split; [|reflexivity].
  injection Hc as Hc. now apply Pos.compare_eq.
Qed.

End RoundingFacts.

(** ** Rounded values are numbers of the format *)

Module ValidityFacts.

Import SpecFloatFacts RoundingFacts.

Local Open Scope Z_scope.

Lemma Zdigits2_unique (M k : Z) :
  2 ^ (k - 1) <= M < 2 ^ k -> 0 < M -> Zdigits2 M = k.
Proof.
  intros HM Hpos. destruct M as [|p|p]; try lia.
  apply (digits_unique p k HM).
Qed.

Lemma Zdigits2_bounds (M : Z) :
  0 < M -> 2 ^ (Zdigits2 M - 1) <= M < 2 ^ Zdigits2 M.
Proof.
  intros Hpos. destruct M as [|p|p]; try lia. apply (digits_bounds p).
Qed.

Lemma Zdigits2_positive (M : Z) : 0 < M -> 0 < Zdigits2 M.
Proof. destruct M as [|p|p]; simpl; lia. Qed.

(** The digits of a mantissa shifted right by [n] bits. *)
Lemma Zdigits2_div_pow2 (M n : Z) :
  0 < M -> 0 <= n < Zdigits2 M -> Zdigits2 (M / 2 ^ n) = Zdigits2 M - n.
Proof.
  intros Hpos Hn. destruct (Zdigits2_bounds M Hpos) as [Hlo Hhi].
  assert (Hp := pow2_pos n ltac:(lia)).
  assert (Hs1 : 2 ^ (Zdigits2 M - 1) = 2 ^ n * 2 ^ (Zdigits2 M - n - 1)).
  { rewrite <- Z.pow_add_r by lia. f_equal. lia. }
  assert (Hs2 : 2 ^ Zdigits2 M = 2 ^ n * 2 ^ (Zdigits2 M - n)).
  { rewrite <- Z.pow_add_r by lia. f_equal. lia. }
  assert (Hq1 : 2 ^ (Zdigits2 M - n - 1) <= M / 2 ^ n).
  { apply Z.div_le_lower_bound; lia. }
  assert (Hq2 : M / 2 ^ n < 2 ^ (Zdigits2 M - n)).
  { apply Z.div_lt_upper_bound; lia. }
  assert (Hq0 : 0 < 2 ^ (Zdigits2 M - n - 1)) by (apply pow2_pos; lia).
  apply Zdigits2_unique; lia.
Qed.

(** A value whose exponent is at most the one the format gives its
    magnitude is rounded to a number of the format. *)
Lemma binary_round_aux_valid (s : bool) (M E : Z) (l : location) :
  0 <= M -> E <= Z.max (Zdigits2 M + E - 53) (-1074) ->
  valid_binary (binary_round_aux prec emax s M E l) = true.
Proof.
  intros HM HE. unfold binary_round_aux.
  destruct (shr_fexp_spec M E l HM) as [He1 Hm1].
  destruct (shr_fexp prec emax M E l) as [r1 e1]. simpl fst in *. simpl snd in *.
  set (d := Zdigits2 M) in *. assert (Hd0 := Zdigits2_nonneg M). fold d in Hd0.
  assert (He1' : e1 = Z.max (d + E - 53) (-1074)) by lia. clear He1.
  assert (Hp1 := pow2_pos (e1 - E) ltac:(lia)).
  assert (Hm1lo : 0 <= shr_m r1).
  { rewrite Hm1. apply Z.div_pos; lia. }
  (* the first shift leaves at most 53 digits, as many as the exponent asks *)
  assert (Hm1d : (shr_m r1 = 0 /\ e1 = -1074) \/
                 (0 < shr_m r1 /\ Zdigits2 (shr_m r1) = d + E - e1)).
  { destruct (Z_lt_le_dec (e1 - E) d) as [Hlt|Hge].
    - right. assert (HMpos : 0 < M) by (destruct M; simpl in *; lia).
      rewrite Hm1. split.
      + destruct (Zdigits2_bounds M HMpos) as [Hlo _]. fold d in Hlo.
        assert (2 ^ (e1 - E) <= 2 ^ (d - 1)) by (apply Z.pow_le_mono_r; lia).
        assert (1 <= M / 2 ^ (e1 - E)) by (apply Z.div_le_lower_bound; lia).
        lia.
      + rewrite Zdigits2_div_pow2; fold d; lia.
    - left. split; [|lia]. rewrite Hm1.
      destruct (Z.eq_dec M 0) as [->|HMnz]; [apply Z.div_0_l; lia|].
      destruct (Zdigits2_bounds M ltac:(lia)) as [_ Hhi]. fold d in Hhi.
      assert (2 ^ d <= 2 ^ (e1 - E)) by (apply Z.pow_le_mono_r; lia).
      apply Z.div_small. lia. }
  pose proof (round_nearest_even_bounds (shr_m r1) (loc_of_shr_record r1)) as Hr.
  set (m' := round_nearest_even (shr_m r1) (loc_of_shr_record r1)) in *.
  assert (Hm' : 0 <= m') by lia.
  destruct (shr_fexp_spec m' e1 loc_Exact Hm') as [He2 Hm2].
  destruct (shr_fexp prec emax m' e1 loc_Exact) as [r2 e2]. simpl fst in *. simpl snd in *.
  destruct (Z.eq_dec m' 0) as [Hz|Hnz].
  { rewrite Hm2, Hz, Z.div_0_l; [reflexivity|].
    apply Z.pow_nonzero; lia. }
  assert (Hpos' : 0 < m') by lia.
  destruct (Zdigits2_bounds m' Hpos') as [Hlo' Hhi'].
  set (d' := Zdigits2 m') in *.
  assert (Hd'pos : 0 < d') by (apply Zdigits2_positive; exact Hpos').
  (* the digits after rounding: those before, or one more *)
  assert (Hd' : Z.max (d' + e1 - 53) (-1074) = e1 \/
                (d' = 54 /\ m' = 2 ^ 53 /\ -1074 <= e1)).
  { destruct Hm1d as [[Hz1 Hmin]|[Hpos1 Hdig1]].
    - left. assert (m' = 1) by lia.
      assert (d' = 1) by (unfold d'; replace m' with 1 by lia; reflexivity).
      lia.
    - destruct (Zdigits2_bounds _ Hpos1) as [Hlo1 Hhi1]. rewrite Hdig1 in Hlo1, Hhi1.
      pose proof (Zdigits2_positive _ Hpos1) as Hdpos1. rewrite Hdig1 in Hdpos1.
      destruct (Z.eq_dec m' (2 ^ (d + E - e1))) as [Heq|Hne].
      + assert (Hdd : d' = d + E - e1 + 1).
        { unfold d'. apply Zdigits2_unique; [|lia].
          replace (d + E - e1 + 1 - 1) with (d + E - e1) by lia.
          rewrite Heq. split; [lia|].
          rewrite Z.pow_add_r by lia. change (2 ^ 1) with 2.
          assert (0 < 2 ^ (d + E - e1)) by (apply pow2_pos; lia). lia. }
        destruct (Z_le_gt_dec d' 53) as [H53|H54].
        * left. lia.
        * right. assert (d + E - e1 = 53) by lia.
          split; [lia|]. split; [|lia]. rewrite Heq. f_equal. lia.
      + left. assert (Hdd : d' = d + E - e1).
        { unfold d'. apply Zdigits2_unique; lia. }
        lia. }
  assert (Hvalid : forall p : positive,
            shr_m r2 = Zpos p ->
            (if e2 <=? emax - prec then S754_finite s p e2 else S754_infinity s) =
              S754_infinity s \/
            valid_binary (S754_finite s p e2) = true).
  { intros p Hp. change (emax - prec) with 971.
    destruct (Z.leb_spec e2 971) as [Hok|Hbad]; [right|left; reflexivity].
    apply valid_binary_finite. split; [|exact Hok].
    change (Zdigits2 (Zpos p)) with (digits p) in *.
    destruct Hd' as [Hcan|(Hd54 & Hm53 & Hemin)].
    - assert (He21 : e2 = e1) by lia.
      rewrite He21, Z.sub_diag, Z.div_1_r in Hm2.
      assert (Hdp : digits p = d').
      { unfold d'. rewrite <- Hm2, Hp. reflexivity. }
      rewrite Hdp, He21. exact Hcan.
    - assert (He21 : e2 = e1 + 1) by lia.
      replace (e2 - e1) with 1 in Hm2 by lia.
      rewrite Hm53 in Hm2. change (2 ^ 53 / 2 ^ 1) with (2 ^ 52) in Hm2.
      assert (Hdp : digits p = 53).
      { apply digits_unique. rewrite <- Hp, Hm2. simpl. lia. }
      lia. }
  destruct (shr_m r2) as [|p|p] eqn:Hr2.
  - reflexivity.
  - destruct (Hvalid p eq_refl) as [-> | Hv]; [reflexivity|].
    destruct (e2 <=? emax - prec); [exact Hv|reflexivity].
  - reflexivity.
Qed.

Lemma binary_round_valid (s : bool) (m : positive) (e : Z) :
  valid_binary (binary_round prec emax s m e) = true.
Proof.
  unfold binary_round. rewrite fexp_eq. fold (digits m).
  set (F := Z.max (digits m + e - 53) (-1074)).
  pose proof (shl_align_snd m e F) as Hs.
  destruct (Z_le_gt_dec F e) as [Hle|Hgt].
  - pose proof (shl_align_fst m e F Hle) as Hf.
    destruct (shl_align m e F) as [mz ez]. simpl fst in Hf. simpl snd in Hs.
    apply binary_round_aux_valid; [lia|].
    change (Zdigits2 (Zpos mz)) with (digits mz).
    rewrite (digits_mul_pow2 m mz (e - F)) by (lia || exact Hf).
    unfold F in *. lia.
  - assert (Hsame : shl_align m e F = (m, e)).
    { unfold shl_align. destruct (F - e) as [|p|p] eqn:Hd; try reflexivity; lia. }
    rewrite Hsame. apply binary_round_aux_valid; [lia|].
    change (Zdigits2 (Zpos m)) with (digits m). unfold F in *. lia.
Qed.

Lemma binary_normalize_valid (m e : Z) (s : bool) :
  valid_binary (binary_normalize prec emax m e s) = true.
Proof.
  destruct m as [|p|p]; simpl; [reflexivity| |]; apply binary_round_valid.
Qed.

(** The numbers [Num.of_Z] and [Num.remainder] build are those their
    definitions round to. *)
Lemma Prim2SF_normalize (m e : Z) (s : bool) :
  Prim2SF (SF2Prim (binary_normalize prec emax m e s)) =
  binary_normalize prec emax m e s.
Proof. apply Prim2SF_SF2Prim, binary_normalize_valid. Qed.

(** The exponent of a rounded value is at least the one the format gives
    its magnitude. *)
Lemma binary_round_aux_exponent (s : bool) (M E : Z) (l : location) :
  0 <= M ->
  binary_round_aux prec emax s M E l = S754_zero s \/
  binary_round_aux prec emax s M E l = S754_infinity s \/
  exists m e, binary_round_aux prec emax s M E l = S754_finite s m e /\
    Zdigits2 M + E - 53 <= e.
Proof.
  intros HM. unfold binary_round_aux.
  destruct (shr_fexp_spec M E l HM) as [He1 Hm1].
  destruct (shr_fexp prec emax M E l) as [r1 e1]. simpl fst in *. simpl snd in *.
  assert (Hp1 := pow2_pos (e1 - E) ltac:(lia)).
  assert (Hm1lo : 0 <= shr_m r1).
  { rewrite Hm1. apply Z.div_pos; lia. }
  pose proof (round_nearest_even_bounds (shr_m r1) (loc_of_shr_record r1)) as Hr.
  set (m' := round_nearest_even (shr_m r1) (loc_of_shr_record r1)) in *.
  assert (Hm' : 0 <= m') by lia.
  destruct (shr_fexp_spec m' e1 loc_Exact Hm') as [He2 Hm2].
  destruct (shr_fexp prec emax m' e1 loc_Exact) as [r2 e2]. simpl fst in *. simpl snd in *.
  assert (Hp2 := pow2_pos (e2 - e1) ltac:(lia)).
  assert (Hm2lo : 0 <= shr_m r2).
  { rewrite Hm2. apply Z.div_pos; lia. }
  destruct (shr_m r2) as [|p|p]; [auto| |lia].
  destruct (e2 <=? emax - prec); [|auto].
  right. right. exists p, e2. split; [reflexivity|lia].
Qed.

End ValidityFacts.

(** ** Rounding and the order *)

Module MonotoneFacts.

Import SpecFloatFacts RoundingFacts ValidityFacts.

Local Open Scope Z_scope.

(** Rounding a value of at least [B * 2^k], a number of the format, gives
    at least that number. *)
Lemma binary_round_aux_above (s : bool) (M E : Z) (l : location) (B : positive) (k : Z) :
  0 < M -> E <= Z.max (Zdigits2 M + E - 53) (-1074) ->
  valid_binary (S754_finite false B k) = true ->
  Zpos B * 2 ^ (k - Z.min E k) <= M * 2 ^ (E - Z.min E k) ->
  binary_round_aux prec emax s M E l = S754_infinity s \/
  exists m e, binary_round_aux prec emax s M E l = S754_finite s m e /\
    k <= e /\ Zpos B <= Zpos m * 2 ^ (e - k).
Proof.
  intros HM HE HB Hle. unfold binary_round_aux.
  destruct (shr_fexp_spec M E l ltac:(lia)) as [He1 Hm1].
  destruct (shr_fexp prec emax M E l) as [r1 e1]. simpl fst in *. simpl snd in *.
  set (d := Zdigits2 M) in *.
  assert (Hdpos : 0 < d) by (apply Zdigits2_positive; exact HM).
  destruct (Zdigits2_bounds M HM) as [HMlo HMhi]. fold d in HMlo, HMhi.
  apply valid_binary_finite in HB. destruct HB as [HBc HBk].
  destruct (digits_bounds B) as [HBlo HBhi]. assert (HdB := digits_pos B).
  assert (HB53 : Zpos B < 2 ^ 53).
  { apply Z.lt_le_trans with (1 := HBhi). apply Z.pow_le_mono_r; lia. }
  set (z := Z.min E k) in *.
  assert (Hpz1 : 0 < 2 ^ (k - z)) by (apply pow2_pos; unfold z; lia).
  assert (Hpz2 : 0 < 2 ^ (E - z)) by (apply pow2_pos; unfold z; lia).
  (* the magnitude of the value is at least that of the bound *)
  assert (Hmag : digits B + k <= d + E).
  { assert (Hlt : 2 ^ (digits B - 1 + (k - z)) < 2 ^ (d + (E - z))).
    { rewrite !Z.pow_add_r by (unfold z; lia). nia. }
    apply Z.pow_lt_mono_r_iff in Hlt; unfold z in *; lia. }
  assert (He1' : e1 = Z.max (d + E - 53) (-1074)) by lia. clear He1.
  assert (Hk1 : k <= e1) by lia.
  assert (Hp1 := pow2_pos (e1 - E) ltac:(lia)).
  assert (Hp1k := pow2_pos (e1 - k) ltac:(lia)).
  assert (Hm1' : Zpos B <= shr_m r1 * 2 ^ (e1 - k) /\ 0 < shr_m r1).
  { destruct (Z.eq_dec e1 k) as [Heq|Hne].
    - assert (Hz : z = E) by (unfold z; lia).
      rewrite Hz, Z.sub_diag, Z.pow_0_r, Z.mul_1_r in Hle.
      rewrite Heq, Z.sub_diag, Z.pow_0_r, Z.mul_1_r.
      assert (Zpos B <= M / 2 ^ (k - E)).
      { apply Z.div_le_lower_bound; [apply pow2_pos; lia|lia]. }
      rewrite Hm1, Heq. lia.
    - assert (Hn : e1 - E = d - 53) by lia.
      assert (Hdig : Zdigits2 (shr_m r1) = 53).
      { rewrite Hm1, Hn, Zdigits2_div_pow2; fold d; lia. }
      assert (Hpos1 : 0 < shr_m r1).
      { assert (0 <= shr_m r1) by (rewrite Hm1; apply Z.div_pos; lia).
        destruct (shr_m r1) as [|p|p]; simpl in Hdig; lia. }
      destruct (Zdigits2_bounds _ Hpos1) as [Hlo1 _]. rewrite Hdig in Hlo1.
      change (2 ^ (53 - 1)) with 4503599627370496 in Hlo1.
      change (2 ^ 53) with 9007199254740992 in HB53.
      assert (2 ^ 1 <= 2 ^ (e1 - k)) by (apply Z.pow_le_mono_r; lia).
      change (2 ^ 1) with 2 in *. split; [nia|lia]. }
  destruct Hm1' as [Hm1B Hm1pos].
  pose proof (round_nearest_even_bounds (shr_m r1) (loc_of_shr_record r1)) as Hr.
  set (m' := round_nearest_even (shr_m r1) (loc_of_shr_record r1)) in *.
  assert (Hm'pos : 0 < m') by lia.
  assert (Hm'B : Zpos B <= m' * 2 ^ (e1 - k)) by nia.
  destruct (shr_fexp_spec m' e1 loc_Exact ltac:(lia)) as [He2 Hm2].
  destruct (shr_fexp prec emax m' e1 loc_Exact) as [r2 e2]. simpl fst in *. simpl snd in *.
  set (d' := Zdigits2 m') in *.
  assert (Hd'pos : 0 < d') by (apply Zdigits2_positive; exact Hm'pos).
  assert (Hk2 : k <= e2) by lia.
  assert (Hm2B : Zpos B <= shr_m r2 * 2 ^ (e2 - k) /\ 0 < shr_m r2).
  { destruct (Z.eq_dec e2 e1) as [Heq|Hne].
    - rewrite Hm2, Heq, Z.sub_diag, Z.div_1_r. split; assumption.
    - assert (Hn : e2 - e1 = d' - 53) by lia.
      assert (Hdig : Zdigits2 (shr_m r2) = 53).
      { rewrite Hm2, Hn, Zdigits2_div_pow2; fold d'; lia. }
      assert (Hpos2 : 0 < shr_m r2).
      { assert (0 <= shr_m r2).
        { rewrite Hm2. apply Z.div_pos; [lia|apply pow2_pos; lia]. }
        destruct (shr_m r2) as [|p|p]; simpl in Hdig; lia. }
      destruct (Zdigits2_bounds _ Hpos2) as [Hlo2 _]. rewrite Hdig in Hlo2.
      change (2 ^ (53 - 1)) with 4503599627370496 in Hlo2.
      change (2 ^ 53) with 9007199254740992 in HB53.
      assert (2 ^ 1 <= 2 ^ (e2 - k)) by (apply Z.pow_le_mono_r; lia).
      change (2 ^ 1) with 2 in *. split; [nia|lia]. }
  destruct Hm2B as [Hm2B Hm2pos].
  destruct (shr_m r2) as [|p|p]; try lia.
  destruct (e2 <=? emax - prec); [|left; reflexivity].
  right. exists p, e2. repeat split; assumption.
Qed.

(** What [shl_align] leaves for rounding: the same value, at an exponent
    that is at most the one the format gives it. *)
Lemma binary_round_aligned (s : bool) (m : positive) (e : Z) :
  exists (mz : positive) (ez : Z),
    binary_round prec emax s m e =
      binary_round_aux prec emax s (Zpos mz) ez loc_Exact /\
    ez <= e /\ Zpos mz = Zpos m * 2 ^ (e - ez) /\
    ez <= Z.max (digits mz + ez - 53) (-1074) /\
    (-1074 <= e -> -1074 <= ez).
Proof.
  unfold binary_round. rewrite fexp_eq. fold (digits m).
  set (F := Z.max (digits m + e - 53) (-1074)).
  pose proof (shl_align_snd m e F) as Hs.
  destruct (Z_le_gt_dec F e) as [Hle|Hgt].
  - pose proof (shl_align_fst m e F Hle) as Hf.
    destruct (shl_align m e F) as [mz ez]. simpl fst in Hf. simpl snd in Hs.
    rewrite Z.min_r in Hs by lia. subst ez.
    exists mz, F. split; [reflexivity|].
    split; [lia|]. split; [exact Hf|].
    rewrite (digits_mul_pow2 m mz (e - F)) by (lia || exact Hf).
    unfold F in *. lia.
  - assert (Hsame : shl_align m e F = (m, e)).
    { unfold shl_align. destruct (F - e) as [|p|p] eqn:Hd; try reflexivity; lia. }
    rewrite Hsame. exists m, e. split; [reflexivity|].
    split; [lia|]. split; [rewrite Z.sub_diag; simpl; lia|].
    unfold F in *. lia.
Qed.

(** A value below a positive number of the format is rounded to at most
    that number. *)
Lemma binary_round_le (p : positive) (ez : Z) (mx : positive) (ex : Z) :
  valid_binary (S754_finite false mx ex) = true -> ez <= ex ->
  Zpos p < Zpos mx * 2 ^ (ex - ez) ->
  SFleb (binary_round prec emax false p ez) (S754_finite false mx ex) = true.
Proof.
  intros Hv Hez Hlt.
  pose proof (binary_round_valid false p ez) as Hvr.
  destruct (binary_round_aligned false p ez) as (mz & ez' & Hr & Hez' & Hmz & _).
  rewrite Hr in Hvr |- *.
  destruct (valid_finite_inv _ _ _ Hv) as (Hex & Hdx & _).
  assert (Hp : 0 < 2 ^ (ez - ez')) by (apply pow2_pos; lia).
  destruct (binary_round_aux_below false (Zpos mz) ez' loc_Exact mx ex)
    as [Hz|(m & e & Hf & He & Hm)]; try lia.
  - rewrite Hmz. replace (ex - ez') with ((ex - ez) + (ez - ez')) by lia.
    rewrite Z.pow_add_r by lia. nia.
  - rewrite Hz. reflexivity.
  - rewrite Hf in Hvr |- *. unfold SFleb.
    rewrite (SFcompare_finite_pos m e mx ex Hvr Hv).
    rewrite Z.min_l by lia. rewrite Z.sub_diag, Z.pow_0_r, Z.mul_1_r.
    destruct (Z.compare_spec (Zpos m) (Zpos mx * 2 ^ (ex - e))); try reflexivity; lia.
Qed.

(** A value of at least a positive number of the format is rounded to at
    least that number. *)
Lemma binary_round_ge (p : positive) (ez : Z) (mx : positive) (ex : Z) :
  valid_binary (S754_finite false mx ex) = true -> ez <= ex ->
  Zpos mx * 2 ^ (ex - ez) <= Zpos p ->
  SFleb (S754_finite false mx ex) (binary_round prec emax false p ez) = true.
Proof.
  intros Hv Hez Hle.
  pose proof (binary_round_valid false p ez) as Hvr.
  destruct (binary_round_aligned false p ez) as (mz & ez' & Hr & Hez' & Hmz & Hcan & _).
  rewrite Hr in Hvr |- *.
  assert (Hp : 0 < 2 ^ (ez - ez')) by (apply pow2_pos; lia).
  destruct (binary_round_aux_above false (Zpos mz) ez' loc_Exact mx ex)
    as [Hinf|(m & e & Hf & He & Hm)]; try lia; try assumption.
  - rewrite Z.min_l by lia. rewrite Z.sub_diag, Z.pow_0_r, Z.mul_1_r, Hmz.
    replace (ex - ez') with ((ex - ez) + (ez - ez')) by lia.
    rewrite Z.pow_add_r by lia. nia.
  - rewrite Hinf. reflexivity.
  - rewrite Hf in Hvr |- *. unfold SFleb.
    rewrite (SFcompare_finite_pos mx ex m e Hv Hvr).
    rewrite Z.min_l by lia. rewrite Z.sub_diag, Z.pow_0_r, Z.mul_1_r.
    destruct (Z.compare_spec (Zpos mx) (Zpos m * 2 ^ (e - ex))); try reflexivity; lia.
Qed.

Lemma SFleb_opp (x y : spec_float) :
  SFleb (SFopp y) (SFopp x) = SFleb x y.
Proof.
  unfold SFleb.
  destruct x as [sx|sx| |sx mx ex], y as [sy|sy| |sy my ey]; cbn [SFopp];
    try destruct sx; try destruct sy; try reflexivity; cbn [negb].
  - now rewrite SFcompare_finite_neg.
  - now rewrite <- SFcompare_finite_neg.
Qed.

(** The sum of the mantissas of a finite number and of a number that is
    not negative, rounded, is at least the first number. *)
Lemma binary_normalize_ge (S ez : Z) (sx : bool) (mx : positive) (ex : Z) :
  valid_binary (S754_finite sx mx ex) = true -> ez <= ex -> -1074 <= ez ->
  cond_Zopp sx (Zpos mx * 2 ^ (ex - ez)) < S ->
  SFleb (S754_finite sx mx ex) (binary_normalize prec emax S ez false) = true.
Proof.
  intros Hv Hez Hmin Hlt.
  assert (Hp : 0 < Zpos mx * 2 ^ (ex - ez)).
  { apply Z.mul_pos_pos; [lia|apply pow2_pos; lia]. }
  destruct S as [|p|p]; simpl binary_normalize.
  - destruct sx; [reflexivity|cbn [cond_Zopp] in Hlt; lia].
  - destruct sx.
    + destruct (binary_round_nonzero false p ez Hmin) as [(m & e & ->)| ->];
        reflexivity.
    + apply binary_round_ge; [exact Hv|exact Hez|cbn [cond_Zopp] in Hlt; lia].
  - destruct sx; [|cbn [cond_Zopp] in Hlt; lia].
    pose proof (binary_round_opp false p ez) as Ho. simpl negb in Ho.
    rewrite Ho. change (S754_finite true mx ex) with (SFopp (S754_finite false mx ex)).
    rewrite SFleb_opp.
    apply binary_round_le; [exact Hv|exact Hez|cbn [cond_Zopp] in Hlt; lia].
Qed.

Lemma binary_normalize_le (S ez : Z) (sx : bool) (mx : positive) (ex : Z) :
  valid_binary (S754_finite sx mx ex) = true -> ez <= ex -> -1074 <= ez ->
  S < cond_Zopp sx (Zpos mx * 2 ^ (ex - ez)) ->
  SFleb (binary_normalize prec emax S ez false) (S754_finite sx mx ex) = true.
Proof.
  intros Hv Hez Hmin Hlt.
  assert (Hp : 0 < Zpos mx * 2 ^ (ex - ez)).
  { apply Z.mul_pos_pos; [lia|apply pow2_pos; lia]. }
  destruct S as [|p|p]; simpl binary_normalize.
  - destruct sx; [cbn [cond_Zopp] in Hlt; lia|reflexivity].
  - destruct sx; [cbn [cond_Zopp] in Hlt; lia|].
    apply binary_round_le; [exact Hv|exact Hez|cbn [cond_Zopp] in Hlt; lia].
  - destruct sx.
    + pose proof (binary_round_opp false p ez) as Ho. simpl negb in Ho.
      rewrite Ho. change (S754_finite true mx ex) with (SFopp (S754_finite false mx ex)).
      rewrite SFleb_opp.
      apply binary_round_ge; [exact Hv|exact Hez|cbn [cond_Zopp] in Hlt; lia].
    + destruct (binary_round_nonzero true p ez Hmin) as [(m & e & ->)| ->];
        reflexivity.
Qed.

(** Subtracting a number that is not negative from a finite number gives
    no more, and adding it no less. *)
Lemma SFsub_le (x d : spec_float) :
  valid_binary x = true -> valid_binary d = true ->
  (exists s, x = S754_zero s) \/ (exists s m e, x = S754_finite s m e) ->
  SFleb (S754_zero false) d = true ->
  SFleb (SFsub prec emax x d) x = true /\ SFleb x (SFadd prec emax x d) = true.
Proof.
  intros Hvx Hvd Hx Hd.
  destruct d as [sd|sd| |sd md ed]; try discriminate.
  - (* a zero *)
    destruct Hx as [[s ->]|(s & m & e & ->)].
    + destruct s, sd; split; reflexivity.
    + split; simpl; unfold SFleb; rewrite SFcompare_refl; try reflexivity; discriminate.
  - (* +infinity *)
    destruct sd; [discriminate|].
    destruct Hx as [[s ->]|(s & m & e & ->)]; split; try reflexivity;
      destruct s; reflexivity.
  - apply leb_zero_finite in Hd. subst sd.
    destruct Hx as [[s ->]|(s & m & e & ->)].
    + split; reflexivity.
    + destruct (valid_finite_inv _ _ _ Hvx) as (Hex & _).
      destruct (valid_finite_inv _ _ _ Hvd) as (Hed & _).
      unfold SFsub, SFadd. rewrite !shl_align_fst by lia.
      assert (HD : 0 < Zpos md * 2 ^ (ed - Z.min e ed)).
      { apply Z.mul_pos_pos; [lia|apply pow2_pos; lia]. }
      change (cond_Zopp false (Zpos md * 2 ^ (ed - Z.min e ed)))
        with (Zpos md * 2 ^ (ed - Z.min e ed)).
      split.
      * apply binary_normalize_le; try assumption; lia.
      * apply binary_normalize_ge; try assumption; lia.
Qed.

End MonotoneFacts.

(** ** Facts about the built-in functions *)

Module BuiltinFacts.

Import SpecFloatFacts RoundingFacts FloatFacts.

Local Open Scope Z_scope.

(** The representation of a non-zero integer below [2^53]. *)
Lemma Prim2SF_of_Z (n : Z) :
  n <> 0 -> Z.abs n < 2 ^ 53 ->
  exists mz : positive,
    Prim2SF (Num.of_Z n) = S754_finite (n <? 0) mz (Zdigits2 n - 53) /\
    Zpos mz = Z.abs n * 2 ^ (53 - Zdigits2 n) /\
    Zdigits2 n <= 53 /\
    valid_binary (S754_finite (n <? 0) mz (Zdigits2 n - 53)) = true.
Proof.
  intros Hn Hlt. unfold Num.of_Z.
  assert (Hcase : exists p, Z.abs n = Zpos p /\ Zdigits2 n = digits p /\
            binary_normalize prec emax n 0 false =
              binary_round prec emax (n <? 0) p 0).
  { destruct n as [|p|p]; [now elim Hn| |]; exists p; repeat split. }
  destruct Hcase as (p & Hp & Hd & ->). rewrite Hp in Hlt |- *. rewrite Hd.
  assert (Hd53 : digits p <= 53) by (apply digits_le; exact Hlt).
  assert (Hdp := digits_pos p).
  destruct (binary_round_exact (n <? 0) p 0 Hd53 ltac:(lia) ltac:(lia))
    as (mz & Hr & Hmz & Hv).
  replace (Z.max (digits p + 0 - 53) (-1074)) with (digits p - 53) in * by lia.
  exists mz. rewrite Hr, (Prim2SF_SF2Prim _ Hv).
  repeat split; try assumption.
  rewrite Hmz. f_equal. f_equal. lia.
Qed.

(** A finite number whose mantissa is [V * 2^(-e)] denotes [V]. *)
Lemma to_Z_exact (x : float) (s : bool) (m : positive) (e V : Z) :
  Prim2SF x = S754_finite s m e -> e <= 0 -> Zpos m = V * 2 ^ (- e) ->
  Num.to_Z x = Some (cond_Zopp s V).
Proof.
  intros Hx He Hm. unfold Num.to_Z. rewrite Hx.
  destruct (Z.leb_spec 0 e) as [H0|Hneg].
  - assert (e = 0) by lia. subst e. simpl in Hm. do 2 f_equal. simpl. lia.
  - assert (Hp := pow2_pos (- e) ltac:(lia)).
    rewrite Hm, Z.mod_mul, Z.div_mul by lia. reflexivity.
Qed.

Lemma to_Z_of_Z (n : Z) : Z.abs n < 2 ^ 53 -> Num.to_Z (Num.of_Z n) = Some n.
Proof.
  intros Hlt. destruct (Z.eq_dec n 0) as [->|Hn]; [reflexivity|].
  destruct (Prim2SF_of_Z n Hn Hlt) as (mz & Hr & Hmz & Hd & _).
  rewrite (to_Z_exact _ _ _ _ (Z.abs n) Hr); try lia.
  - f_equal. destruct (Z.ltb_spec n 0); simpl; lia.
  - rewrite Hmz. f_equal. f_equal. lia.
Qed.

(** The mantissa of a finite number that denotes an integer. *)
Lemma to_Z_inv (x : float) (s : bool) (m : positive) (e V : Z) :
  Prim2SF x = S754_finite s m e -> Num.to_Z x = Some V ->
  exists W, 0 < W /\ V = cond_Zopp s W /\
    forall ez, ez <= e -> ez <= 0 -> Zpos m * 2 ^ (e - ez) = W * 2 ^ (- ez).
Proof.
  intros Hx. unfold Num.to_Z. rewrite Hx.
  destruct (Z.leb_spec 0 e) as [H0|Hneg].
  - intros [= <-]. exists (Zpos m * 2 ^ e).
    assert (Hp := pow2_pos e H0). split; [nia|]. split; [reflexivity|].
    intros ez _ Hez. replace (e - ez) with (e + - ez) by lia.
    rewrite Z.pow_add_r by lia. ring.
  - assert (Hp := pow2_pos (- e) ltac:(lia)).
    destruct (Z.eqb_spec (Zpos m mod 2 ^ (- e)) 0) as [Hmod|]; [|discriminate].
    intros [= <-]. exists (Zpos m / 2 ^ (- e)).
    pose proof (Z.div_mod (Zpos m) (2 ^ (- e)) ltac:(lia)) as Hdm.
    rewrite Hmod, Z.add_0_r in Hdm.
    split; [nia|]. split; [reflexivity|].
    intros ez Hez _. rewrite Hdm at 1.
    replace (- ez) with (- e + (e - ez)) by lia.
    rewrite (Z.pow_add_r 2 (- e) (e - ez)) by lia. ring.
Qed.

(** [Math.round] of a finite number is an integer of the same sign. *)
Lemma Math_round_finite (x : float) (s : bool) (m : positive) (e : Z) :
  Prim2SF x = S754_finite s m e ->
  exists W, 0 <= W /\
    Num.to_Z (Num.Math_round x) = Some (cond_Zopp s W) /\
    (Prim2SF (Num.Math_round x) = S754_zero s \/
     exists m' e', Prim2SF (Num.Math_round x) = S754_finite s m' e').
Proof.
  intros Hx. pose proof (Prim2SF_valid x) as Hv. rewrite Hx in Hv.
  destruct (valid_finite_bounds _ _ _ Hv) as (Hmhi & _).
  unfold Num.Math_round. rewrite Hx.
  destruct (Z.leb_spec 0 e) as [H0|Hneg].
  - exists (Zpos m * 2 ^ e). assert (Hp := pow2_pos e H0).
    split; [nia|]. split; [|right; eauto].
    unfold Num.to_Z. rewrite Hx.
    destruct (Z.leb_spec 0 e); [reflexivity|lia].
  - set (n := (2 * cond_Zopp s (Zpos m) + 2 ^ (- e)) / 2 ^ (- e + 1)).
    assert (Hp : 2 <= 2 ^ (- e)).
    { change 2 with (2 ^ 1) at 1. apply Z.pow_le_mono_r; lia. }
    assert (Hp1 : 2 ^ (- e + 1) = 2 * 2 ^ (- e)).
    { rewrite Z.pow_add_r by lia. change (2 ^ 1) with 2. ring. }
    assert (Hn : n = cond_Zopp s (Z.abs n) /\ Z.abs n < 2 ^ 53).
    { change (2 ^ 53) with 9007199254740992 in *.
      assert (Hpos : 0 < 2 * 2 ^ (- e)) by lia.
      destruct s; unfold cond_Zopp in n.
      - assert (Hhi : n <= 0).
        { apply Z.lt_succ_r. unfold n. rewrite Hp1.
          apply Z.div_lt_upper_bound; lia. }
        assert (Hlo : - 9007199254740992 < n).
        { apply Z.lt_le_trans with (- Zpos m); [lia|].
          unfold n. rewrite Hp1. apply Z.div_le_lower_bound; nia. }
        simpl cond_Zopp. lia.
      - assert (Hlo : 0 <= n).
        { unfold n. rewrite Hp1. apply Z.div_pos; lia. }
        assert (Hhi : n < 9007199254740992).
        { unfold n. rewrite Hp1. apply Z.div_lt_upper_bound; nia. }
        simpl cond_Zopp. lia. }
    destruct Hn as [Hsign Habs]. clearbody n.
    exists (Z.abs n). split; [lia|].
    destruct (Z.eqb_spec n 0) as [Hz|Hnz].
    + subst n. split; [destruct s; reflexivity|left; destruct s; reflexivity].
    + split; [rewrite to_Z_of_Z by exact Habs; f_equal; exact Hsign|].
      right. destruct (Prim2SF_of_Z n Hnz Habs) as (mz & Hr & _).
      assert (Hs : (n <? 0) = s).
      { destruct s; simpl in Hsign; destruct (Z.ltb_spec n 0); try reflexivity; lia. }
      rewrite Hs in Hr. eauto.
Qed.

(** The remainder of two finite numbers, computed on their mantissas
    scaled to the smaller exponent, is exactly representable. *)
Lemma remainder_finite (n d : float) (sn : bool) (mn : positive) (en : Z)
  (sd : bool) (md : positive) (ed : Z) :
  Prim2SF n = S754_finite sn mn en -> Prim2SF d = S754_finite sd md ed ->
  let ez := Z.min en ed in
  let R := (Zpos mn * 2 ^ (en - ez)) mod (Zpos md * 2 ^ (ed - ez)) in
  let e' := Z.max (Zdigits2 R + ez - 53) (-1074) in
  0 <= R < Zpos md * 2 ^ (ed - ez) /\
  ((R = 0 /\ Prim2SF (Num.remainder n d) = S754_zero sn) \/
   (exists mz : positive,
      Prim2SF (Num.remainder n d) = S754_finite sn mz e' /\
      e' <= ez /\ Zpos mz = R * 2 ^ (ez - e') /\
      valid_binary (S754_finite sn mz e') = true)).
Proof.
  intros Hn Hd ez R e'.
  pose proof (Prim2SF_valid n) as Hvn. rewrite Hn in Hvn.
  pose proof (Prim2SF_valid d) as Hvd. rewrite Hd in Hvd.
  destruct (valid_finite_bounds _ _ _ Hvn) as (Hmn & _).
  destruct (valid_finite_inv _ _ _ Hvn) as (Hen & _).
  destruct (valid_finite_bounds _ _ _ Hvd) as (Hmd & _).
  destruct (valid_finite_inv _ _ _ Hvd) as (Hed & _).
  assert (HpN := pow2_pos (en - ez) ltac:(unfold ez; lia)).
  assert (HpD := pow2_pos (ed - ez) ltac:(unfold ez; lia)).
  assert (HR : 0 <= R < Zpos md * 2 ^ (ed - ez)).
  { unfold R. apply Z.mod_pos_bound. nia. }
  assert (HRN : R <= Zpos mn * 2 ^ (en - ez)).
  { unfold R. apply Z.mod_le; nia. }
  split; [exact HR|].
  unfold Num.remainder. rewrite Hn, Hd. fold ez. fold R.
  destruct R as [|p|p] eqn:HRp; [left|right|lia].
  - split; [reflexivity|]. destruct sn; reflexivity.
  - assert (Hp53 : Zpos p < 2 ^ 53).
    { destruct (Z_le_gt_dec en ed) as [Hle|Hgt].
      - replace (en - ez) with 0 in HRN by (unfold ez; lia). simpl in HRN. lia.
      - replace (ed - ez) with 0 in HR by (unfold ez; lia). simpl in HR. lia. }
    assert (Hdig : digits p <= 53) by (apply digits_le; exact Hp53).
    assert (Hdp := digits_pos p).
    assert (Hnorm : binary_normalize prec emax (cond_Zopp sn (Zpos p)) ez sn =
                    binary_round prec emax sn p ez) by (destruct sn; reflexivity).
    rewrite Hnorm.
    destruct (binary_round_exact sn p ez Hdig ltac:(unfold ez; lia)
                ltac:(unfold ez; lia)) as (mz & Hr & Hmz & Hv).
    exists mz. rewrite Hr, (Prim2SF_SF2Prim _ Hv).
    change (Zdigits2 (Zpos p)) with (digits p) in e'. fold e' in Hmz, Hv |- *.
    repeat split; try assumption. unfold e', ez. lia.
Qed.

(** The remainder by 8 of a number that denotes an integer. *)
Lemma remainder_8_integer (y : float) (s : bool) (W : Z) :
  0 <= W -> Num.to_Z y = Some (cond_Zopp s W) ->
  (Prim2SF y = S754_zero s \/ exists m e, Prim2SF y = S754_finite s m e) ->
  Num.to_Z (Num.remainder y 8) = Some (cond_Zopp s (W mod 8)).
Proof.
  intros HW Hto [Hy|(m & e & Hy)].
  - assert (Hr : Num.remainder y 8 = y).
    { unfold Num.remainder. rewrite Hy. reflexivity. }
    rewrite Hr, Hto. unfold Num.to_Z in Hto. rewrite Hy in Hto.
    assert (W = 0) by (destruct s; simpl in Hto; injection Hto; lia).
    subst W. reflexivity.
  - destruct (to_Z_inv y s m e _ Hy Hto) as (W' & HW' & HV & Hscale).
    assert (W' = W) by (destruct s; simpl in HV; lia). subst W'.
    destruct (remainder_finite y 8 s m e false 4503599627370496 (-49) Hy eq_refl)
      as (HR & Hrem).
    cbv zeta in HR, Hrem.
    set (ez := Z.min e (-49)) in *.
    assert (Hez : ez <= e /\ ez <= -49) by (unfold ez; lia).
    assert (Hp := pow2_pos (- ez) ltac:(lia)).
    assert (HD : 4503599627370496 * 2 ^ (-49 - ez) = 8 * 2 ^ (- ez)).
    { replace (- ez) with (49 + (-49 - ez)) by lia.
      rewrite Z.pow_add_r by lia. change (2 ^ 49) with 562949953421312. ring. }
    rewrite (Hscale ez ltac:(lia) ltac:(lia)), HD in HR, Hrem.
    rewrite Z.mul_mod_distr_r in HR, Hrem by lia.
    pose proof (Z.mod_pos_bound W 8 ltac:(lia)) as Hk.
    destruct Hrem as [[Hz Hrem]|(mz & Hrem & He' & Hmz & _)].
    + assert (Hk0 : W mod 8 = 0) by nia. rewrite Hk0.
      unfold Num.to_Z. rewrite Hrem. destruct s; reflexivity.
    + set (e' := Z.max (Zdigits2 (W mod 8 * 2 ^ (- ez)) + ez - 53) (-1074)) in *.
      apply (to_Z_exact _ _ _ _ (W mod 8) Hrem); [lia|].
      rewrite Hmz, <- Z.mul_assoc, <- Z.pow_add_r by lia.
      f_equal. f_equal. lia.
Qed.

(** Dividing a finite number by 45 gives a zero or a finite number of the
    same sign. *)
Lemma div_45_finite (x : float) (s : bool) (m : positive) (e : Z) :
  Prim2SF x = S754_finite s m e ->
  Prim2SF (x / 45)%float = S754_zero s \/
  exists m' e', Prim2SF (x / 45)%float = S754_finite s m' e'.
Proof.
  intros Hx. pose proof (Prim2SF_valid x) as Hv. rewrite Hx in Hv.
  destruct (valid_finite_bounds _ _ _ Hv) as (Hmhi & _).
  destruct (valid_finite_inv _ _ _ Hv) as (He & Hdig & _).
  rewrite div_spec, Hx.
  change (Prim2SF 45) with (S754_finite false 6333186975989760 (-47)).
  unfold SF64div, SFdiv, SFdiv_core_binary.
  change (Zdigits2 (Zpos 6333186975989760)) with 53.
  change (Zdigits2 (Zpos m)) with (digits m). rewrite fexp_eq.
  set (e' := Z.min (Z.max (digits m + e - (53 + -47) - 53) (-1074)) (e - -47)).
  assert (Hdp := digits_pos m).
  assert (He' : e' <= e /\ e' <= e + 47) by (unfold e'; lia).
  set (m' := match e - -47 - e' with
             | Z0 => Zpos m
             | Zpos _ => Z.shiftl (Zpos m) (e - -47 - e')
             | Zneg _ => 0
             end).
  assert (Hm' : m' = Zpos m * 2 ^ (e + 47 - e')).
  { unfold m'. replace (e - -47 - e') with (e + 47 - e') by lia.
    destruct (e + 47 - e') as [|p|p] eqn:Hs; try lia.
    rewrite Z.shiftl_mul_pow2 by lia. reflexivity. }
  pose proof (Z_div_mod m' 6333186975989760 ltac:(lia)) as Hdm.
  destruct (Z.div_eucl m' 6333186975989760) as [q r].
  destruct Hdm as [Hq Hr].
  assert (Hps : 0 < 2 ^ (e - e')) by (apply pow2_pos; lia).
  assert (Hsplit : 2 ^ (e + 47 - e') = 140737488355328 * 2 ^ (e - e')).
  { replace (e + 47 - e') with (47 + (e - e')) by lia.
    rewrite Z.pow_add_r by lia. reflexivity. }
  rewrite Hsplit in Hm'.
  assert (Hq0 : 0 <= q) by nia.
  assert (Hqk : q < Zpos m * 2 ^ (e - e')) by nia.
  rewrite xorb_false_r.
  destruct (binary_round_aux_below s q e' (new_location 6333186975989760 r) m e
              Hq0 ltac:(lia) Hqk Hdig ltac:(lia))
    as [Hz|(mf & ef & Hf & _)].
  - left. exact Hz.
  - right. eauto.
Qed.

End BuiltinFacts.

(** ** The further functions on sample inputs *)

Example Number_toFixed_samples :
  map (fun x => @Number_toFixed SmallAngle.host x 1)
    [1; 2.5; 1.05; 0.25; -0.25; 0.04; -0.04; 99.95; 123.456] =
  ["1.0"; "2.5"; "1.1"; "0.3"; "-0.3"; "0.0"; "-0.0"; "100.0"; "123.5"] /\
  map (fun x => @Number_toFixed SmallAngle.host x 2) [1.005; 0.005; 12] =
  ["1.00"; "0.01"; "12.00"] /\
  map (fun x => @Number_toFixed SmallAngle.host x 0) [0.5; 1.5; 2.5] =
  ["1"; "2"; "3"].
Proof. repeat split; reflexivity. Qed.

Example formatDistance_samples :
  map (@formatDistance SmallAngle.host)
    [0; 12.4; 999; 999.4; 999.5; 1000; 1049; 1050; 2500; 12345.678; -5] =
  ["0m"; "12m"; "999m"; "999m"; "1000m"; "1.0km"; "1.0km"; "1.1km"; "2.5km";
   "12.3km"; "-5m"].
Proof. reflexivity. Qed.

Example getBearing_samples :
  @getBearing SmallAngle.host 0 0 1 1 = 57.295779513082323 /\
  @getDirection (@getBearing SmallAngle.host 0 0 1 1) = VString "NE".
Proof. split; reflexivity. Qed.

(** ** More on the validator and the verifier *)

Section Validator.
Context {H : Host}.

Import FloatFacts.

Lemma typeof_number (v : value) :
  typeof v = "number" -> exists x, v = VNumber x.
Proof. destruct v; simpl; try discriminate. eauto. Qed.

(** The numbers the validator accepts are finite. *)
Lemma valid_coordinates_finite (x y : float) :
  isValidCoordinates (VNumber x) (VNumber y) = true ->
  is_finite x = true /\ is_finite y = true.
Proof.
  intros Hvalid.
  destruct (isValidCoordinates_inv x y Hvalid) as [[Hlat1 Hlat2] [Hlon1 Hlon2]].
  split.
  - apply (SFbounded_finite _ 7). now apply latitude_bounded.
  - apply (SFbounded_finite _ 8). now apply longitude_bounded.
Qed.

(** X1: the validator accepts numbers only, and only finite ones: strings,
    [null], NaN and the infinities are rejected. *)
Theorem isValidCoordinates_finite (lat lon : value) :
  isValidCoordinates lat lon = true ->
  exists x y : float,
    lat = VNumber x /\ lon = VNumber y /\
    is_finite x = true /\ is_finite y = true /\
    is_nan x = false /\ is_nan y = false.
Proof.
  intros Hvalid.
  assert (Htypes : typeof lat = "number" /\ typeof lon = "number").
  { unfold isValidCoordinates in Hvalid.
    rewrite !andb_true_iff, !String.eqb_eq in Hvalid. tauto. }
  destruct Htypes as [Hlat Hlon].
  destruct (typeof_number lat Hlat) as [x ->].
  destruct (typeof_number lon Hlon) as [y ->].
  destruct (valid_coordinates_finite x y Hvalid) as [Hfx Hfy].
  destruct (isValidCoordinates_inv x y Hvalid) as [[_ Hlat2] [_ Hlon2]].
  exists x, y. repeat split; try assumption.
  - apply (leb_not_nan _ _ Hlat2).
  - apply (leb_not_nan _ _ Hlon2).
Qed.

End Validator.

(** ** The outcomes of the location verifier *)

Section VerifyOutcomes.
Context {H : Host}.

Import FloatFacts SpecFloatFacts RoundingFacts ValidityFacts.

#[local] Arguments ToNumber : simpl never.
#[local] Arguments isValidCoordinates : simpl never.
#[local] Arguments calculateDistance : simpl never.
#[local] Arguments Num.Math_max : simpl never.
#[local] Arguments Num.Math_round : simpl never.
#[local] Arguments String.eqb : simpl never.
#[local] Arguments or_else : simpl never.
#[local] Arguments OptGet : simpl never.

(** Only the number 2 equals 2: the length of an array of any other size
    does not. *)
Lemma of_Z_eqb_2 (n : nat) :
  (Num.of_Z (Z.of_nat n) =? 2) = true -> n = 2%nat.
Proof.
  rewrite FloatAxioms.eqb_spec. unfold Num.of_Z. rewrite Prim2SF_normalize.
  change (Prim2SF 2) with (S754_finite false 4503599627370496 (-51)).
  destruct (Z.of_nat n) as [|p|p] eqn:Hn; try lia; simpl binary_normalize.
  - discriminate.
  - assert (Hdp := digits_pos p).
    destruct (Z_le_gt_dec (digits p) 53) as [Hd|Hd].
    + destruct (binary_round_exact false p 0 Hd ltac:(lia) ltac:(lia))
        as (mz & -> & Hmz & _).
      replace (Z.max (digits p + 0 - 53) (-1074)) with (digits p - 53)%Z in * by lia.
      unfold SFeqb. cbn [SFcompare].
      destruct (Z.compare_spec (digits p - 53) (-51)) as [He|He|He]; try discriminate.
      destruct (Pos.compare_cont Eq mz 4503599627370496) eqn:Hc; try discriminate.
      apply Pos.compare_eq in Hc. subst mz. intros _.
      replace (0 - (digits p - 53))%Z with 51%Z in Hmz by lia.
      change (2 ^ 51)%Z with 2251799813685248%Z in Hmz. lia.
    + unfold binary_round. rewrite fexp_eq. fold (digits p).
      assert (Hsame : shl_align p 0 (Z.max (digits p + 0 - 53) (-1074)) = (p, 0%Z)).
      { unfold shl_align.
        destruct (Z.max (digits p + 0 - 53) (-1074) - 0)%Z eqn:Hs; try reflexivity; lia. }
      rewrite Hsame.
      destruct (binary_round_aux_exponent false (Zpos p) 0 loc_Exact ltac:(lia))
        as [-> |[-> |(m & e & -> & He)]]; try discriminate.
      change (Zdigits2 (Zpos p)) with (digits p) in He.
      unfold SFeqb. cbn [SFcompare].
      destruct (Z.compare_spec e (-51)) as [He'|He'|He']; try discriminate; lia.
Qed.

Lemma length_not_two (elems : list value) :
  (forall c0 c1, elems <> [c0; c1]) ->
  strict_equals_number (length_of elems) 2 = false.
Proof.
  intros Hne. unfold length_of, strict_equals_number.
  destruct (Num.of_Z (Z.of_nat (List.length elems)) =? 2) eqn:E; [exfalso|reflexivity].
  apply of_Z_eqb_2 in E.
  destruct elems as [|c0 [|c1 [|c2 rest]]]; try discriminate.
  now apply (Hne c0 c1).
Qed.

(** What the [catch] clause makes of a conversion that throws. *)
Lemma verifyLocation_catch_not_primitive (targetLocation : value) :
  verifyLocation_catch targetLocation not_primitive =
    Normal (failure (or_else (OptGet targetLocation "radiusMeters") VNull)
              "Cannot convert object to primitive value").
Proof. reflexivity. Qed.

(** The outcomes of [verifyLocation], by the checks and conversions made in
    turn: the three failures, the fault of a conversion, which the [catch]
    clause answers, and the verdict of the distance evaluation. *)
Lemma verifyLocation_outcomes (submittedLocation targetLocation : value) :
  let radius := OptGet targetLocation "radiusMeters" in
  let coords := OptGet targetLocation "coordinates" in
  let fault :=
    Normal (failure (or_else radius VNull)
              "Cannot convert object to primitive value") in
  ((typeof (OptGet submittedLocation "latitude") <> "number" \/
    typeof (OptGet submittedLocation "longitude") <> "number") /\
   verifyLocation submittedLocation targetLocation =
     Normal (failure (or_else radius VNull) "Location data not provided")) \/
  (exists lat lon,
     OptGet submittedLocation "latitude" = VNumber lat /\
     OptGet submittedLocation "longitude" = VNumber lon /\
     (ToNumber (or_else radius (VNumber 50)) = Throw not_primitive /\
      verifyLocation submittedLocation targetLocation = fault \/
      exists ra,
        ToNumber (or_else radius (VNumber 50)) = Normal ra /\
        let allowedRadius := Num.Math_max 10 ra in
        ((forall c0 c1, coords <> VArray [c0; c1]) /\
         verifyLocation submittedLocation targetLocation =
           Normal (failure (VNumber allowedRadius)
                     "Quest target location not configured") \/
         exists c0 c1,
           coords = VArray [c0; c1] /\
           ((ToNumber c0 = Throw not_primitive \/
             (exists targetLon, ToNumber c0 = Normal targetLon) /\
             ToNumber c1 = Throw not_primitive) /\
            verifyLocation submittedLocation targetLocation = fault \/
            exists targetLon targetLat,
              ToNumber c0 = Normal targetLon /\
              ToNumber c1 = Normal targetLat /\
              (isValidCoordinates (VNumber lat) (VNumber lon) &&
               isValidCoordinates (VNumber targetLat) (VNumber targetLon) = false /\
               verifyLocation submittedLocation targetLocation =
                 Normal (failure (VNumber allowedRadius) "Invalid coordinates") \/
               isValidCoordinates (VNumber lat) (VNumber lon) = true /\
               isValidCoordinates (VNumber targetLat) (VNumber targetLon) = true /\
               let distanceMeters :=
                 Num.Math_round
                   (calculateDistance lat lon targetLat targetLon) in
               verifyLocation submittedLocation targetLocation =
                 Normal
                   {| vr_passed := distanceMeters <=? allowedRadius;
                      vr_withinRadius := distanceMeters <=? allowedRadius;
                      vr_distanceMeters := VNumber distanceMeters;
                      vr_allowedRadius := VNumber allowedRadius;
                      vr_message :=
                        VString
                          (if distanceMeters <=? allowedRadius
                           then "✅ Location verified (" ++
                                NumberToString distanceMeters ++ "m away)"
                           else "❌ Location mismatch (" ++
                                NumberToString distanceMeters ++
                                "m away, allowed " ++
                                NumberToString allowedRadius ++ "m)") |}))))).
Proof.
  intros radius coords fault.
  destruct (negb (String.eqb (typeof (OptGet submittedLocation "latitude")) "number") ||
            negb (String.eqb (typeof (OptGet submittedLocation "longitude")) "number"))
    eqn:Hp.
  { left. split.
    - rewrite orb_true_iff, !negb_true_iff, !String.eqb_neq in Hp. exact Hp.
    - unfold verifyLocation, verifyLocation_try. rewrite Hp. reflexivity. }
  right. apply presence_check in Hp. destruct Hp as [Hlat Hlon].
  destruct (typeof_number _ Hlat) as [lat Elat].
  destruct (typeof_number _ Hlon) as [lon Elon].
  exists lat, lon. split; [exact Elat|]. split; [exact Elon|].
  unfold verifyLocation, verifyLocation_try. rewrite Elat, Elon.
  change (typeof (VNumber lat)) with "number".
  change (typeof (VNumber lon)) with "number".
  change (String.eqb "number" "number") with true. simpl negb. simpl orb.
  cbv iota. fold radius. fold coords.
  destruct (ToNumber (or_else radius (VNumber 50))) as [ra|e] eqn:Hra.
  2:{ left. rewrite (ToNumber_throws _ _ Hra). split; [reflexivity|].
      cbn [bind try_catch]. apply verifyLocation_catch_not_primitive. }
  right. exists ra. split; [reflexivity|]. cbv zeta. cbn [bind].
  destruct coords as [ | |b|x|str|elems|props] eqn:Hc;
    try (left; split; [intros c0 c1; discriminate|reflexivity]).
  simpl Array_isArray. simpl negb. cbv iota.
  rewrite Get_length_array. cbn [bind].
  destruct (strict_equals_number (length_of elems) 2) eqn:Hlen.
  - unfold length_of, strict_equals_number in Hlen.
    apply of_Z_eqb_2 in Hlen.
    destruct elems as [|c0 [|c1 [|c2 rest]]]; try discriminate.
    right. exists c0, c1. split; [reflexivity|].
    simpl negb. cbv iota.
    change (Get (VArray [c0; c1]) "0") with (Normal c0).
    change (Get (VArray [c0; c1]) "1") with (Normal c1).
    cbn [bind].
    destruct (ToNumber c0) as [targetLon|e0] eqn:Hc0.
    2:{ left. rewrite (ToNumber_throws _ _ Hc0). split; [now left|].
        cbn [bind try_catch]. apply verifyLocation_catch_not_primitive. }
    cbn [bind].
    destruct (ToNumber c1) as [targetLat|e1] eqn:Hc1.
    2:{ left. rewrite (ToNumber_throws _ _ Hc1).
        split; [right; split; [now exists targetLon|reflexivity]|].
        cbn [bind try_catch]. apply verifyLocation_catch_not_primitive. }
    cbn [bind]. right. exists targetLon, targetLat.
    split; [reflexivity|]. split; [reflexivity|].
    destruct (isValidCoordinates (VNumber lat) (VNumber lon));
      destruct (isValidCoordinates (VNumber targetLat) (VNumber targetLon));
      simpl negb; simpl orb; cbv iota; auto.
  - left. split; [|reflexivity].
    intros c0 c1 [= ->]. vm_compute in Hlen. discriminate.
Qed.

End VerifyOutcomes.

(** ** What follows from the outcomes of the verifier *)

Section VerifyConsequences.
Context {H : Host}.

Import FloatFacts.

#[local] Arguments ToNumber : simpl never.
#[local] Arguments isValidCoordinates : simpl never.
#[local] Arguments calculateDistance : simpl never.
#[local] Arguments Num.Math_max : simpl never.
#[local] Arguments Num.Math_round : simpl never.
#[local] Arguments or_else : simpl never.
#[local] Arguments OptGet : simpl never.

(** The allowed radius made of a radius that is a number is at least 10. *)
Lemma Math_max_10_not_nan (x : float) :
  is_nan x = false -> (10 <=? Num.Math_max 10 x) = true.
Proof.
  intros Hnan. unfold Num.Math_max. change (is_nan 10) with false.
  rewrite Hnan. simpl orb. cbv iota.
  destruct (10 <? x) eqn:Hlt; [now apply ltb_leb|].
  destruct (x <? 10); reflexivity.
Qed.

(** A radius that cannot be converted is truthy: the default of 50 does not
    replace it, and the [catch] clause reports it as it is. *)
Lemma radius_fault_truthy (radius e : value) :
  ToNumber (or_else radius (VNumber 50)) = Throw e ->
  or_else radius (VNumber 50) = radius /\ or_else radius VNull = radius.
Proof.
  unfold or_else. destruct (ToBoolean radius); [tauto|discriminate].
Qed.

(** C2: for inputs of any shape [verifyLocation] returns a result and
    raises nothing.  Every failure is a result with [passed = false], no
    distance and a message: missing data, an unconfigured target and
    out-of-range coordinates each with its own phrase, and a fault of the
    [try] block, a conversion that throws at the radius or at a coordinate
    of the target, caught and answered by the [catch] clause with the
    fault's description as [message]. *)
Theorem verifyLocation_never_throws (submittedLocation targetLocation : value) :
  let radius := OptGet targetLocation "radiusMeters" in
  let coords := OptGet targetLocation "coordinates" in
  let present :=
    typeof (OptGet submittedLocation "latitude") = "number" /\
    typeof (OptGet submittedLocation "longitude") = "number" in
  let returns (r : VerificationResult) :=
    verifyLocation submittedLocation targetLocation = Normal r in
  (exists r, returns r /\
     ((vr_passed r = false /\ vr_withinRadius r = false /\
       vr_distanceMeters r = VNull /\
       exists message, message <> "" /\ vr_message r = VString message) \/
      (exists d a msg,
         vr_distanceMeters r = VNumber d /\ vr_allowedRadius r = VNumber a /\
         vr_withinRadius r = (d <=? a) /\ vr_passed r = vr_withinRadius r /\
         vr_message r = VString msg))) /\
  (typeof (OptGet submittedLocation "latitude") <> "number" \/
   typeof (OptGet submittedLocation "longitude") <> "number" ->
   returns (failure (or_else radius VNull) "Location data not provided")) /\
  (present ->
   forall ra,
     ToNumber (or_else radius (VNumber 50)) = Normal ra ->
     (forall c0 c1, coords <> VArray [c0; c1]) ->
     returns (failure (VNumber (Num.Math_max 10 ra))
                "Quest target location not configured")) /\
  (present ->
   forall ra c0 c1 targetLon targetLat,
     ToNumber (or_else radius (VNumber 50)) = Normal ra ->
     coords = VArray [c0; c1] ->
     ToNumber c0 = Normal targetLon ->
     ToNumber c1 = Normal targetLat ->
     isValidCoordinates (OptGet submittedLocation "latitude")
       (OptGet submittedLocation "longitude") &&
     isValidCoordinates (VNumber targetLat) (VNumber targetLon) = false ->
     returns (failure (VNumber (Num.Math_max 10 ra)) "Invalid coordinates")) /\
  (present ->
   forall description,
     ToNumber (or_else radius (VNumber 50)) = Throw (TypeError description) \/
     (exists ra c0 c1,
        ToNumber (or_else radius (VNumber 50)) = Normal ra /\
        coords = VArray [c0; c1] /\
        (ToNumber c0 = Throw (TypeError description) \/
         (exists targetLon, ToNumber c0 = Normal targetLon) /\
         ToNumber c1 = Throw (TypeError description))) ->
     returns (failure (or_else radius VNull) description)) /\
  (present ->
   forall props v,
     radius = VObject props -> lookup "toString" props = Some v ->
     returns (failure radius "Cannot convert object to primitive value")).
Proof.
  intros radius coords present returns. unfold returns, present.
  pose proof (verifyLocation_outcomes submittedLocation targetLocation) as Hout.
  cbv zeta in Hout. fold radius coords in Hout.
  assert (Hfault : forall description,
            TypeError description = not_primitive ->
            description = "Cannot convert object to primitive value").
  { intros description [= ->]. reflexivity. }
  split; [|split; [|split; [|split; [|split]]]].
  - destruct Hout
      as [[_ Hv]|(lat & lon & _ & _ &
           [[_ Hv]|(ra & _ &
             [[_ Hv]|(c0 & c1 & _ &
               [[_ Hv]|(tlon & tlat & _ & _ & [[_ Hv]|(_ & _ & Hv)])])])])];
      rewrite Hv; eexists; (split; [reflexivity|]);
      try (left; repeat split; eexists; split; [|reflexivity]; discriminate).
    right. eexists _, _, _. repeat split; reflexivity.
  - intros Hmissing.
    destruct Hout as [[_ Hv]|(lat & lon & Hlat & Hlon & _)]; [exact Hv|].
    rewrite Hlat, Hlon in Hmissing. destruct Hmissing as [Hno|Hno]; now elim Hno.
  - intros [Hlat Hlon] ra Hra Hne.
    destruct Hout
      as [[[Hno|Hno] _]|(lat & lon & _ & _ &
           [[Hthrow _]|(ra' & Hra' & [[_ Hv]|(c0 & c1 & Hc & _)])])];
      congruence.
  - intros [Hlat Hlon] ra c0 c1 targetLon targetLat Hra Hc Hc0 Hc1 Hinvalid.
    destruct Hout
      as [[[Hno|Hno] _]|(lat & lon & Elat & Elon &
           [[Hthrow _]|(ra' & Hra' &
             [[Hne _]|(c0' & c1' & Hc' &
               [[[Hthrow|[_ Hthrow]] _]|
                (tlon & tlat & Hc0' & Hc1' & [[_ Hv]|(Hvu & Hvt & _)])])])])];
      try congruence.
    assert (tlon = targetLon) as -> by congruence.
    assert (tlat = targetLat) as -> by congruence.
    rewrite Elat, Elon, Hvu, Hvt in Hinvalid. discriminate.
  - intros [Hlat Hlon] description Hthrown.
    assert (Hdescription : description = "Cannot convert object to primitive value").
    { apply Hfault.
      destruct Hthrown as [Ht|(ra & c0 & c1 & _ & _ & [Ht|[_ Ht]])];
        exact (ToNumber_throws _ _ Ht). }
    subst description.
    destruct Hout
      as [[[Hno|Hno] _]|(lat & lon & _ & _ &
           [[_ Hv]|(ra' & Hra' &
             [[Hne _]|(c0' & c1' & Hc' &
               [[_ Hv]|(tlon & tlat & Hc0' & Hc1' & _)])])])];
      try congruence; try exact Hv.
    + destruct Hthrown as [Ht|(ra & c0 & c1 & _ & Hc & _)]; [congruence|].
      now elim (Hne c0 c1).
    + destruct Hthrown as [Ht|(ra & c0 & c1 & _ & Hc & [Ht|[_ Ht]])];
        congruence.
  - intros [Hlat Hlon] props v Hradius Hown.
    pose proof (ToNumber_own_toString props v Hown) as Hthrow.
    rewrite <- Hradius in Hthrow.
    assert (Hraw : or_else radius (VNumber 50) = radius /\
                   or_else radius VNull = radius).
    { rewrite Hradius. split; reflexivity. }
    destruct Hraw as [Hraw Hnull].
    destruct Hout
      as [[[Hno|Hno] _]|(lat & lon & _ & _ & [[_ Hv]|(ra' & Hra' & _)])];
      congruence.
Qed.

(** C3 (amended): once the presence check has passed and no conversion
    throws, the result carries
    [allowedRadius = max(10, Number(target.radiusMeters || 50))] whatever
    the outcome.  That value is at least 10 unless it is NaN; it is 50 where
    [radiusMeters] is absent or falsy, and NaN where it is truthy and
    converts to no number; it agrees with the design document's
    [max(10, numeric(radiusMeters) or 50)] where [radiusMeters] is a number
    or absent; and a [radiusMeters] of 5 gives 10.  Where the conversion of
    the radius or of a coordinate of the target pair throws, the result
    carries [radiusMeters || null] as it was given, not clamped. *)
Theorem verifyLocation_allowedRadius (submittedLocation targetLocation : value) :
  typeof (OptGet submittedLocation "latitude") = "number" ->
  typeof (OptGet submittedLocation "longitude") = "number" ->
  let radius := OptGet targetLocation "radiusMeters" in
  let coords := OptGet targetLocation "coordinates" in
  exists r,
    verifyLocation submittedLocation targetLocation = Normal r /\
    (forall ra,
       ToNumber (or_else radius (VNumber 50)) = Normal ra ->
       let allowed := Num.Math_max 10 ra in
       ((forall c0 c1, coords = VArray [c0; c1] ->
           exists targetLon targetLat,
             ToNumber c0 = Normal targetLon /\ ToNumber c1 = Normal targetLat) ->
        vr_allowedRadius r = VNumber allowed) /\
       (is_nan allowed = true \/ (10 <=? allowed) = true) /\
       (ToBoolean radius = false -> allowed = 50) /\
       (ToBoolean radius = true -> is_nan ra = true -> is_nan allowed = true) /\
       (radius = VUndefined \/ radius = VNull \/ (exists x, radius = VNumber x) ->
        allowed = allowedRadius_spec targetLocation) /\
       (radius = VNumber 5 -> allowed = 10)) /\
    ((exists e, ToNumber (or_else radius (VNumber 50)) = Throw e) \/
     (exists c0 c1 e,
        coords = VArray [c0; c1] /\
        (ToNumber c0 = Throw e \/ ToNumber c1 = Throw e)) ->
     vr_allowedRadius r = or_else radius VNull).
Proof.
  intros Hlat Hlon radius coords.
  pose proof (verifyLocation_outcomes submittedLocation targetLocation) as Hout.
  cbv zeta in Hout. fold radius coords in Hout.
  assert (Hfacts : forall ra,
            ToNumber (or_else radius (VNumber 50)) = Normal ra ->
            let allowed := Num.Math_max 10 ra in
            (is_nan allowed = true \/ (10 <=? allowed) = true) /\
            (ToBoolean radius = false -> allowed = 50) /\
            (ToBoolean radius = true -> is_nan ra = true -> is_nan allowed = true) /\
            (radius = VUndefined \/ radius = VNull \/ (exists x, radius = VNumber x) ->
             allowed = allowedRadius_spec targetLocation) /\
            (radius = VNumber 5 -> allowed = 10)).
  { intros ra Hra allowed.
    split; [apply Math_max_10_floor|].
    split; [|split; [|split]].
    - intros Hfalsy. unfold or_else in Hra. rewrite Hfalsy in Hra.
      injection Hra as <-. reflexivity.
    - intros _ Hnan. unfold allowed, Num.Math_max.
      rewrite Hnan, orb_true_r. reflexivity.
    - unfold allowed, allowedRadius_spec. fold radius.
      intros [Hrad|[Hrad|[x Hrad]]]; rewrite Hrad in Hra |- *;
        try (injection Hra as <-; reflexivity).
      unfold or_else in Hra. simpl ToBoolean in Hra |- *.
      change (ToNumber (VNumber x)) with (Normal x). cbv iota.
      destruct (negb (is_zero x || is_nan x));
        injection Hra as <-; reflexivity.
    - intros Hrad. rewrite Hrad in Hra. injection Hra as <-. reflexivity. }
  destruct Hout
    as [[[Hno|Hno] _]|(lat & lon & _ & _ &
         [[Hthrow Hv]|(ra' & Hra' &
           [[Hne Hv]|(c0' & c1' & Hc' &
             [[Hthrow Hv]|
              (tlon & tlat & Hc0' & Hc1' & [[_ Hv]|(_ & _ & Hv)])])])])];
    try congruence; rewrite Hv; eexists; (split; [reflexivity|]).
  - split.
    + intros ra Hra. congruence.
    + intros _. reflexivity.
  - split.
    + intros ra Hra. assert (ra' = ra) as -> by congruence.
      split; [intros _; reflexivity|]. exact (Hfacts ra Hra).
    + intros [[e He]|(c0 & c1 & e & Hc & _)]; [congruence|].
      now elim (Hne c0 c1).
  - split.
    + intros ra Hra. assert (ra' = ra) as -> by congruence.
      split; [|exact (Hfacts ra Hra)].
      intros Hconverts. exfalso.
      destruct (Hconverts c0' c1' Hc') as (tlon & tlat & Hc0 & Hc1).
      destruct Hthrow as [Ht|[_ Ht]]; congruence.
    + intros _. reflexivity.
  - split.
    + intros ra Hra. assert (ra' = ra) as -> by congruence.
      split; [intros _; reflexivity|]. exact (Hfacts ra Hra).
    + intros [[e He]|(c0 & c1 & e & Hc & Ht)]; [congruence|].
      exfalso. destruct Ht as [Ht|Ht]; congruence.
  - split.
    + intros ra Hra. assert (ra' = ra) as -> by congruence.
      split; [intros _; reflexivity|]. exact (Hfacts ra Hra).
    + intros [[e He]|(c0 & c1 & e & Hc & Ht)]; [congruence|].
      exfalso. destruct Ht as [Ht|Ht]; congruence.
Qed.

(** X2: a verdict [passed = true] is only given after every check: the
    submitted latitude and longitude are numbers in range, the target has
    a pair of coordinates that convert to numbers in range, and the rounded
    distance between the two is at most the allowed radius, which is at
    least 10. *)
Theorem verifyLocation_passed_sound
  (submittedLocation targetLocation : value) (r : VerificationResult) :
  verifyLocation submittedLocation targetLocation = Normal r ->
  vr_passed r = true ->
  exists (lat lon : float) (c0 c1 : value) (targetLon targetLat d a : float),
    OptGet submittedLocation "latitude" = VNumber lat /\
    OptGet submittedLocation "longitude" = VNumber lon /\
    OptGet targetLocation "coordinates" = VArray [c0; c1] /\
    ToNumber c0 = Normal targetLon /\
    ToNumber c1 = Normal targetLat /\
    isValidCoordinates (VNumber lat) (VNumber lon) = true /\
    isValidCoordinates (VNumber targetLat) (VNumber targetLon) = true /\
    d = Num.Math_round (calculateDistance lat lon targetLat targetLon) /\
    vr_distanceMeters r = VNumber d /\
    vr_allowedRadius r = VNumber a /\
    (d <=? a) = true /\ (10 <=? a) = true /\
    vr_withinRadius r = true.
Proof.
  intros Hr Hpassed.
  destruct (verifyLocation_outcomes submittedLocation targetLocation)
    as [[_ Hv]|(lat & lon & Hlat & Hlon &
         [[_ Hv]|(ra & Hra &
           [[_ Hv]|(c0 & c1 & Hc &
             [[_ Hv]|(tlon & tlat & Hc0 & Hc1 & [[_ Hv]|Hv])])])])];
    try (rewrite Hv in Hr; injection Hr as <-; discriminate Hpassed).
  destruct Hv as (Hvu & Hvt & Hv). cbv zeta in Hv.
  rewrite Hv in Hr. injection Hr as <-. simpl in Hpassed |- *.
  exists lat, lon, c0, c1, tlon, tlat.
  exists (Num.Math_round (calculateDistance lat lon tlat tlon)).
  exists (Num.Math_max 10 ra).
  repeat split; try assumption.
  destruct (Math_max_10_floor ra) as [Hnan|Hle]; [|exact Hle].
  destruct (leb_not_nan _ _ Hpassed) as [_ Hok]. congruence.
Qed.

(** X3: once the submitted latitude and longitude are numbers, a target
    whose [coordinates] are anything but an array of exactly two elements
    is answered "Quest target location not configured", before any
    coordinate is range-checked, provided its radius converts.  The radius
    is converted first: where that throws, the answer is the fault's, with
    the radius as it was given. *)
Theorem verifyLocation_not_configured (submittedLocation targetLocation : value) :
  typeof (OptGet submittedLocation "latitude") = "number" ->
  typeof (OptGet submittedLocation "longitude") = "number" ->
  (forall c0 c1, OptGet targetLocation "coordinates" <> VArray [c0; c1]) ->
  let radius := OptGet targetLocation "radiusMeters" in
  (forall ra,
     ToNumber (or_else radius (VNumber 50)) = Normal ra ->
     verifyLocation submittedLocation targetLocation =
       Normal
         {| vr_passed := false;
            vr_withinRadius := false;
            vr_distanceMeters := VNull;
            vr_allowedRadius := VNumber (Num.Math_max 10 ra);
            vr_message := VString "Quest target location not configured" |}) /\
  (forall e,
     ToNumber (or_else radius (VNumber 50)) = Throw e ->
     verifyLocation submittedLocation targetLocation =
       Normal
         {| vr_passed := false;
            vr_withinRadius := false;
            vr_distanceMeters := VNull;
            vr_allowedRadius := radius;
            vr_message := VString "Cannot convert object to primitive value" |}).
Proof.
  intros Hlat Hlon Hne radius.
  pose proof (verifyLocation_outcomes submittedLocation targetLocation) as Hout.
  cbv zeta in Hout. fold radius in Hout.
  split.
  - intros ra Hra.
    destruct Hout
      as [[[Hbad|Hbad] _]|(lat & lon & _ & _ &
           [[Hthrow _]|(ra' & Hra' & [[_ Hv]|(c0 & c1 & Hc & _)])])];
      try congruence.
    assert (ra' = ra) as -> by congruence. exact Hv.
  - intros e He. destruct (radius_fault_truthy radius e He) as [_ Hraw].
    destruct Hout
      as [[[Hbad|Hbad] _]|(lat & lon & _ & _ & [[_ Hv]|(ra' & Hra' & _)])];
      try congruence.
    rewrite Hv, Hraw. reflexivity.
Qed.

(** X4: with numbers submitted, a radius that converts and a pair of target
    coordinates that convert, a coordinate out of range on either side is
    answered "Invalid coordinates"; so is one that is NaN or infinite, and
    the target pair is read as [[longitude, latitude]]. *)
Theorem verifyLocation_invalid_coordinates
  (submittedLocation targetLocation : value) (lat lon : float) (c0 c1 : value)
  (radius targetLon targetLat : float) :
  OptGet submittedLocation "latitude" = VNumber lat ->
  OptGet submittedLocation "longitude" = VNumber lon ->
  OptGet targetLocation "coordinates" = VArray [c0; c1] ->
  ToNumber (or_else (OptGet targetLocation "radiusMeters") (VNumber 50)) =
    Normal radius ->
  ToNumber c0 = Normal targetLon ->
  ToNumber c1 = Normal targetLat ->
  isValidCoordinates (VNumber lat) (VNumber lon) = false \/
  isValidCoordinates (VNumber targetLat) (VNumber targetLon) = false \/
  is_finite lat = false \/ is_finite lon = false \/
  is_finite targetLat = false \/ is_finite targetLon = false ->
  verifyLocation submittedLocation targetLocation =
    Normal
      {| vr_passed := false;
         vr_withinRadius := false;
         vr_distanceMeters := VNull;
         vr_allowedRadius := VNumber (Num.Math_max 10 radius);
         vr_message := VString "Invalid coordinates" |}.
Proof.
  intros Hlat Hlon Hc Hradius Hc0 Hc1 Hbad.
  assert (Hinvalid : isValidCoordinates (VNumber lat) (VNumber lon) &&
                     isValidCoordinates (VNumber targetLat) (VNumber targetLon) =
                     false).
  { destruct (isValidCoordinates (VNumber lat) (VNumber lon)) eqn:Hvu;
      [|reflexivity].
    destruct (isValidCoordinates (VNumber targetLat) (VNumber targetLon))
      eqn:Hvt; [exfalso|reflexivity].
    destruct (valid_coordinates_finite _ _ Hvu) as [Hfx Hfy].
    destruct (valid_coordinates_finite _ _ Hvt) as [Hfx' Hfy'].
    intuition congruence. }
  destruct (verifyLocation_outcomes submittedLocation targetLocation)
    as [[[Hno|Hno] _]|(lat' & lon' & Hlat' & Hlon' &
         [[Hthrow _]|(ra' & Hra' &
           [[Hne _]|(c0' & c1' & Hc' &
             [[[Hthrow|[_ Hthrow]] _]|
              (tlon & tlat & Hc0' & Hc1' & [[_ Hv]|(Hvu & Hvt & _)])])])])];
    try congruence.
  - rewrite Hlat in Hno. now elim Hno.
  - rewrite Hlon in Hno. now elim Hno.
  - assert (ra' = radius) as -> by congruence.
    exact Hv.
  - assert (lat' = lat) as -> by congruence.
    assert (lon' = lon) as -> by congruence.
    assert (tlon = targetLon) as -> by congruence.
    assert (tlat = targetLat) as -> by congruence.
    rewrite Hvu, Hvt in Hinvalid. discriminate.
Qed.

(** X5: a valid point verified against a target at the same coordinates
    passes at distance 0, whatever radius the target carries, provided
    the radius converts to a number. *)
Theorem verifyLocation_same_point
  (submittedLocation targetLocation : value) (lat lon radius : float) :
  sin_zero H -> cos_bounded H -> atan2_zero H ->
  OptGet submittedLocation "latitude" = VNumber lat ->
  OptGet submittedLocation "longitude" = VNumber lon ->
  OptGet targetLocation "coordinates" = VArray [VNumber lon; VNumber lat] ->
  isValidCoordinates (VNumber lat) (VNumber lon) = true ->
  ToNumber (or_else (OptGet targetLocation "radiusMeters") (VNumber 50)) =
    Normal radius ->
  is_nan radius = false ->
  exists r,
    verifyLocation submittedLocation targetLocation = Normal r /\
    vr_passed r = true /\ vr_withinRadius r = true /\
    vr_distanceMeters r = VNumber 0 /\
    vr_message r =
      VString ("✅ Location verified (" ++ NumberToString 0 ++ "m away)").
Proof.
  intros Hsin Hcos Hatan Hlat Hlon Hc Hvalid Hconverts Hradius.
  eexists. split.
  - apply (verifyLocation_evaluates _ _ lat lon (VNumber lon) (VNumber lat)
             radius lon lat); try assumption; reflexivity.
  - rewrite (calculateDistance_same_point lat lon Hsin Hcos Hatan Hvalid).
    change (Num.Math_round 0) with 0.
    assert (Hle : (0 <=? Num.Math_max 10 radius) = true).
    { apply leb_trans with 10; [reflexivity|].
      now apply Math_max_10_not_nan. }
    cbn [vr_passed vr_withinRadius vr_distanceMeters vr_message].
    rewrite Hle. repeat split; reflexivity.
Qed.

(** X6: the verdict depends on the submitted location only through its
    [latitude] and [longitude] and on the target only through its
    [coordinates] and [radiusMeters]: no other field, such as the
    [accuracy] of the fix, is read. *)
Theorem verifyLocation_reads
  (submittedLocation submittedLocation' targetLocation targetLocation' : value) :
  OptGet submittedLocation "latitude" = OptGet submittedLocation' "latitude" ->
  OptGet submittedLocation "longitude" = OptGet submittedLocation' "longitude" ->
  OptGet targetLocation "coordinates" = OptGet targetLocation' "coordinates" ->
  OptGet targetLocation "radiusMeters" = OptGet targetLocation' "radiusMeters" ->
  verifyLocation submittedLocation targetLocation =
  verifyLocation submittedLocation' targetLocation'.
Proof.
  intros Hlat Hlon Hc Hr.
  unfold verifyLocation, verifyLocation_try, verifyLocation_catch.
  rewrite Hlat, Hlon, Hc, Hr. reflexivity.
Qed.

End VerifyConsequences.

(** ** The radius test *)

Section IsWithinRadius.
Context {H : Host}.

Import FloatFacts.

(** X7: the radius test does not depend on which of the two points is the
    user's and which the target's. *)
Theorem isWithinRadius_symmetric
  (userLat userLon targetLat targetLon radiusMeters : float) :
  sin_odd H ->
  isWithinRadius userLat userLon targetLat targetLon radiusMeters =
  isWithinRadius targetLat targetLon userLat userLon radiusMeters.
Proof.
  intros Hodd. unfold isWithinRadius. cbv zeta.
  rewrite (calculateDistance_sym userLat userLon targetLat targetLon Hodd).
  reflexivity.
Qed.

(** X8: a valid point is within every radius of at least 0 of itself, at
    the reported distance 0; within no radius that is NaN or negative. *)
Theorem isWithinRadius_same_point (lat lon radiusMeters : float) :
  sin_zero H -> cos_bounded H -> atan2_zero H ->
  isValidCoordinates (VNumber lat) (VNumber lon) = true ->
  isWithinRadius lat lon lat lon radiusMeters =
    {| wr_isWithin := 0 <=? radiusMeters;
       wr_distance := 0;
       wr_radiusMeters := radiusMeters |} /\
  ((0 <=? radiusMeters) = true ->
   wr_isWithin (isWithinRadius lat lon lat lon radiusMeters) = true) /\
  (is_nan radiusMeters = true \/ (radiusMeters <? 0) = true ->
   wr_isWithin (isWithinRadius lat lon lat lon radiusMeters) = false).
Proof.
  intros Hsin Hcos Hatan Hvalid. unfold isWithinRadius. cbv zeta.
  rewrite (calculateDistance_same_point lat lon Hsin Hcos Hatan Hvalid).
  split; [reflexivity|]. cbn [wr_isWithin]. split; [tauto|].
  intros [Hnan|Hneg].
  - destruct (0 <=? radiusMeters) eqn:Hle; [|reflexivity].
    destruct (leb_not_nan _ _ Hle) as [_ Hok]. congruence.
  - now apply ltb_not_leb.
Qed.

End IsWithinRadius.

(** ** More on the nearby-location helper *)

Section FindNearbyMore.
Context {H : Host}.

Import FloatFacts.

Lemma findNearby_In (userLat userLon : float) (locations : list Location)
  (maxDistanceMeters : float) (n : Nearby) :
  In n (findNearby userLat userLon locations maxDistanceMeters) <->
  exists location, In location locations /\
    n = {| nb_object := loc_toObject location;
           nb_distance :=
             calculateDistance userLat userLon
               (loc_lat location) (loc_lon location) |} /\
    (nb_distance n <=? maxDistanceMeters) = true.
Proof.
  rewrite findNearby_eq.
  set (attach := fun location =>
         {| nb_object := loc_toObject location;
            nb_distance :=
              calculateDistance userLat userLon
                (loc_lat location) (loc_lon location) |}).
  set (within := filter (fun loc => nb_distance loc <=? maxDistanceMeters)
                   (map attach locations)).
  assert (Hperm : Permutation
            (Array_sort (fun a b => nb_distance a - nb_distance b) within) within)
    by apply Array_sort_perm.
  split.
  - intros Hin. apply (Permutation_in _ Hperm) in Hin.
    apply filter_In in Hin. destruct Hin as [Hin Hle].
    apply in_map_iff in Hin. destruct Hin as (location & <- & Hloc).
    exists location. split; [exact Hloc|]. split; [reflexivity|exact Hle].
  - intros (location & Hloc & -> & Hle).
    apply (Permutation_in _ (Permutation_sym Hperm)).
    apply filter_In. split; [|exact Hle].
    apply (in_map attach). exact Hloc.
Qed.

Lemma filter_none {A : Type} (f : A -> bool) (l : list A) :
  (forall x, f x = false) -> filter f l = [].
Proof.
  intros Hf. induction l as [|x rest IH]; simpl; [reflexivity|].
  now rewrite Hf.
Qed.

(** X9: a candidate at the user's own valid position is found, at
    distance 0, for every maximal distance of at least 0. *)
Theorem findNearby_own_position (userLat userLon : float)
  (locations : list Location) (maxDistanceMeters : float) (location : Location) :
  sin_zero H -> cos_bounded H -> atan2_zero H ->
  isValidCoordinates (VNumber userLat) (VNumber userLon) = true ->
  (0 <=? maxDistanceMeters) = true ->
  In location locations ->
  loc_lat location = userLat -> loc_lon location = userLon ->
  In {| nb_object := loc_toObject location; nb_distance := 0 |}
     (findNearby userLat userLon locations maxDistanceMeters).
Proof.
  intros Hsin Hcos Hatan Hvalid Hmax Hin Hlat Hlon.
  apply findNearby_In. exists location. split; [exact Hin|].
  rewrite Hlat, Hlon.
  rewrite (calculateDistance_same_point userLat userLon Hsin Hcos Hatan Hvalid).
  split; [reflexivity|exact Hmax].
Qed.

(** X10: no list gives more results than it has candidates; an empty list
    and a maximal distance that is NaN give none; and a larger maximal
    distance loses no result. *)
Theorem findNearby_bounds (userLat userLon : float) (locations : list Location)
  (maxDistanceMeters : float) :
  (List.length (findNearby userLat userLon locations maxDistanceMeters) <=
   List.length locations)%nat /\
  findNearby userLat userLon [] maxDistanceMeters = [] /\
  (is_nan maxDistanceMeters = true ->
   findNearby userLat userLon locations maxDistanceMeters = []) /\
  (forall larger : float,
     (maxDistanceMeters <=? larger) = true ->
     forall n, In n (findNearby userLat userLon locations maxDistanceMeters) ->
               In n (findNearby userLat userLon locations larger)).
Proof.
  split; [|split; [|split]].
  - rewrite findNearby_eq.
    rewrite (Permutation_length (Array_sort_perm _ _)).
    etransitivity; [apply filter_length_le|].
    rewrite length_map. apply le_n.
  - reflexivity.
  - intros Hnan. rewrite findNearby_eq.
    rewrite filter_none; [reflexivity|].
    intros n. destruct (nb_distance n <=? maxDistanceMeters) eqn:Hle; [|reflexivity].
    destruct (leb_not_nan _ _ Hle) as [_ Hok]. congruence.
  - intros larger Hle n Hin.
    apply findNearby_In in Hin. destruct Hin as (location & Hloc & Hn & Hd).
    apply findNearby_In. exists location. split; [exact Hloc|].
    split; [exact Hn|]. now apply leb_trans with maxDistanceMeters.
Qed.

End FindNearbyMore.

(** ** Narrowing the search *)

Section FindNearbyNarrow.
Context {H : Host}.

Import FloatFacts.

Local Abbreviation by_distance :=
  (fun a b : Nearby => nb_distance a - nb_distance b).
Local Abbreviation closer :=
  (fun a b : Nearby => (nb_distance a <=? nb_distance b) = true).
Local Abbreviation measured := (fun n : Nearby => is_nan (nb_distance n) = false).

Lemma sort_insert_first (x : Nearby) (l : list Nearby) :
  Forall (closer x) l -> sort_insert by_distance x l = x :: l.
Proof.
  intros Hl. destruct l as [|y rest]; [reflexivity|].
  inversion Hl as [|y' rest' Hxy _]; subst. cbn [sort_insert]. cbv beta in *.
  rewrite sub_positive.
  destruct (nb_distance y <? nb_distance x) eqn:Hlt; [|reflexivity].
  rewrite (ltb_not_leb _ _ Hlt) in Hxy. discriminate.
Qed.

Section Within.
Variable p : Nearby -> bool.
Hypothesis p_closer : forall a b, p b = true -> closer a b -> p a = true.

(** Inserting into a sorted list and keeping the elements within a bound
    can be done in either order. *)
Lemma sort_insert_filter (x : Nearby) (l : list Nearby) :
  measured x -> Forall measured l -> StronglySorted closer l ->
  filter p (sort_insert by_distance x l) =
  if p x then sort_insert by_distance x (filter p l) else filter p l.
Proof.
  intros Hx Hl Hs. induction l as [|y rest IH].
  - simpl. destruct (p x); reflexivity.
  - inversion Hl as [|y' rest' Hy Hrest]; subst.
    inversion Hs as [|y' rest' Hsr Hall]; subst.
    specialize (IH Hrest Hsr).
    cbn [sort_insert]. cbv beta in *. rewrite sub_positive.
    destruct (nb_distance y <? nb_distance x) eqn:Hlt.
    + cbn [filter]. rewrite IH.
      destruct (p x) eqn:Hpx.
      * rewrite (p_closer y x Hpx (ltb_leb _ _ Hlt)).
        cbn [sort_insert]. cbv beta. rewrite sub_positive, Hlt.
        reflexivity.
      * reflexivity.
    + change (filter p (x :: y :: rest))
        with (if p x then x :: filter p (y :: rest) else filter p (y :: rest)).
      destruct (p x) eqn:Hpx; [|reflexivity].
      symmetry. apply sort_insert_first.
      assert (Hxy : (nb_distance x <=? nb_distance y) = true)
        by (apply not_ltb_leb; assumption).
      apply Forall_forall. intros z Hz. apply filter_In in Hz. destruct Hz as [Hz _].
      destruct Hz as [<-|Hz]; [exact Hxy|].
      rewrite Forall_forall in Hall.
      exact (leb_trans _ _ _ Hxy (Hall z Hz)).
Qed.

Lemma Array_sort_filter (l : list Nearby) :
  Forall measured l ->
  filter p (Array_sort by_distance l) = Array_sort by_distance (filter p l).
Proof.
  induction l as [|x rest IH]; intros Hl; [reflexivity|].
  inversion Hl as [|x' rest' Hx Hrest]; subst.
  simpl Array_sort. rewrite sort_insert_filter.
  - rewrite (IH Hrest). simpl filter. destruct (p x); reflexivity.
  - exact Hx.
  - apply (Permutation_Forall (Permutation_sym (Array_sort_perm _ rest))).
    exact Hrest.
  - apply Sorted_StronglySorted.
    { intros a b c. apply leb_trans. }
    apply (Array_sort_sorted _ _ measured); [| |exact Hrest].
    + intros a b _ _ Hc. rewrite sub_positive in Hc. now apply ltb_leb.
    + intros a b Ha Hb Hc. rewrite sub_positive in Hc. now apply not_ltb_leb.
Qed.

End Within.

(** X11: the results for a smaller maximal distance are those for a larger
    one that are within the smaller distance, in the same order: narrowing
    the search drops the far results and moves none. *)
Theorem findNearby_narrow (userLat userLon : float) (locations : list Location)
  (smaller larger : float) :
  (smaller <=? larger) = true ->
  findNearby userLat userLon locations smaller =
  filter (fun n => nb_distance n <=? smaller)
    (findNearby userLat userLon locations larger).
Proof.
  intros Hle. rewrite !findNearby_eq.
  set (candidates := map _ locations).
  rewrite Array_sort_filter.
  - f_equal. induction candidates as [|n rest IH]; [reflexivity|].
    simpl. destruct (nb_distance n <=? smaller) eqn:Hn.
    + rewrite (leb_trans _ _ _ Hn Hle). simpl. rewrite Hn. now rewrite IH.
    + destruct (nb_distance n <=? larger); simpl; rewrite ?Hn; exact IH.
  - intros a b Hb Hab. exact (leb_trans _ _ _ Hab Hb).
  - apply Forall_forall. intros n Hn. apply filter_In in Hn.
    destruct Hn as [_ Hn]. apply (leb_not_nan _ _ Hn).
Qed.

End FindNearbyNarrow.

(** ** More on the spoofing heuristic *)

(** X12: a supplied device signal is checked for both flags, in the order
    [isEmulator], [mockLocation], each check recorded whether it fired or
    not; a flag fires when its value is truthy; and the risk score is 0,
    0.6 or 1. *)
Theorem detectSpoofing_checks (deviceInfo : value) :
  ToBoolean deviceInfo = true ->
  exists r,
    detectSpoofing deviceInfo = Normal r /\
    map ck_check (sa_checks r) = ["isEmulator"; "mockLocation"] /\
    map ck_passed (sa_checks r) =
      [negb (ToBoolean (GetV deviceInfo "isEmulator"));
       negb (ToBoolean (GetV deviceInfo "isMockLocation"))] /\
    (sa_riskScore r = 0 \/ sa_riskScore r = 0.6 \/ sa_riskScore r = 1).
Proof.
  intros Ht. rewrite (detectSpoofing_supplied _ Ht).
  eexists. split; [reflexivity|].
  destruct (ToBoolean (GetV deviceInfo "isEmulator"));
    destruct (ToBoolean (GetV deviceInfo "isMockLocation"));
    cbn; auto.
Qed.

(** ** The compass mapping on every bearing *)

Section GetDirectionEverywhere.

Import FloatFacts SpecFloatFacts BuiltinFacts.

Lemma Array_at_compass (i : float) (k : Z) :
  Num.to_Z i = Some k -> (0 <= k < 8)%Z ->
  Array_at compass i = nth (Z.to_nat k) compass VUndefined /\
  In (Array_at compass i) compass.
Proof.
  intros Hi Hk. unfold Array_at. rewrite Hi.
  assert (Hcases : (k = 0 \/ k = 1 \/ k = 2 \/ k = 3 \/ k = 4 \/ k = 5 \/
                    k = 6 \/ k = 7)%Z) by lia.
  destruct Hcases as [->|[->|[->|[->|[->|[->|[->| ->]]]]]]];
    (split; [reflexivity|]); vm_compute; tauto.
Qed.

Lemma Array_at_negative (elems : list value) (i : float) (k : Z) :
  Num.to_Z i = Some k -> (k < 0)%Z -> Array_at elems i = VUndefined.
Proof.
  intros Hi Hk. unfold Array_at. rewrite Hi.
  destruct (Z.leb_spec 0 k); [lia|reflexivity].
Qed.

Lemma div_45_zero (x : float) (s : bool) :
  Prim2SF x = S754_zero s -> Prim2SF (x / 45) = S754_zero s.
Proof. intros Hx. rewrite div_spec, Hx. destruct s; reflexivity. Qed.

Lemma div_45_infinity (x : float) (s : bool) :
  Prim2SF x = S754_infinity s -> Prim2SF (x / 45) = S754_infinity s.
Proof. intros Hx. rewrite div_spec, Hx. destruct s; reflexivity. Qed.

(** The index [Math.round(bearing / 45) % 8] of a finite bearing: an
    integer of the sign of the bearing. *)
Lemma getDirection_index (bearing : float) (s : bool) :
  (Prim2SF bearing = S754_zero s \/
   exists m e, Prim2SF bearing = S754_finite s m e) ->
  exists W : Z, (0 <= W)%Z /\
    Num.to_Z (Num.Math_round (bearing / 45)) = Some (cond_Zopp s W) /\
    Num.to_Z (Num.remainder (Num.Math_round (bearing / 45)) 8) =
      Some (cond_Zopp s (W mod 8)).
Proof.
  intros Hb.
  assert (Hq : Prim2SF (bearing / 45) = S754_zero s \/
               exists m e, Prim2SF (bearing / 45) = S754_finite s m e).
  { destruct Hb as [Hb|(m & e & Hb)].
    - left. now apply div_45_zero.
    - apply (div_45_finite bearing s m e Hb). }
  destruct Hq as [Hq|(m & e & Hq)].
  - assert (Hr : Num.Math_round (bearing / 45) = bearing / 45).
    { unfold Num.Math_round. now rewrite Hq. }
    rewrite Hr.
    assert (Hz : Num.to_Z (bearing / 45) = Some (cond_Zopp s 0)).
    { unfold Num.to_Z. rewrite Hq. destruct s; reflexivity. }
    exists 0%Z. split; [lia|]. split; [exact Hz|].
    apply (remainder_8_integer _ s 0 ltac:(lia) Hz). now left.
  - destruct (Math_round_finite _ s m e Hq) as (W & HW & Hto & Hshape).
    exists W. split; [exact HW|]. split; [exact Hto|].
    now apply remainder_8_integer.
Qed.

Lemma finite_nonnegative (x : float) :
  (0 <=? x) = true -> is_finite x = true ->
  (exists s, Prim2SF x = S754_zero s) \/
  exists m e, Prim2SF x = S754_finite false m e.
Proof.
  rewrite FloatAxioms.leb_spec, Prim2SF_zero, is_finite_spec.
  intros Hle [[s Hx]|(s & m & e & Hx)]; [eauto|].
  rewrite Hx in Hle. apply leb_zero_finite in Hle. subst s. eauto.
Qed.

Lemma finite_negative (x : float) :
  (x <? 0) = true -> is_finite x = true ->
  exists m e, Prim2SF x = S754_finite true m e.
Proof.
  rewrite FloatAxioms.ltb_spec, Prim2SF_zero, is_finite_spec.
  intros Hlt [[s Hx]|(s & m & e & Hx)]; rewrite Hx in Hlt.
  - destruct s; discriminate.
  - destruct s; [eauto|discriminate].
Qed.

(** The index of a finite bearing of at least 0 is one of 0, ..., 7. *)
Lemma getDirection_index_nonnegative (bearing : float) :
  (0 <=? bearing) = true -> is_finite bearing = true ->
  exists W : Z,
    (0 <= W)%Z /\
    Num.to_Z (Num.Math_round (bearing / 45)) = Some W /\
    Num.to_Z (Num.remainder (Num.Math_round (bearing / 45)) 8) = Some (W mod 8)%Z.
Proof.
  intros Hlo Hfin.
  assert (Hb : exists s, Prim2SF bearing = S754_zero s \/
                 (s = false /\ exists m e, Prim2SF bearing = S754_finite s m e)).
  { destruct (finite_nonnegative bearing Hlo Hfin) as [[s Hb]|Hb]; eauto. }
  destruct Hb as (s & Hb).
  assert (Hshape : Prim2SF bearing = S754_zero s \/
                   exists m e, Prim2SF bearing = S754_finite s m e) by tauto.
  destruct (getDirection_index bearing s Hshape) as (W & HW & Hto & Hrem).
  assert (Hsign : cond_Zopp s W = W /\ cond_Zopp s (W mod 8) = (W mod 8)%Z).
  { destruct Hb as [Hb|[-> _]]; [|split; reflexivity].
    assert (Hq : Prim2SF (bearing / 45) = S754_zero s) by now apply div_45_zero.
    unfold Num.Math_round, Num.to_Z in Hto. rewrite Hq in Hto. rewrite Hq in Hto.
    assert (W = 0%Z) by (destruct s; simpl in Hto; injection Hto; lia).
    subst W. destruct s; split; reflexivity. }
  destruct Hsign as [Hs1 Hs2]. rewrite Hs1 in Hto. rewrite Hs2 in Hrem.
  exists W. auto.
Qed.

(** X13: every finite bearing of at least 0 is mapped to a compass point,
    the one of index [round(bearing / 45) mod 8]: bearings of 360 degrees
    and more wrap around. *)
Theorem getDirection_wraps (bearing : float) :
  (0 <=? bearing) = true -> is_finite bearing = true ->
  exists n : Z,
    (0 <= n)%Z /\
    Num.to_Z (Num.Math_round (bearing / 45)) = Some n /\
    getDirection bearing = nth (Z.to_nat (n mod 8)) compass VUndefined /\
    In (getDirection bearing) compass.
Proof.
  intros Hlo Hfin.
  destruct (getDirection_index_nonnegative bearing Hlo Hfin)
    as (W & HW & Hto & Hrem).
  exists W. split; [exact HW|]. split; [exact Hto|].
  unfold getDirection. fold compass.
  apply (Array_at_compass _ _ Hrem). apply Z.mod_pos_bound. lia.
Qed.

(** X14: a negative finite bearing is mapped to "N" where
    [round(bearing / 45)] is a multiple of 8, and to [undefined] elsewhere;
    NaN and the infinities are mapped to [undefined]. *)
Theorem getDirection_negative (bearing : float) :
  ((bearing <? 0) = true -> is_finite bearing = true ->
   exists n : Z,
     (n <= 0)%Z /\
     Num.to_Z (Num.Math_round (bearing / 45)) = Some n /\
     getDirection bearing =
       if (n mod 8 =? 0)%Z then VString "N" else VUndefined) /\
  (is_finite bearing = false -> getDirection bearing = VUndefined).
Proof.
  split.
  - intros Hneg Hfin.
    destruct (finite_negative bearing Hneg Hfin) as (m & e & Hb).
    destruct (getDirection_index bearing true ltac:(eauto)) as (W & HW & Hto & Hrem).
    simpl cond_Zopp in Hto, Hrem.
    pose proof (Z.mod_pos_bound W 8 ltac:(lia)) as Hk.
    exists (- W)%Z. split; [lia|]. split; [exact Hto|].
    unfold getDirection. fold compass.
    assert (Hmod : ((- W) mod 8 = 0 <-> W mod 8 = 0)%Z).
    { split; intros Hd.
      - rewrite <- (Z.opp_involutive W). apply Z.mod_opp_l_z; [lia|exact Hd].
      - apply Z.mod_opp_l_z; [lia|exact Hd]. }
    destruct (Z.eqb_spec ((- W) mod 8) 0) as [Hz|Hnz].
    + apply Hmod in Hz. rewrite Hz in Hrem.
      apply (Array_at_compass _ 0 Hrem ltac:(lia)).
    + apply (Array_at_negative _ _ _ Hrem). lia.
  - intros Hinf.
    assert (Hb : Prim2SF bearing = S754_nan \/ exists s, Prim2SF bearing = S754_infinity s).
    { destruct (Prim2SF bearing) as [s|s| |s m e] eqn:E; eauto;
        exfalso; assert (Hf : is_finite bearing = true)
          by (apply is_finite_spec; eauto 6); congruence. }
    assert (Hq : Prim2SF (bearing / 45) = S754_nan \/
                 exists s, Prim2SF (bearing / 45) = S754_infinity s).
    { destruct Hb as [Hb|[s Hb]].
      - left. rewrite div_spec, Hb. reflexivity.
      - right. exists s. now apply div_45_infinity. }
    unfold getDirection, Num.Math_round.
    destruct Hq as [Hq|[s Hq]]; rewrite Hq;
      unfold Num.remainder; rewrite Hq; reflexivity.
Qed.

End GetDirectionEverywhere.

(** ** The bearing *)

Section GetBearing.
Context {H : Host}.

Import FloatFacts SpecFloatFacts RoundingFacts BuiltinFacts.

Lemma is_nan_eq (x : float) : is_nan x = true -> x = nan.
Proof. rewrite is_nan_spec. intros Hx. apply Prim2SF_inj. rewrite Hx. reflexivity. Qed.

(** An angle of at most 4 radians is at most 256 degrees. *)
Lemma toDegrees_bounded (radians : float) :
  SFbounded (Prim2SF radians) 2 -> SFbounded (Prim2SF (toDegrees radians)) 8.
Proof.
  intros Hb. unfold toDegrees. rewrite mul_spec.
  change (Prim2SF (180 / Num.PI)) with (S754_finite false 8063664102031864 (-47)).
  destruct (Prim2SF radians) as [s|s| |s m e]; cbn [SFbounded] in Hb; try contradiction.
  - exact I.
  - destruct Hb as [He Hm]. unfold SF64mul, SFmul.
    assert (Hp : (0 < 2 ^ (2 - e))%Z) by (apply pow2_pos; lia).
    destruct (binary_round_aux_upper (xorb s false) (Zpos (m * 8063664102031864))
                (e + -47) loc_Exact 8) as [Hz|(m' & e' & Hf & He' & Hm')]; try lia.
    + rewrite Pos2Z.inj_mul.
      replace (8 - (e + -47))%Z with (53 + (2 - e))%Z by lia.
      rewrite Z.pow_add_r by lia. change (2 ^ 53)%Z with 9007199254740992%Z.
      apply Z.le_lt_trans with (2 ^ (2 - e) * 8063664102031864)%Z;
        [apply Z.mul_le_mono_nonneg_r; lia|lia].
    + rewrite Hz. exact I.
    + rewrite Hf. simpl. auto.
Qed.

(** Adding 360 to a number of magnitude at most 256 gives a positive
    finite number. *)
Lemma add_360_positive (t : float) :
  SFbounded (Prim2SF t) 8 ->
  exists m e, Prim2SF (t + 360) = S754_finite false m e.
Proof.
  intros Hb. rewrite add_spec.
  change (Prim2SF 360) with (S754_finite false 6333186975989760 (-44)).
  pose proof (Prim2SF_valid t) as Hv.
  destruct (Prim2SF t) as [s|s| |s m e]; cbn [SFbounded] in Hb; try contradiction.
  - simpl. eauto.
  - destruct Hb as [He Hm].
    destruct (valid_finite_inv _ _ _ Hv) as (Hev & _).
    unfold SF64add, SFadd.
    set (ez := Z.min e (-44)).
    assert (Hez : (ez <= e /\ ez <= -44 /\ -1074 <= ez)%Z) by (unfold ez; lia).
    rewrite !shl_align_fst by lia.
    assert (Hp : (0 < 2 ^ (- ez))%Z) by (apply pow2_pos; lia).
    assert (Hm1 : (Zpos m * 2 ^ (e - ez) <= 256 * 2 ^ (- ez))%Z).
    { replace (- ez)%Z with ((8 - e) + (e - ez) - 8)%Z by lia.
      assert (H8 : (2 ^ (8 - e + (e - ez)) = 256 * 2 ^ (8 - e + (e - ez) - 8))%Z).
      { replace (8 - e + (e - ez))%Z with (8 + (8 - e + (e - ez) - 8))%Z at 1 by lia.
        rewrite Z.pow_add_r by lia. reflexivity. }
      rewrite <- H8, Z.pow_add_r by lia.
      apply Z.mul_le_mono_nonneg_r; [apply Z.pow_nonneg; lia|exact Hm]. }
    assert (Hm2 : (6333186975989760 * 2 ^ (-44 - ez) = 360 * 2 ^ (- ez))%Z).
    { replace (- ez)%Z with (44 + (-44 - ez))%Z by lia.
      rewrite Z.pow_add_r by lia. change (2 ^ 44)%Z with 17592186044416%Z. ring. }
    assert (Hmp : (0 < Zpos m * 2 ^ (e - ez))%Z).
    { apply Z.mul_pos_pos; [lia|apply pow2_pos; lia]. }
    set (S := (cond_Zopp s (Zpos m * 2 ^ (e - ez)) +
               cond_Zopp false (6333186975989760 * 2 ^ (-44 - ez)))%Z).
    assert (HS : (0 < S < 617 * 2 ^ (- ez))%Z).
    { unfold S. rewrite Hm2. destruct s; cbn [cond_Zopp]; lia. }
    destruct S as [|p|p] eqn:HSp; try lia. simpl binary_normalize.
    destruct (binary_round_nonzero false p ez ltac:(lia))
      as [(m' & e' & Hf)|Hinf]; [eauto|exfalso].
    unfold binary_round in Hinf. rewrite fexp_eq in Hinf.
    pose proof (shl_align_snd p ez (Z.max (Zpos (digits2_pos p) + ez - 53) (-1074))) as Hsnd.
    set (F := Z.max (Zpos (digits2_pos p) + ez - 53) (-1074)) in *.
    assert (Hfst : Zpos (fst (shl_align p ez F)) = (Zpos p * 2 ^ (ez - Z.min ez F))%Z).
    { unfold shl_align. destruct (F - ez)%Z as [|d|d] eqn:Hd; simpl fst.
      - replace (ez - Z.min ez F)%Z with 0%Z by lia. simpl. lia.
      - replace (ez - Z.min ez F)%Z with 0%Z by lia. simpl. lia.
      - rewrite pos_iter_xO. f_equal. f_equal. lia. }
    destruct (shl_align p ez F) as [mz ez']. simpl fst in Hfst. simpl snd in Hsnd.
    subst ez'.
    assert (Hpz : (0 < 2 ^ (ez - Z.min ez F))%Z) by (apply pow2_pos; lia).
    destruct (binary_round_aux_below false (Zpos mz) (Z.min ez F) loc_Exact 617 0)
      as [Hz|(m' & e' & Hf & _)]; try lia.
    + rewrite Hfst.
      replace (0 - Z.min ez F)%Z with (- ez + (ez - Z.min ez F))%Z by lia.
      rewrite Z.pow_add_r by lia. nia.
    + vm_compute. discriminate.
    + congruence.
    + congruence.
Qed.

(** The remainder by 360 of a positive finite number lies in [[0, 360)]. *)
Lemma remainder_360_range (y : float) (m : positive) (e : Z) :
  Prim2SF y = S754_finite false m e ->
  (0 <=? Num.remainder y 360) = true /\ (Num.remainder y 360 <? 360) = true.
Proof.
  intros Hy.
  destruct (remainder_finite y 360 false m e false 6333186975989760 (-44) Hy eq_refl)
    as (HR & Hrem).
  cbv zeta in HR, Hrem.
  rewrite FloatAxioms.leb_spec, FloatAxioms.ltb_spec, Prim2SF_zero.
  change (Prim2SF 360) with (S754_finite false 6333186975989760 (-44)).
  destruct Hrem as [[_ ->]|(mz & -> & He' & Hmz & Hv)]; [split; reflexivity|].
  split; [reflexivity|].
  set (ez := Z.min e (-44)) in *.
  set (R := ((Zpos m * 2 ^ (e - ez)) mod (6333186975989760 * 2 ^ (-44 - ez)))%Z) in *.
  set (e' := Z.max (Zdigits2 R + ez - 53) (-1074)) in *.
  unfold SFltb.
  rewrite (SFcompare_finite_pos mz e' 6333186975989760 (-44) Hv eq_refl).
  assert (Hez : (ez <= -44)%Z) by (unfold ez; lia).
  rewrite Z.min_l by lia. rewrite Z.sub_diag, Z.pow_0_r, Z.mul_1_r.
  replace (Zpos mz ?= 6333186975989760 * 2 ^ (-44 - e'))%Z with Lt; [reflexivity|].
  symmetry. apply Z.compare_lt_iff. rewrite Hmz.
  replace (-44 - e')%Z with ((-44 - ez) + (ez - e'))%Z by lia.
  rewrite Z.pow_add_r by lia.
  assert (0 < 2 ^ (ez - e'))%Z by (apply pow2_pos; lia).
  nia.
Qed.

(** Normalizing an angle between [-pi] and [pi] radians gives a bearing
    in [[0, 360)]. *)
Lemma normalize_bearing (a : float) :
  (- Num.PI <=? a) = true -> (a <=? Num.PI) = true ->
  let b := Num.remainder (toDegrees a + 360) 360 in
  (0 <=? b) = true /\ (b <? 360) = true.
Proof.
  intros Hlo Hhi b.
  pose proof (interval_bounded a Num.PI 7074237752028440 (-51) eq_refl Hlo Hhi) as Hb.
  change (-51 + 53)%Z with 2%Z in Hb.
  destruct (add_360_positive _ (toDegrees_bounded a Hb)) as (m & e & Hy).
  apply (remainder_360_range _ m e Hy).
Qed.

(** X15: where the angle [Math.atan2] returns lies between [-pi] and [pi],
    the bearing lies in [[0, 360)], and [getDirection] maps it to a compass
    point; where [Math.atan2] returns NaN, the bearing is NaN. *)
Theorem getBearing_range (lat1 lon1 lat2 lon2 : float) :
  let phi1 := toRadians lat1 in
  let phi2 := toRadians lat2 in
  let dlambda := toRadians (lon2 - lon1) in
  let y := Math_sin dlambda * Math_cos phi2 in
  let x := Math_cos phi1 * Math_sin phi2 -
           Math_sin phi1 * Math_cos phi2 * Math_cos dlambda in
  let bearing := getBearing lat1 lon1 lat2 lon2 in
  ((- Num.PI <=? Math_atan2 y x) = true -> (Math_atan2 y x <=? Num.PI) = true ->
   (0 <=? bearing) = true /\ (bearing <? 360) = true) /\
  (is_nan (Math_atan2 y x) = true -> bearing = nan).
Proof.
  intros phi1 phi2 dlambda y x bearing. split.
  - intros Hlo Hhi. apply (normalize_bearing _ Hlo Hhi).
  - intros Hnan. unfold bearing, getBearing. fold phi1 phi2 dlambda y x.
    rewrite (is_nan_eq _ Hnan). reflexivity.
Qed.

(** X16: the bearing between two points, where [Math.atan2] returns an
    angle between [-pi] and [pi], has a compass direction: [getDirection]
    of [getBearing] is one of the eight compass points. *)
Theorem getDirection_of_getBearing (lat1 lon1 lat2 lon2 : float) :
  let phi1 := toRadians lat1 in
  let phi2 := toRadians lat2 in
  let dlambda := toRadians (lon2 - lon1) in
  let y := Math_sin dlambda * Math_cos phi2 in
  let x := Math_cos phi1 * Math_sin phi2 -
           Math_sin phi1 * Math_cos phi2 * Math_cos dlambda in
  (- Num.PI <=? Math_atan2 y x) = true -> (Math_atan2 y x <=? Num.PI) = true ->
  In (getDirection (getBearing lat1 lon1 lat2 lon2)) compass.
Proof.
  intros phi1 phi2 dlambda y x Hlo Hhi.
  destruct (normalize_bearing _ Hlo Hhi) as [Hb0 Hb360].
  fold (getBearing lat1 lon1 lat2 lon2) in Hb0, Hb360.
  set (b := getBearing lat1 lon1 lat2 lon2) in *.
  assert (Hfin : is_finite b = true).
  { apply (SFbounded_finite _ (-44 + 53)).
    apply (interval_bounded b 360 6333186975989760 (-44) eq_refl).
    - apply leb_trans with 0; [reflexivity|exact Hb0].
    - now apply ltb_leb. }
  destruct (getDirection_index_nonnegative b Hb0 Hfin) as (W & _ & _ & Hrem).
  unfold getDirection. fold compass.
  apply (Array_at_compass _ _ Hrem). apply Z.mod_pos_bound. lia.
Qed.

End GetBearing.

(** ** The bounding box *)

Section GetBoundingBox.
Context {H : Host}.

Import FloatFacts SpecFloatFacts ValidityFacts MonotoneFacts.

(** Subtracting a number that is not negative gives no more, adding it no
    less. *)
Lemma sub_le_add (x d : float) :
  is_finite x = true -> (0 <=? d) = true ->
  (x - d <=? x) = true /\ (x <=? x + d) = true.
Proof.
  rewrite is_finite_spec, !FloatAxioms.leb_spec, sub_spec, add_spec, Prim2SF_zero.
  intros Hx Hd. apply SFsub_le; try apply Prim2SF_valid; assumption.
Qed.

(** The quotient of a finite number that is not negative by a positive
    one is not negative. *)
Lemma div_nonnegative (a c : float) :
  is_finite a = true -> (0 <=? a) = true -> (0 <? c) = true ->
  (0 <=? a / c) = true.
Proof.
  rewrite is_finite_spec, !FloatAxioms.leb_spec, FloatAxioms.ltb_spec, div_spec,
    Prim2SF_zero.
  intros Ha Hle Hc.
  destruct (Prim2SF c) as [sc|sc| |sc mc ec]; try discriminate;
    try (destruct sc; discriminate).
  - (* an infinite divisor *)
    destruct sc; [discriminate|].
    destruct Ha as [[s ->]|(s & m & e & ->)]; destruct s; reflexivity.
  - destruct sc; [discriminate|].
    destruct Ha as [[s Ha]|(s & m & e & Ha)]; rewrite Ha in Hle |- *.
    + destruct s; reflexivity.
    + apply leb_zero_finite in Hle. subst s.
      unfold SF64div, SFdiv, SFdiv_core_binary.
      set (e' := Z.min _ _).
      set (m' := match (e - ec - e')%Z with
                 | Z0 => Zpos m
                 | Zpos _ => Z.shiftl (Zpos m) (e - ec - e')
                 | Zneg _ => 0%Z
                 end).
      assert (Hm' : (0 <= m')%Z).
      { unfold m'. destruct (e - ec - e')%Z; try lia.
        apply Z.shiftl_nonneg. lia. }
      pose proof (Z_div_mod m' (Zpos mc) ltac:(lia)) as Hdm.
      destruct (Z.div_eucl m' (Zpos mc)) as [q r]. destruct Hdm as [Hq Hr].
      assert (Hq0 : (0 <= q)%Z) by nia.
      destruct (binary_round_aux_exponent (xorb false false) q e'
                  (new_location (Zpos mc) r) Hq0)
        as [-> |[-> |(mf & ef & -> & _)]]; reflexivity.
Qed.

(** X17: for a finite centre and a finite radius of at least 0, the
    bounding box contains its centre in latitude, and in longitude too
    where the scaled cosine [111320 * cos(lat)] is positive; where the
    cosine is exactly 0 and the radius positive, the box spans every
    longitude. *)
Theorem getBoundingBox_contains (lat lon radiusMeters : float) :
  is_finite lat = true -> is_finite lon = true ->
  is_finite radiusMeters = true -> (0 <=? radiusMeters) = true ->
  let box := getBoundingBox lat lon radiusMeters in
  ((bb_minLat box <=? lat) = true /\ (lat <=? bb_maxLat box) = true /\
   (bb_minLat box <=? bb_maxLat box) = true) /\
  ((0 <? 111320 * Math_cos (toRadians lat)) = true ->
   (bb_minLon box <=? lon) = true /\ (lon <=? bb_maxLon box) = true /\
   (bb_minLon box <=? bb_maxLon box) = true) /\
  (Math_cos (toRadians lat) = 0 -> (0 <? radiusMeters) = true ->
   bb_minLon box = neg_infinity /\ bb_maxLon box = infinity).
Proof.
  intros Hlat Hlon Hr Hr0 box. unfold box, getBoundingBox. cbn [bb_minLat bb_maxLat bb_minLon bb_maxLon].
  split; [|split].
  - destruct (sub_le_add lat (radiusMeters / 111320) Hlat) as [H1 H2].
    { apply div_nonnegative; [exact Hr|exact Hr0|reflexivity]. }
    split; [exact H1|]. split; [exact H2|].
    now apply leb_trans with lat.
  - intros Hcos.
    destruct (sub_le_add lon (radiusMeters / (111320 * Math_cos (toRadians lat))) Hlon)
      as [H1 H2].
    { apply div_nonnegative; assumption. }
    split; [exact H1|]. split; [exact H2|].
    now apply leb_trans with lon.
  - intros Hcos Hpos. rewrite Hcos.
    change (111320 * 0)%float with 0%float.
    assert (Hinf : radiusMeters / 0 = infinity).
    { apply Prim2SF_inj. rewrite div_spec.
      rewrite FloatAxioms.ltb_spec in Hpos.
      change (Prim2SF 0) with (S754_zero false) in *.
      destruct (Prim2SF radiusMeters) as [s|s| |s m e] eqn:E;
        try discriminate; try (destruct s; discriminate).
      - apply is_finite_spec in Hr.
        destruct Hr as [[s' Hr]|(s' & m' & e' & Hr)]; congruence.
      - destruct s; [discriminate|reflexivity]. }
    rewrite Hinf.
    apply is_finite_spec in Hlon.
    split; apply Prim2SF_inj; rewrite ?sub_spec, ?add_spec;
      destruct Hlon as [[s ->]|(s & m & e & ->)]; reflexivity.
Qed.

End GetBoundingBox.

(** ** The distance text *)

Section FormatDistance.
Context {H : Host}.

Import FloatFacts SpecFloatFacts.

(** A number in [[999.5, 1000)] rounds to 1000. *)
Lemma Math_round_1000 (x : float) :
  (999.5 <=? x) = true -> (x <? 1000) = true -> Num.Math_round x = 1000.
Proof.
  rewrite FloatAxioms.leb_spec, FloatAxioms.ltb_spec.
  change (Prim2SF 999.5) with (S754_finite false 8791694975696896 (-43)).
  change (Prim2SF 1000) with (S754_finite false 8796093022208000 (-43)).
  pose proof (Prim2SF_valid x) as Hv. unfold Num.Math_round.
  destruct (Prim2SF x) as [s|s| |s m e] eqn:E; try discriminate.
  - destruct s; discriminate.
  - unfold SFleb, SFltb. destruct s; [discriminate|].
    rewrite (SFcompare_finite_pos 8791694975696896 (-43) m e eq_refl Hv).
    rewrite (SFcompare_finite_pos m e 8796093022208000 (-43) Hv eq_refl).
    rewrite (Z.min_comm (-43) e).
    destruct (valid_finite_bounds _ _ _ Hv) as (Hmhi & Hmlo).
    destruct (valid_finite_inv _ _ _ Hv) as (He & _).
    change (2 ^ 53)%Z with 9007199254740992%Z in Hmhi.
    change (2 ^ 52)%Z with 4503599627370496%Z in Hmlo.
    intros Hlo Hhi.
    assert (Hlo' : (8791694975696896 * 2 ^ (-43 - Z.min e (-43)) <=
                    Zpos m * 2 ^ (e - Z.min e (-43)))%Z).
    { apply Z.compare_le_iff. intros Hgt. rewrite Hgt in Hlo. discriminate. }
    assert (Hhi' : (Zpos m * 2 ^ (e - Z.min e (-43)) <
                    8796093022208000 * 2 ^ (-43 - Z.min e (-43)))%Z).
    { unfold Z.lt.
      destruct (Zpos m * 2 ^ (e - Z.min e (-43)) ?=
                8796093022208000 * 2 ^ (-43 - Z.min e (-43)))%Z;
        [discriminate Hhi|reflexivity|discriminate Hhi]. }
    clear Hlo Hhi.
    assert (He43 : e = (-43)%Z).
    { destruct (Z.compare_spec e (-43)) as [Heq|Hlt|Hgt]; [exact Heq| |]; exfalso.
      - rewrite Z.min_l in Hlo' by lia.
        rewrite Z.sub_diag, Z.pow_0_r, Z.mul_1_r in Hlo'.
        assert (Hp : (2 ^ 1 <= 2 ^ (-43 - e))%Z) by (apply Z.pow_le_mono_r; lia).
        change (2 ^ 1)%Z with 2%Z in Hp. lia.
      - rewrite Z.min_r in Hhi' by lia.
        rewrite Z.sub_diag, Z.pow_0_r, Z.mul_1_r in Hhi'.
        assert (Hp : (2 ^ 1 <= 2 ^ (e - -43))%Z) by (apply Z.pow_le_mono_r; lia).
        change (2 ^ 1)%Z with 2%Z in Hp. specialize (Hmlo ltac:(lia)). nia. }
    subst e. simpl in Hlo', Hhi'.
    change (0 <=? -43)%Z with false. cbv iota. cbn [cond_Zopp].
    change (2 ^ (- -43))%Z with 8796093022208%Z.
    change (2 ^ (- -43 + 1))%Z with 17592186044416%Z.
    assert (Hn : ((2 * Zpos m + 8796093022208) / 17592186044416 = 1000)%Z).
    { symmetry. apply (Z.div_unique _ _ 1000 (2 * Zpos m + 8796093022208 - 17592186044416000)); lia. }
    rewrite Hn. reflexivity.
Qed.

(** X18: below 1000 the distance is written in whole metres, and the test
    is made on the distance before rounding: a distance in [[999.5, 1000)]
    is written "1000m", while 1000 itself is written "1.0km".  A NaN
    distance is written with the suffix "km". *)
Theorem formatDistance_metres (meters : float) :
  ((meters <? 1000) = true ->
   formatDistance meters = NumberToString (Num.Math_round meters) ++ "m") /\
  ((999.5 <=? meters) = true -> (meters <? 1000) = true ->
   formatDistance meters = NumberToString 1000 ++ "m") /\
  formatDistance 1000 = "1.0km" /\
  formatDistance nan = NumberToString nan ++ "km".
Proof.
  split; [|split; [|split]].
  - intros Hlt. unfold formatDistance. rewrite Hlt. reflexivity.
  - intros Hlo Hlt. unfold formatDistance. rewrite Hlt.
    rewrite (Math_round_1000 meters Hlo Hlt). reflexivity.
  - reflexivity.
  - reflexivity.
Qed.

End FormatDistance.

(** ** The memory vault *)

Section MemoryVaultFacts.

Import MemoryVault.

Variable memory_vault : address.

Local Open Scope Z_scope.

Lemma publish_same {R : Type} (m : address -> option R) (a : address) (r : R) :
  publish m a r a = Some r.
Proof. unfold publish. now rewrite Z.eqb_refl. Qed.

Lemma publish_other {R : Type} (m : address -> option R) (a a' : address) (r : R) :
  a' <> a -> publish m a r a' = m a'.
Proof. intros Hne. unfold publish. apply Z.eqb_neq in Hne. now rewrite Hne. Qed.

Lemma find_memory_app (ms ms' : list Memory) (i : Z) :
  find_memory (ms ++ ms') i =
  match find_memory ms i with
  | Some m => Some m
  | None => find_memory ms' i
  end.
Proof.
  induction ms as [|m rest IH]; simpl; [reflexivity|].
  destruct (id m =? i); [reflexivity|exact IH].
Qed.

(** In memories numbered from [k] on, the memory with id [i] is the one at
    index [i - k]. *)
Lemma find_memory_numbered (ms : list Memory) (k : nat) (i : Z) :
  map id ms = map Z.of_nat (seq k (List.length ms)) ->
  (Z.of_nat k <= i < Z.of_nat k + Z.of_nat (List.length ms) ->
   exists m, find_memory ms i = Some m /\ id m = i) /\
  (i < Z.of_nat k \/ Z.of_nat k + Z.of_nat (List.length ms) <= i ->
   find_memory ms i = None).
Proof.
  revert k. induction ms as [|m rest IH]; intros k Hids.
  - simpl. split; [lia|reflexivity].
  - simpl in Hids. injection Hids as Hid Hrest.
    destruct (IH (S k) Hrest) as [Hin Hout].
    simpl find_memory. simpl List.length. rewrite Hid.
    destruct (Z.eqb_spec (Z.of_nat k) i) as [Heq|Hne].
    + split; [|lia]. intros _. exists m. split; [reflexivity|congruence].
    + split.
      * intros Hi. apply Hin. lia.
      * intros Hi. apply Hout. lia.
Qed.

Lemma numbered_find (store : MemoryStore) (i : Z) :
  numbered store ->
  (1 <= i <= total_count store ->
   exists m, find_memory (memories store) i = Some m /\ id m = i) /\
  (i < 1 \/ total_count store < i -> find_memory (memories store) i = None).
Proof.
  intros [Hids Hcount].
  destruct (find_memory_numbered (memories store) 1 i Hids) as [Hin Hout].
  split; intros Hi; [apply Hin|apply Hout]; lia.
Qed.

(** Storing one more memory keeps the numbering. *)
Lemma numbered_push (store : MemoryStore) (memory : Memory) :
  numbered store -> id memory = total_count store + 1 ->
  numbered {| memories := memories store ++ [memory];
              total_count := total_count store + 1 |}.
Proof.
  intros [Hids Hcount] Hid. unfold numbered. simpl.
  rewrite length_app. simpl List.length.
  rewrite Nat.add_1_r, seq_S, !map_app, Hids. simpl.
  split; [|lia]. do 2 f_equal. lia.
Qed.

(** The transfer loop changes the owner of the memory the search finds,
    and nothing else. *)
Lemma transfer_loop_spec (ms : list Memory) (i : Z) (sender new_owner : address) :
  match find_memory ms i with
  | None => transfer_loop ms i sender new_owner = Abort E_MEMORY_NOT_FOUND
  | Some m =>
      if owner m =? sender
      then exists ms',
             transfer_loop ms i sender new_owner = Done ms' /\
             map id ms' = map id ms /\
             List.length ms' = List.length ms /\
             find_memory ms' i =
               Some {| id := id m; ipfs_hash := ipfs_hash m;
                       owner := new_owner; timestamp := timestamp m |} /\
             forall j, j <> i -> find_memory ms' j = find_memory ms j
      else transfer_loop ms i sender new_owner = Abort E_NOT_OWNER
  end.
Proof.
  induction ms as [|m rest IH]; simpl; [reflexivity|].
  destruct (Z.eqb_spec (id m) i) as [Heq|Hne].
  - destruct (owner m =? sender); [|reflexivity].
    eexists. split; [reflexivity|]. simpl.
    rewrite Heq, Z.eqb_refl. repeat split.
    intros j Hj. destruct (Z.eqb_spec i j); [congruence|reflexivity].
  - destruct (find_memory rest i) as [m'|]; [|now rewrite IH].
    destruct (owner m' =? sender); [|now rewrite IH].
    destruct IH as (ms' & -> & Hids & Hlen & Hfind & Hrest).
    eexists. split; [reflexivity|]. simpl.
    apply Z.eqb_neq in Hne. rewrite Hne, Hids, Hlen.
    repeat split; try assumption.
    intros j Hj. rewrite (Hrest j Hj). reflexivity.
Qed.

(** X19: storing a memory gives it the next id, the signer as owner and the
    clock's time; it can be read back at once, the count grows by one, the
    memories stored before read as before, and the ids stay 1, 2, ..., in
    order.  At the largest count of a [u64] the transaction fails. *)
Theorem store_memory_get_memory (g : Global) (store : MemoryStore)
  (account : address) (hash : string) :
  stores g memory_vault = Some store -> numbered store ->
  (total_count store < u64_max ->
   exists g' store',
     store_memory memory_vault account hash g = Done g' /\
     stores g' memory_vault = Some store' /\ numbered store' /\
     get_total_memories memory_vault g' = Done (total_count store + 1) /\
     get_memory memory_vault (total_count store + 1) g' =
       Done (hash, account, now_seconds g) /\
     verify_ownership memory_vault (total_count store + 1) account g' = Done true /\
     events g' =
       (events g ++
        [MemoryStoredEvent (total_count store + 1) account hash (now_seconds g)])%list /\
     forall i, i <> total_count store + 1 ->
       get_memory memory_vault i g' = get_memory memory_vault i g) /\
  (total_count store = u64_max ->
   store_memory memory_vault account hash g = Failure ARITHMETIC_ERROR).
Proof.
  intros Hstore Hnum. split.
  - intros Hlt. unfold store_memory, borrow_global. rewrite Hstore. simpl and_then.
    unfold add_one. destruct (Z.leb_spec (total_count store + 1) u64_max); [|lia].
    simpl and_then.
    set (memory := {| id := total_count store + 1; ipfs_hash := hash;
                      owner := account; timestamp := now_seconds g |}).
    set (store' := {| memories := memories store ++ [memory];
                      total_count := total_count store + 1 |}).
    set (users1 := if negb (exists_at (users g) account)
                   then publish (users g) account {| memory_ids := [] |}
                   else users g).
    assert (Hu : exists um, users1 account = Some um).
    { unfold users1, exists_at.
      destruct (users g account) as [um|] eqn:Hum; simpl.
      - rewrite Hum. eauto.
      - rewrite publish_same. eauto. }
    destruct Hu as [um Hum]. rewrite Hum. simpl and_then.
    eexists. exists store'. split; [reflexivity|].
    assert (Hfind : forall i,
              find_memory (memories store') i =
              if i =? total_count store + 1 then Some memory
              else find_memory (memories store) i).
    { intros i. unfold store'. simpl memories. rewrite find_memory_app. simpl.
      destruct (Z.eqb_spec i (total_count store + 1)) as [->|Hne].
      - rewrite (proj2 (numbered_find store _ Hnum)) by lia.
        now rewrite Z.eqb_refl.
      - destruct (find_memory (memories store) i); [reflexivity|].
        destruct (Z.eqb_spec (total_count store + 1) i); [congruence|reflexivity]. }
    unfold get_total_memories, get_memory, verify_ownership, borrow_global.
    simpl stores. rewrite publish_same, Hstore. simpl and_then.
    split; [reflexivity|]. split; [now apply numbered_push|].
    split; [reflexivity|]. rewrite !Hfind, Z.eqb_refl. simpl.
    split; [reflexivity|]. split; [now rewrite Z.eqb_refl|].
    split; [reflexivity|].
    intros i Hi. rewrite Hfind. apply Z.eqb_neq in Hi. now rewrite Hi.
  - intros Hmax. unfold store_memory, borrow_global. rewrite Hstore. simpl and_then.
    unfold add_one. destruct (Z.leb_spec (total_count store + 1) u64_max); [lia|].
    reflexivity.
Qed.

(** X20: a transfer by the owner of a memory makes the new owner its owner
    and changes nothing else of it, nor any other memory, nor the count; a
    transfer by anyone else aborts with [E_NOT_OWNER], and a transfer of
    an id that is not stored with [E_MEMORY_NOT_FOUND]. *)
Theorem transfer_memory_owner (g : Global) (sender new_owner : address) (i : Z) :
  (forall (hash : string) (o : address) (time : Z),
     get_memory memory_vault i g = Done (hash, o, time) ->
     (sender = o ->
      exists g',
        transfer_memory memory_vault sender i new_owner g = Done g' /\
        get_memory memory_vault i g' = Done (hash, new_owner, time) /\
        verify_ownership memory_vault i new_owner g' = Done true /\
        (new_owner <> sender ->
         verify_ownership memory_vault i sender g' = Done false) /\
        get_total_memories memory_vault g' = get_total_memories memory_vault g /\
        events g' =
          (events g ++ [MemoryTransferredEvent i sender new_owner])%list /\
        forall j, j <> i ->
          get_memory memory_vault j g' = get_memory memory_vault j g) /\
     (sender <> o ->
      transfer_memory memory_vault sender i new_owner g = Abort E_NOT_OWNER)) /\
  (get_memory memory_vault i g = Abort E_MEMORY_NOT_FOUND ->
   transfer_memory memory_vault sender i new_owner g = Abort E_MEMORY_NOT_FOUND).
Proof.
  unfold get_memory, transfer_memory, verify_ownership, get_total_memories,
    borrow_global.
  destruct (stores g memory_vault) as [store|] eqn:Hstore; simpl and_then;
    [|split; [intros hash o time; discriminate|discriminate]].
  pose proof (transfer_loop_spec (memories store) i sender new_owner) as Hloop.
  destruct (find_memory (memories store) i) as [m|] eqn:Hfind.
  - split; [|discriminate].
    intros hash o time [= <- <- <-]. split.
    + intros ->. rewrite Z.eqb_refl in Hloop.
      destruct Hloop as (ms' & -> & _ & _ & Hfind' & Hrest). simpl and_then.
      eexists. split; [reflexivity|]. simpl stores.
      rewrite publish_same. simpl and_then. rewrite Hfind'. simpl.
      rewrite Z.eqb_refl. repeat split.
      * intros Hne. apply Z.eqb_neq in Hne. now rewrite Hne.
      * intros j Hj. now rewrite (Hrest j Hj).
    + intros Hne. apply not_eq_sym in Hne. apply Z.eqb_neq in Hne.
      rewrite Hne in Hloop. now rewrite Hloop.
  - split; [intros hash o time; discriminate|].
    intros _. now rewrite Hloop.
Qed.

(** X21: with the ids numbered from 1, a memory can be read exactly when its
    id lies between 1 and the count; for any other id [get_memory] aborts
    with [E_MEMORY_NOT_FOUND] and [verify_ownership] answers [false]. *)
Theorem get_memory_range (g : Global) (store : MemoryStore) (i : Z) :
  stores g memory_vault = Some store -> numbered store ->
  (1 <= i <= total_count store ->
   exists hash o time,
     get_memory memory_vault i g = Done (hash, o, time) /\
     verify_ownership memory_vault i o g = Done true) /\
  (i < 1 \/ total_count store < i ->
   get_memory memory_vault i g = Abort E_MEMORY_NOT_FOUND /\
   forall o, verify_ownership memory_vault i o g = Done false).
Proof.
  intros Hstore Hnum. unfold get_memory, verify_ownership, borrow_global.
  rewrite Hstore. simpl and_then.
  destruct (numbered_find store i Hnum) as [Hin Hout]. split.
  - intros Hi. destruct (Hin Hi) as (m & -> & _).
    exists (ipfs_hash m), (owner m), (timestamp m).
    split; [reflexivity|]. now rewrite Z.eqb_refl.
  - intros Hi. rewrite (Hout Hi). split; reflexivity.
Qed.

(** X22: a user's memory count is the number of memories the user has
    stored: storing one adds one to the signer's count and to no other,
    and a transfer changes no count, neither the sender's nor the new
    owner's. *)
Theorem get_user_memory_count_stores (g g' : Global) (account : address) :
  (forall hash c,
     store_memory memory_vault account hash g = Done g' ->
     get_user_memory_count account g = Done c ->
     get_user_memory_count account g' = Done (c + 1) /\
     forall user, user <> account ->
       get_user_memory_count user g' = get_user_memory_count user g) /\
  (forall i new_owner,
     transfer_memory memory_vault account i new_owner g = Done g' ->
     forall user, get_user_memory_count user g' = get_user_memory_count user g).
Proof.
  split.
  - intros hash c. unfold store_memory, borrow_global.
    destruct (stores g memory_vault) as [store|]; simpl and_then; [|discriminate].
    destruct (add_one (total_count store)) as [memory_id| |]; simpl and_then;
      try discriminate.
    unfold get_user_memory_count, borrow_global, exists_at.
    destruct (users g account) as [um|] eqn:Hum; simpl.
    + rewrite Hum. simpl. intros [= <-] [= <-]. simpl users.
      rewrite publish_same. simpl. rewrite length_app. simpl List.length.
      split; [f_equal; lia|].
      intros user Hne. now rewrite publish_other.
    + rewrite publish_same. simpl. intros [= <-] [= <-]. simpl users.
      rewrite publish_same. simpl.
      split; [reflexivity|].
      intros user Hne. now rewrite !publish_other.
  - intros i new_owner. unfold transfer_memory, borrow_global.
    destruct (stores g memory_vault) as [store|]; simpl and_then; [|discriminate].
    destruct (transfer_loop _ _ _ _) as [ms'| |]; simpl and_then; try discriminate.
    intros [= <-] user. reflexivity.
Qed.

(** X23: [initialize] publishes an empty store under the signer's address,
    once: a second call aborts with [E_ALREADY_INITIALIZED].  Only the
    store under the module's address is the one the other functions use:
    before it is published they all fail, whoever else has initialized. *)
Theorem initialize_once (g : Global) (account : address) :
  (stores g account = None ->
   exists g',
     initialize account g = Done g' /\
     stores g' account = Some {| memories := []; total_count := 0 |} /\
     numbered {| memories := []; total_count := 0 |} /\
     initialize account g' = Abort E_ALREADY_INITIALIZED /\
     (account = memory_vault -> get_total_memories memory_vault g' = Done 0) /\
     (account <> memory_vault ->
      stores g' memory_vault = stores g memory_vault)) /\
  (stores g account <> None ->
   initialize account g = Abort E_ALREADY_INITIALIZED) /\
  (stores g memory_vault = None ->
   (forall a hash, store_memory memory_vault a hash g = Failure MISSING_DATA) /\
   (forall a i o, transfer_memory memory_vault a i o g = Failure MISSING_DATA) /\
   (forall i, get_memory memory_vault i g = Failure MISSING_DATA) /\
   get_total_memories memory_vault g = Failure MISSING_DATA).
Proof.
  split; [|split].
  - intros Hnone. unfold initialize, exists_at. rewrite Hnone.
    eexists. split; [reflexivity|]. simpl stores. rewrite publish_same.
    split; [reflexivity|]. split; [split; reflexivity|].
    split; [reflexivity|]. split.
    + intros <-. unfold get_total_memories, borrow_global. simpl stores.
      now rewrite publish_same.
    + intros Hne. apply publish_other. congruence.
  - intros Hsome. unfold initialize, exists_at.
    destruct (stores g account); [reflexivity|now elim Hsome].
  - intros Hnone.
    unfold store_memory, transfer_memory, get_memory, get_total_memories,
      borrow_global.
    rewrite Hnone. repeat split.
Qed.

(** X24: the numbering of the ids is an invariant: every transaction that
    succeeds on a store whose ids are 1, 2, ..., in order leaves such a
    store, with a count that is not smaller. *)
Theorem numbered_invariant (g g' : Global) (store : MemoryStore) :
  stores g memory_vault = Some store -> numbered store ->
  (exists account, initialize account g = Done g') \/
  (exists account hash, store_memory memory_vault account hash g = Done g') \/
  (exists account i new_owner,
     transfer_memory memory_vault account i new_owner g = Done g') ->
  exists store',
    stores g' memory_vault = Some store' /\ numbered store' /\
    total_count store <= total_count store'.
Proof.
  intros Hstore Hnum [(account & Hrun)|[(account & hash & Hrun)|
                                        (account & i & new_owner & Hrun)]].
  - unfold initialize, exists_at in Hrun.
    destruct (stores g account) eqn:Ha; [discriminate|].
    injection Hrun as <-. simpl stores.
    rewrite publish_other by congruence.
    exists store. split; [exact Hstore|]. split; [exact Hnum|lia].
  - unfold store_memory, borrow_global, add_one in Hrun.
    rewrite Hstore in Hrun. simpl and_then in Hrun.
    destruct (total_count store + 1 <=? u64_max); [|discriminate].
    simpl and_then in Hrun.
    destruct ((if negb (exists_at (users g) account)
               then publish (users g) account {| memory_ids := [] |}
               else users g) account) as [um|]; [|discriminate].
    simpl and_then in Hrun. injection Hrun as <-. simpl stores.
    rewrite publish_same. eexists. split; [reflexivity|].
    split; [now apply numbered_push|]. simpl. lia.
  - unfold transfer_memory, borrow_global in Hrun.
    rewrite Hstore in Hrun. simpl and_then in Hrun.
    pose proof (transfer_loop_spec (memories store) i account new_owner) as Hloop.
    destruct (find_memory (memories store) i) as [m|];
      [|rewrite Hloop in Hrun; discriminate].
    destruct (owner m =? account); [|rewrite Hloop in Hrun; discriminate].
    destruct Hloop as (ms' & Hms' & Hids & Hlen & _).
    rewrite Hms' in Hrun. simpl and_then in Hrun. injection Hrun as <-.
    simpl stores. rewrite publish_same. eexists. split; [reflexivity|].
    destruct Hnum as [Hn Hc]. unfold numbered. simpl.
    rewrite Hids, Hlen. split; [auto|lia].
Qed.

End MemoryVaultFacts.

(** ** Instances on concrete inputs *)

(** The small host meets what the properties ask of a host. *)
Lemma small_angle_sin_zero : sin_zero SmallAngle.host.
Proof. reflexivity. Qed.

Lemma small_angle_sin_odd : sin_odd SmallAngle.host.
Proof. intros x. reflexivity. Qed.

Lemma small_angle_cos_bounded : cos_bounded SmallAngle.host.
Proof. intros x _. split; reflexivity. Qed.

Lemma small_angle_atan2_zero : atan2_zero SmallAngle.host.
Proof. reflexivity. Qed.

(** A point 11.1 m north of the target, against a radius of 50 m, and the
    point [(10, 10)] against itself. *)
Lemma verifyLocation_distance_witness :
  (exists r,
     @verifyLocation SmallAngle.host
       (VObject [("latitude", VNumber 10.0001); ("longitude", VNumber 10)])
       (VObject [("coordinates", VArray [VNumber 10; VNumber 10]);
                 ("radiusMeters", VNumber 50)]) = Normal r /\
     vr_distanceMeters r =
       VNumber (Num.Math_round
                  (@calculateDistance SmallAngle.host 10.0001 10 10 10)) /\
     vr_allowedRadius r = VNumber (Num.Math_max 10 50) /\
     vr_withinRadius r =
       (Num.Math_round (@calculateDistance SmallAngle.host 10.0001 10 10 10)
        <=? Num.Math_max 10 50) /\
     vr_passed r = vr_withinRadius r) /\
  (exists r,
     @verifyLocation SmallAngle.host
       (VObject [("latitude", VNumber 10); ("longitude", VNumber 10)])
       (VObject [("coordinates", VArray [VNumber 10; VNumber 10]);
                 ("radiusMeters", VNumber 50)]) = Normal r /\
     vr_passed r = true /\ vr_distanceMeters r = VNumber 0) /\
  (exists r,
     @verifyLocation SmallAngle.host
       (VObject [("latitude", VNumber 10); ("longitude", VNumber 10)])
       (VObject [("coordinates", VArray [VNumber 10; VNumber 10]);
                 ("radiusMeters", VArray [VObject [("toString", VNumber 1)]])]) =
       Normal r /\
     vr_passed r = false /\ vr_withinRadius r = false /\
     vr_distanceMeters r = VNull).
Proof.
  split; [|split].
  - apply (proj1 (@verifyLocation_distance SmallAngle.host)
             (VObject [("latitude", VNumber 10.0001); ("longitude", VNumber 10)])
             (VObject [("coordinates", VArray [VNumber 10; VNumber 10]);
                       ("radiusMeters", VNumber 50)])
             10.0001 10 (VNumber 10) (VNumber 10) 50 10 10);
      reflexivity.
  - apply (proj1 (proj2 (@verifyLocation_distance SmallAngle.host))).
    + exact small_angle_sin_zero.
    + exact small_angle_cos_bounded.
    + exact small_angle_atan2_zero.
  - apply (proj2 (proj2 (@verifyLocation_distance SmallAngle.host))
             (VObject [("latitude", VNumber 10); ("longitude", VNumber 10)])
             (VObject [("coordinates", VArray [VNumber 10; VNumber 10]);
                       ("radiusMeters",
                        VArray [VObject [("toString", VNumber 1)]])])
             10 10 not_primitive);
      reflexivity.
Defined.

(** A radius that is an object with a property [toString] of its own
    cannot be converted: [Number] throws, the [catch] clause answers, and
    no distance is reported although both points are valid. *)
Lemma verifyLocation_radius_faults :
  exists r,
    @verifyLocation SmallAngle.host
      (VObject [("latitude", VNumber 0); ("longitude", VNumber 0)])
      (VObject [("coordinates", VArray [VNumber 0; VNumber 0]);
                ("radiusMeters", VObject [("toString", VNumber 1)])]) =
      Normal r /\
    isValidCoordinates (VNumber 0) (VNumber 0) = true /\
    vr_distanceMeters r = VNull /\
    vr_distanceMeters r <>
      VNumber (Num.Math_round (@calculateDistance SmallAngle.host 0 0 0 0)) /\
    vr_passed r = false /\
    vr_message r = VString "Cannot convert object to primitive value".
Proof.
  eexists. split; [reflexivity|].
  repeat split; try reflexivity. discriminate.
Qed.

(** A coordinate that cannot be converted is caught too: the answer carries
    the fault's description and the radius as it was given. *)
Lemma verifyLocation_never_throws_witness :
  @verifyLocation SmallAngle.host
    (VObject [("latitude", VNumber 0); ("longitude", VNumber 0)])
    (VObject [("coordinates",
               VArray [VObject [("toString", VNumber 1)]; VNumber 0]);
              ("radiusMeters", VNumber 5)]) =
    Normal (failure (VNumber 5) "Cannot convert object to primitive value") /\
  @verifyLocation SmallAngle.host
    (VObject [("latitude", VNumber 0); ("longitude", VNumber 0)])
    (VObject [("coordinates", VArray [VNumber 0; VNumber 0]);
              ("radiusMeters", VArray [VObject [("toString", VNull)]])]) =
    Normal (failure (VArray [VObject [("toString", VNull)]])
              "Cannot convert object to primitive value").
Proof.
  split.
  - pose proof (@verifyLocation_never_throws SmallAngle.host
                  (VObject [("latitude", VNumber 0); ("longitude", VNumber 0)])
                  (VObject [("coordinates",
                             VArray [VObject [("toString", VNumber 1)]; VNumber 0]);
                            ("radiusMeters", VNumber 5)])) as Hw.
    cbv zeta in Hw. destruct Hw as (_ & _ & _ & _ & Hfault & _).
    apply (Hfault (conj eq_refl eq_refl)
             "Cannot convert object to primitive value").
    right. exists 5, (VObject [("toString", VNumber 1)]), (VNumber 0).
    split; [reflexivity|]. split; [reflexivity|]. left. reflexivity.
  - pose proof (@verifyLocation_never_throws SmallAngle.host
                  (VObject [("latitude", VNumber 0); ("longitude", VNumber 0)])
                  (VObject [("coordinates", VArray [VNumber 0; VNumber 0]);
                            ("radiusMeters",
                             VArray [VObject [("toString", VNull)]])])) as Hw.
    cbv zeta in Hw. destruct Hw as (_ & _ & _ & _ & Hfault & _).
    apply (Hfault (conj eq_refl eq_refl)
             "Cannot convert object to primitive value").
    left. reflexivity.
Defined.

(** A radius that is an object is truthy and converts to NaN: the result
    carries NaN, where the design document's formula gives 50.  And where a
    coordinate of the target cannot be converted, a radius of 5 is reported
    as 5, where the formula gives 10. *)
Lemma verifyLocation_radius_not_numeric :
  (exists r,
     @verifyLocation SmallAngle.host
       (VObject [("latitude", VNumber 0); ("longitude", VNumber 0)])
       (VObject [("coordinates", VArray [VNumber 0; VNumber 0]);
                 ("radiusMeters", VObject [])]) = Normal r /\
     vr_allowedRadius r = VNumber nan /\
     @allowedRadius_spec SmallAngle.host
       (VObject [("coordinates", VArray [VNumber 0; VNumber 0]);
                 ("radiusMeters", VObject [])]) = 50) /\
  (exists r,
     @verifyLocation SmallAngle.host
       (VObject [("latitude", VNumber 0); ("longitude", VNumber 0)])
       (VObject [("coordinates",
                  VArray [VObject [("toString", VNumber 1)]; VNumber 0]);
                 ("radiusMeters", VNumber 5)]) = Normal r /\
     vr_allowedRadius r = VNumber 5 /\
     @allowedRadius_spec SmallAngle.host
       (VObject [("coordinates",
                  VArray [VObject [("toString", VNumber 1)]; VNumber 0]);
                 ("radiusMeters", VNumber 5)]) = 10).
Proof.
  split; (eexists; split; [reflexivity|]; split; reflexivity).
Qed.

(** A radius of 5 is raised to 10; where a coordinate of the target cannot
    be converted, the same radius is reported as 5. *)
Lemma verifyLocation_allowedRadius_witness :
  (exists r,
     @verifyLocation SmallAngle.host
       (VObject [("latitude", VNumber 0.001); ("longitude", VNumber 0)])
       (VObject [("coordinates", VArray [VNumber 0; VNumber 0]);
                 ("radiusMeters", VNumber 5)]) = Normal r /\
     vr_allowedRadius r = VNumber 10) /\
  (exists r,
     @verifyLocation SmallAngle.host
       (VObject [("latitude", VNumber 0.001); ("longitude", VNumber 0)])
       (VObject [("coordinates",
                  VArray [VObject [("toString", VNumber 1)]; VNumber 0]);
                 ("radiusMeters", VNumber 5)]) = Normal r /\
     vr_allowedRadius r = VNumber 5).
Proof.
  split.
  - pose proof (@verifyLocation_allowedRadius SmallAngle.host
                  (VObject [("latitude", VNumber 0.001); ("longitude", VNumber 0)])
                  (VObject [("coordinates", VArray [VNumber 0; VNumber 0]);
                            ("radiusMeters", VNumber 5)])
                  eq_refl eq_refl) as Hw.
    cbv zeta in Hw. destruct Hw as (r & Hr & Hconverts & _).
    exists r. split; [exact Hr|].
    destruct (Hconverts 5 eq_refl) as (Ha & _ & _ & _ & _ & Hfive).
    rewrite Ha.
    + rewrite (Hfive eq_refl). reflexivity.
    + intros c0 c1 [= <- <-]. exists 0, 0. split; reflexivity.
  - pose proof (@verifyLocation_allowedRadius SmallAngle.host
                  (VObject [("latitude", VNumber 0.001); ("longitude", VNumber 0)])
                  (VObject [("coordinates",
                             VArray [VObject [("toString", VNumber 1)]; VNumber 0]);
                            ("radiusMeters", VNumber 5)])
                  eq_refl eq_refl) as Hw.
    cbv zeta in Hw. destruct Hw as (r & Hr & _ & Hfault).
    exists r. split; [exact Hr|].
    rewrite Hfault; [reflexivity|].
    right. exists (VObject [("toString", VNumber 1)]), (VNumber 0), not_primitive.
    split; [reflexivity|]. left. reflexivity.
Defined.

(** With the emulator flag alone the assessment fails, although only one
    heuristic fired. *)
Lemma detectSpoofing_one_flag_fails :
  exists r,
    @detectSpoofing (VObject [("isEmulator", VBool true)]) = Normal r /\
    fired r = 1%nat /\ sa_passed r = false.
Proof. eexists. split; [reflexivity|]. split; reflexivity. Qed.

Lemma detectSpoofing_passed_witness :
  exists r,
    @detectSpoofing (VObject [("isMockLocation", VBool true)]) = Normal r /\
    fired r = 1%nat /\ sa_riskScore r = 0.6 /\ sa_passed r = false.
Proof.
  pose proof (detectSpoofing_passed (VObject [("isMockLocation", VBool true)])
                eq_refl) as Hw.
  cbv zeta in Hw. destruct Hw as (r & Hr & _ & _ & _ & _ & _ & Hone).
  exists r. split; [exact Hr|]. apply Hone. reflexivity.
Defined.

Lemma detectSpoofing_riskScore_witness :
  @detectSpoofing VUndefined =
    Normal {| sa_passed := true; sa_checks := []; sa_riskScore := 0 |} /\
  exists r,
    @detectSpoofing
      (VObject [("isEmulator", VBool true); ("isMockLocation", VBool true)]) =
      Normal r /\
    sa_riskScore r = 1 /\ sa_passed r = false.
Proof.
  split.
  - apply (proj1 (detectSpoofing_riskScore VUndefined)). reflexivity.
  - destruct (proj2 (detectSpoofing_riskScore
                       (VObject [("isEmulator", VBool true);
                                 ("isMockLocation", VBool true)])) eq_refl)
      as (r & Hr & _ & _ & Hboth).
    exists r. split; [exact Hr|]. apply Hboth; reflexivity.
Defined.

Lemma verifyLocation_not_provided_witness :
  @verifyLocation SmallAngle.host (VObject [])
    (VObject [("coordinates", VArray [VNumber 0; VNumber 0]);
              ("radiusMeters", VNumber 30)]) =
    Normal
      {| vr_passed := false;
         vr_withinRadius := false;
         vr_distanceMeters := VNull;
         vr_allowedRadius := VNumber 30;
         vr_message := VString "Location data not provided" |}.
Proof.
  apply (@verifyLocation_not_provided SmallAngle.host (VObject [])).
  left. discriminate.
Defined.

Lemma calculateDistance_symmetric_zero_witness :
  @calculateDistance SmallAngle.host 10 20 10.001 20.002 =
    @calculateDistance SmallAngle.host 10.001 20.002 10 20 /\
  @calculateDistance SmallAngle.host 48.8566 2.3522 48.8566 2.3522 = 0.
Proof.
  split.
  - apply (proj1 (@calculateDistance_symmetric_zero SmallAngle.host)
             small_angle_sin_odd 10 20 10.001 20.002).
  - apply (proj2 (@calculateDistance_symmetric_zero SmallAngle.host)
             small_angle_sin_zero small_angle_cos_bounded
             small_angle_atan2_zero 48.8566 2.3522).
    reflexivity.
Defined.

Lemma getDirection_compass_witness :
  exists n : Z,
    (0 <= n <= 8)%Z /\
    Num.to_Z (Num.Math_round (200 / 45)) = Some n /\
    getDirection 200 = nth (Z.to_nat (n mod 8)) compass VUndefined /\
    In (getDirection 200) compass.
Proof.
  apply (proj1 getDirection_compass 200); reflexivity.
Defined.


(** ** Instances of the further properties *)

Lemma isValidCoordinates_finite_witness :
  exists x y : float,
    VNumber 48.8566 = VNumber x /\ VNumber 2.3522 = VNumber y /\
    is_finite x = true /\ is_finite y = true /\
    is_nan x = false /\ is_nan y = false.
Proof.
  apply (isValidCoordinates_finite
           (VNumber 48.8566) (VNumber 2.3522)).
  reflexivity.
Defined.

(** A point 11.1 m north of the target passes against a radius of 50 m. *)
Lemma verifyLocation_passed_sound_witness :
  exists (r : VerificationResult) (lat lon : float) (c0 c1 : value) (d a : float),
    @verifyLocation SmallAngle.host
      (VObject [("latitude", VNumber 10.0001); ("longitude", VNumber 10)])
      (VObject [("coordinates", VArray [VNumber 10; VNumber 10]);
                ("radiusMeters", VNumber 50)]) = Normal r /\
    vr_passed r = true /\
    isValidCoordinates (VNumber lat) (VNumber lon) = true /\
    vr_distanceMeters r = VNumber d /\ vr_allowedRadius r = VNumber a /\
    (d <=? a) = true /\ (10 <=? a) = true.
Proof.
  eexists.
  destruct (@verifyLocation_passed_sound SmallAngle.host
              (VObject [("latitude", VNumber 10.0001); ("longitude", VNumber 10)])
              (VObject [("coordinates", VArray [VNumber 10; VNumber 10]);
                        ("radiusMeters", VNumber 50)])
              _ eq_refl eq_refl)
    as (lat & lon & c0 & c1 & targetLon & targetLat & d & a &
        _ & _ & _ & _ & _ & Hvu & _ & _ & Hd & Ha & Hle & H10 & _).
  exists lat, lon, c0, c1, d, a.
  split; [reflexivity|]. split; [reflexivity|]. auto.
Defined.

(** A target with three coordinates is not configured, although the
    submitted latitude is out of range; a target without coordinates whose
    radius cannot be converted is answered by the [catch] clause. *)
Lemma verifyLocation_not_configured_witness :
  @verifyLocation SmallAngle.host
    (VObject [("latitude", VNumber 91); ("longitude", VNumber 0)])
    (VObject [("coordinates", VArray [VNumber 1; VNumber 2; VNumber 3])]) =
    Normal
      {| vr_passed := false;
         vr_withinRadius := false;
         vr_distanceMeters := VNull;
         vr_allowedRadius := VNumber 50;
         vr_message := VString "Quest target location not configured" |} /\
  @verifyLocation SmallAngle.host
    (VObject [("latitude", VNumber 91); ("longitude", VNumber 0)])
    (VObject [("coordinates", VNull);
              ("radiusMeters", VObject [("toString", VNumber 1)])]) =
    Normal
      {| vr_passed := false;
         vr_withinRadius := false;
         vr_distanceMeters := VNull;
         vr_allowedRadius := VObject [("toString", VNumber 1)];
         vr_message := VString "Cannot convert object to primitive value" |}.
Proof.
  split.
  - pose proof (@verifyLocation_not_configured SmallAngle.host
                  (VObject [("latitude", VNumber 91); ("longitude", VNumber 0)])
                  (VObject [("coordinates",
                             VArray [VNumber 1; VNumber 2; VNumber 3])])
                  eq_refl eq_refl) as Hw.
    cbv zeta in Hw. apply (proj1 (Hw ltac:(discriminate)) 50). reflexivity.
  - pose proof (@verifyLocation_not_configured SmallAngle.host
                  (VObject [("latitude", VNumber 91); ("longitude", VNumber 0)])
                  (VObject [("coordinates", VNull);
                            ("radiusMeters", VObject [("toString", VNumber 1)])])
                  eq_refl eq_refl) as Hw.
    cbv zeta in Hw.
    apply (proj2 (Hw ltac:(discriminate)) not_primitive). reflexivity.
Defined.

(** A target stored as [[latitude, longitude]] with a longitude of 120 is
    read with a latitude of 120, and refused. *)
Lemma verifyLocation_invalid_coordinates_witness :
  @verifyLocation SmallAngle.host
    (VObject [("latitude", VNumber 10); ("longitude", VNumber 120)])
    (VObject [("coordinates", VArray [VNumber 10; VNumber 120]);
              ("radiusMeters", VNumber 30)]) =
    Normal
      {| vr_passed := false;
         vr_withinRadius := false;
         vr_distanceMeters := VNull;
         vr_allowedRadius := VNumber 30;
         vr_message := VString "Invalid coordinates" |}.
Proof.
  apply (@verifyLocation_invalid_coordinates SmallAngle.host
           (VObject [("latitude", VNumber 10); ("longitude", VNumber 120)])
           (VObject [("coordinates", VArray [VNumber 10; VNumber 120]);
                     ("radiusMeters", VNumber 30)])
           10 120 (VNumber 10) (VNumber 120) 30 10 120);
    try reflexivity.
  right. left. reflexivity.
Defined.

Lemma verifyLocation_same_point_witness :
  exists r,
    @verifyLocation SmallAngle.host
      (VObject [("latitude", VNumber 48.8566); ("longitude", VNumber 2.3522)])
      (VObject [("coordinates", VArray [VNumber 2.3522; VNumber 48.8566]);
                ("radiusMeters", VString "25")]) = Normal r /\
    vr_passed r = true /\ vr_withinRadius r = true /\
    vr_distanceMeters r = VNumber 0 /\
    vr_message r = VString "✅ Location verified (0m away)".
Proof.
  apply (@verifyLocation_same_point SmallAngle.host
           (VObject [("latitude", VNumber 48.8566); ("longitude", VNumber 2.3522)])
           (VObject [("coordinates", VArray [VNumber 2.3522; VNumber 48.8566]);
                     ("radiusMeters", VString "25")])
           48.8566 2.3522 25
           small_angle_sin_zero small_angle_cos_bounded small_angle_atan2_zero);
    reflexivity.
Defined.

(** The accuracy of the fix and a name of the target change nothing. *)
Lemma verifyLocation_reads_witness :
  @verifyLocation SmallAngle.host
    (VObject [("latitude", VNumber 10.0001); ("longitude", VNumber 10);
              ("accuracy", VNumber 5000)])
    (VObject [("name", VString "Gate"); ("radiusMeters", VNumber 50);
              ("coordinates", VArray [VNumber 10; VNumber 10])]) =
  @verifyLocation SmallAngle.host
    (VObject [("latitude", VNumber 10.0001); ("longitude", VNumber 10)])
    (VObject [("coordinates", VArray [VNumber 10; VNumber 10]);
              ("radiusMeters", VNumber 50)]).
Proof.
  apply (@verifyLocation_reads SmallAngle.host); reflexivity.
Defined.

Lemma isWithinRadius_symmetric_witness :
  @isWithinRadius SmallAngle.host 10 20 10.001 20.002 100 =
  @isWithinRadius SmallAngle.host 10.001 20.002 10 20 100.
Proof.
  apply (@isWithinRadius_symmetric SmallAngle.host 10 20 10.001 20.002 100).
  exact small_angle_sin_odd.
Defined.

Lemma isWithinRadius_same_point_witness :
  @isWithinRadius SmallAngle.host 48.8566 2.3522 48.8566 2.3522 0 =
    {| wr_isWithin := true; wr_distance := 0; wr_radiusMeters := 0 |} /\
  wr_isWithin (@isWithinRadius SmallAngle.host 48.8566 2.3522 48.8566 2.3522 (-1)) =
    false.
Proof.
  destruct (@isWithinRadius_same_point SmallAngle.host 48.8566 2.3522 0
              small_angle_sin_zero small_angle_cos_bounded small_angle_atan2_zero
              eq_refl) as (Hrec & _ & _).
  destruct (@isWithinRadius_same_point SmallAngle.host 48.8566 2.3522 (-1)
              small_angle_sin_zero small_angle_cos_bounded small_angle_atan2_zero
              eq_refl) as (_ & _ & Hneg).
  split; [exact Hrec|]. apply Hneg. right. reflexivity.
Defined.

Lemma findNearby_own_position_witness :
  In {| nb_object := [("name", VString "here")]; nb_distance := 0 |}
     (@findNearby SmallAngle.host 10 20
        [{| loc_lon := 20.002; loc_lat := 10.001;
            loc_toObject := [("name", VString "there")] |};
         {| loc_lon := 20; loc_lat := 10;
            loc_toObject := [("name", VString "here")] |}]
        500).
Proof.
  apply (@findNearby_own_position SmallAngle.host 10 20 _ 500
           {| loc_lon := 20; loc_lat := 10;
              loc_toObject := [("name", VString "here")] |}
           small_angle_sin_zero small_angle_cos_bounded small_angle_atan2_zero);
    try reflexivity.
  right. left. reflexivity.
Defined.

Lemma findNearby_bounds_witness :
  @findNearby SmallAngle.host 10 20
    [{| loc_lon := 20.002; loc_lat := 10.001; loc_toObject := [] |}] nan = [].
Proof.
  apply (@findNearby_bounds SmallAngle.host 10 20
           [{| loc_lon := 20.002; loc_lat := 10.001; loc_toObject := [] |}] nan).
  reflexivity.
Defined.

(** Of two candidates 111 m and 222 m away, a search within 150 m keeps
    the first of those a search within 500 m finds. *)
Lemma findNearby_narrow_witness :
  @findNearby SmallAngle.host 0 0
    [{| loc_lon := 0; loc_lat := 0.002; loc_toObject := [] |};
     {| loc_lon := 0; loc_lat := 0.001; loc_toObject := [] |}] 150 =
  filter (fun n => nb_distance n <=? 150)
    (@findNearby SmallAngle.host 0 0
       [{| loc_lon := 0; loc_lat := 0.002; loc_toObject := [] |};
        {| loc_lon := 0; loc_lat := 0.001; loc_toObject := [] |}] 500).
Proof.
  apply (@findNearby_narrow SmallAngle.host). reflexivity.
Defined.

Lemma detectSpoofing_checks_witness :
  exists r,
    @detectSpoofing (VObject [("isEmulator", VString "no")]) = Normal r /\
    map ck_check (sa_checks r) = ["isEmulator"; "mockLocation"] /\
    map ck_passed (sa_checks r) = [false; true].
Proof.
  destruct (detectSpoofing_checks (VObject [("isEmulator", VString "no")]) eq_refl)
    as (r & Hr & Hnames & Hpassed & _).
  exists r. split; [exact Hr|]. split; [exact Hnames|exact Hpassed].
Defined.

(** A bearing of 405 degrees wraps to north-east. *)
Lemma getDirection_wraps_witness :
  exists n : Z,
    (0 <= n)%Z /\
    Num.to_Z (Num.Math_round (405 / 45)) = Some n /\
    getDirection 405 = nth (Z.to_nat (n mod 8)) compass VUndefined /\
    In (getDirection 405) compass.
Proof.
  apply (getDirection_wraps 405); reflexivity.
Defined.

(** A bearing of -90 degrees has no direction. *)
Lemma getDirection_negative_witness :
  exists n : Z,
    (n <= 0)%Z /\
    Num.to_Z (Num.Math_round (-90 / 45)) = Some n /\
    getDirection (-90) = if (n mod 8 =? 0)%Z then VString "N" else VUndefined.
Proof.
  apply (proj1 (getDirection_negative (-90))); reflexivity.
Defined.

Lemma getBearing_range_witness :
  (0 <=? @getBearing SmallAngle.host 0 0 1 1) = true /\
  (@getBearing SmallAngle.host 0 0 1 1 <? 360) = true.
Proof.
  apply (proj1 (@getBearing_range SmallAngle.host 0 0 1 1)); reflexivity.
Defined.

Lemma getDirection_of_getBearing_witness :
  In (getDirection (@getBearing SmallAngle.host 0 0 1 1)) compass.
Proof.
  apply (@getDirection_of_getBearing SmallAngle.host 0 0 1 1); reflexivity.
Defined.

(** The box of 1 km around [(10, 10)]. *)
Lemma getBoundingBox_contains_witness :
  let box := @getBoundingBox SmallAngle.host 10 10 1000 in
  (bb_minLat box <=? 10) = true /\ (10 <=? bb_maxLat box) = true /\
  (bb_minLon box <=? 10) = true /\ (10 <=? bb_maxLon box) = true.
Proof.
  destruct (@getBoundingBox_contains SmallAngle.host 10 10 1000
              eq_refl eq_refl eq_refl eq_refl) as ((H1 & H2 & _) & Hlon & _).
  destruct (Hlon eq_refl) as (H3 & H4 & _).
  cbv zeta. auto.
Defined.

Lemma formatDistance_metres_witness :
  @formatDistance SmallAngle.host 999.7 = "1000m".
Proof.
  apply (proj1 (proj2 (@formatDistance_metres SmallAngle.host 999.7)));
    reflexivity.
Defined.

Section MemoryVaultInstances.

Local Open Scope Z_scope.

(** The first memory stored in a fresh vault. *)
Lemma store_memory_get_memory_witness :
  exists g' store',
    MemoryVault.store_memory 1 7 "QmHash" (MemoryVault.vault_with 1 [] 1700000000) =
      MemoryVault.Done g' /\
    MemoryVault.stores g' 1%Z = Some store' /\ MemoryVault.numbered store' /\
    MemoryVault.get_total_memories 1 g' = MemoryVault.Done 1%Z /\
    MemoryVault.get_memory 1 1 g' =
      MemoryVault.Done ("QmHash", 7%Z, 1700000000%Z) /\
    MemoryVault.verify_ownership 1 1 7 g' = MemoryVault.Done true.
Proof.
  destruct (proj1 (store_memory_get_memory 1
                     (MemoryVault.vault_with 1 [] 1700000000)
                     {| MemoryVault.memories := []; MemoryVault.total_count := 0 |}
                     7%Z "QmHash" eq_refl (conj eq_refl eq_refl)) eq_refl)
    as (g' & store' & Hrun & Hstore & Hnum & Htotal & Hget & Hown & _ & _).
  exists g', store'. auto 10.
Defined.

(** The owner 7 of memory 1 gives it to 9; the account 8 cannot. *)
Lemma transfer_memory_owner_witness :
  (exists g',
     MemoryVault.transfer_memory 1 7 1 9
       (MemoryVault.vault_with 1
          [{| MemoryVault.id := 1; MemoryVault.ipfs_hash := "QmHash";
              MemoryVault.owner := 7; MemoryVault.timestamp := 5 |}] 10) =
       MemoryVault.Done g' /\
     MemoryVault.get_memory 1 1 g' = MemoryVault.Done ("QmHash", 9%Z, 5%Z) /\
     MemoryVault.verify_ownership 1 1 7 g' = MemoryVault.Done false) /\
  MemoryVault.transfer_memory 1 8 1 9
    (MemoryVault.vault_with 1
       [{| MemoryVault.id := 1; MemoryVault.ipfs_hash := "QmHash";
           MemoryVault.owner := 7; MemoryVault.timestamp := 5 |}] 10) =
    MemoryVault.Abort MemoryVault.E_NOT_OWNER.
Proof.
  split.
  - destruct (proj1 (proj1 (transfer_memory_owner 1
                              (MemoryVault.vault_with 1
                                 [{| MemoryVault.id := 1;
                                     MemoryVault.ipfs_hash := "QmHash";
                                     MemoryVault.owner := 7;
                                     MemoryVault.timestamp := 5 |}] 10)
                              7%Z 9%Z 1%Z)
                       "QmHash" 7%Z 5%Z eq_refl) eq_refl)
      as (g' & Hrun & Hget & _ & Hold & _ & _ & _).
    exists g'. split; [exact Hrun|]. split; [exact Hget|].
    apply Hold. discriminate.
  - apply (proj2 (proj1 (transfer_memory_owner 1
                           (MemoryVault.vault_with 1
                              [{| MemoryVault.id := 1;
                                  MemoryVault.ipfs_hash := "QmHash";
                                  MemoryVault.owner := 7;
                                  MemoryVault.timestamp := 5 |}] 10)
                           8%Z 9%Z 1%Z)
                    "QmHash" 7%Z 5%Z eq_refl)).
    discriminate.
Defined.

Lemma get_memory_range_witness :
  MemoryVault.get_memory 1 2
    (MemoryVault.vault_with 1
       [{| MemoryVault.id := 1; MemoryVault.ipfs_hash := "QmHash";
           MemoryVault.owner := 7; MemoryVault.timestamp := 5 |}] 10) =
    MemoryVault.Abort MemoryVault.E_MEMORY_NOT_FOUND.
Proof.
  apply (proj2 (get_memory_range 1
                  (MemoryVault.vault_with 1
                     [{| MemoryVault.id := 1; MemoryVault.ipfs_hash := "QmHash";
                         MemoryVault.owner := 7; MemoryVault.timestamp := 5 |}] 10)
                  {| MemoryVault.memories :=
                       [{| MemoryVault.id := 1; MemoryVault.ipfs_hash := "QmHash";
                           MemoryVault.owner := 7; MemoryVault.timestamp := 5 |}];
                     MemoryVault.total_count := 1 |}
                  2%Z eq_refl (conj eq_refl eq_refl))).
  right. reflexivity.
Defined.

(** After a transfer to 9 the count of 9 is still 0. *)
Lemma get_user_memory_count_stores_witness :
  exists g',
    MemoryVault.transfer_memory 1 7 1 9
      (MemoryVault.vault_with 1
         [{| MemoryVault.id := 1; MemoryVault.ipfs_hash := "QmHash";
             MemoryVault.owner := 7; MemoryVault.timestamp := 5 |}] 10) =
      MemoryVault.Done g' /\
    MemoryVault.get_user_memory_count 9 g' = MemoryVault.Done 0%Z.
Proof.
  eexists. split; [reflexivity|].
  apply (proj2 (get_user_memory_count_stores 1
                  (MemoryVault.vault_with 1
                     [{| MemoryVault.id := 1; MemoryVault.ipfs_hash := "QmHash";
                         MemoryVault.owner := 7; MemoryVault.timestamp := 5 |}] 10)
                  _ 7%Z) 1%Z 9%Z eq_refl 9%Z).
Defined.

Lemma initialize_once_witness :
  exists g',
    MemoryVault.initialize 1
      {| MemoryVault.stores := fun _ => None; MemoryVault.users := fun _ => None;
         MemoryVault.events := []; MemoryVault.now_seconds := 0 |} =
      MemoryVault.Done g' /\
    MemoryVault.initialize 1 g' = MemoryVault.Abort MemoryVault.E_ALREADY_INITIALIZED /\
    MemoryVault.get_total_memories 1 g' = MemoryVault.Done 0%Z.
Proof.
  destruct (proj1 (initialize_once 1
                     {| MemoryVault.stores := fun _ => None;
                        MemoryVault.users := fun _ => None;
                        MemoryVault.events := [];
                        MemoryVault.now_seconds := 0 |} 1%Z) eq_refl)
    as (g' & Hrun & _ & _ & Hagain & Htotal & _).
  exists g'. split; [exact Hrun|]. split; [exact Hagain|]. now apply Htotal.
Defined.

Lemma numbered_invariant_witness :
  exists g' store',
    MemoryVault.store_memory 1 7 "QmHash" (MemoryVault.vault_with 1 [] 10) =
      MemoryVault.Done g' /\
    MemoryVault.stores g' 1%Z = Some store' /\ MemoryVault.numbered store' /\
    (0 <= MemoryVault.total_count store')%Z.
Proof.
  eexists.
  destruct (numbered_invariant 1 (MemoryVault.vault_with 1 [] 10) _
              {| MemoryVault.memories := []; MemoryVault.total_count := 0 |}
              eq_refl (conj eq_refl eq_refl)
              (or_intror (or_introl
                 (ex_intro _ 7%Z (ex_intro _ "QmHash" eq_refl)))))
    as (store' & Hstore & Hnum & Hcount).
  exists store'. split; [reflexivity|]. split; [exact Hstore|].
  split; [exact Hnum|exact Hcount].
Defined.

End MemoryVaultInstances.
